(** * ereader-sync: a shallow embedding of the scripts and their properties

    The repository is a set of Python scripts (config reader, scrapers,
    converter, uploader, UI helpers).  Each section below embeds one source
    file: pure functions become Rocq functions, exceptions become a [result]
    type, the file system and the network become explicit arguments.

    Python text ([str]) is modelled as [list ascii]; a character stands for the
    code point with the same number, so the model covers texts whose code points
    are below 256.  The [str] methods used by the source are defined on that
    range the way CPython defines them. *)

From Stdlib Require Import ZArith NArith List Ascii String Bool Lia.
From stdpp Require Import base tactics option list strings gmap.
Import ListNotations.

Set Warnings "-register-all".

Local Open Scope Z_scope.
Local Open Scope list_scope.

(** ** Python strings *)

Module PyStr.

Abbreviation pystr := (list ascii).

(** A string literal of the source. *)
Definition lit (s : string) : pystr := list_ascii_of_string s.

Definition ord (c : ascii) : N := N_of_ascii c.

Definition in_range (lo hi : N) (c : ascii) : bool :=
  ((lo <=? ord c) && (ord c <=? hi))%N.

(** [str.isspace] on one code point below 256: TAB..CR, FS..US, SPACE,
    NEL (0x85) and NBSP (0xA0). *)
Definition isspace_char (c : ascii) : bool :=
  in_range 9 13 c || in_range 28 32 c || (ord c =? 133)%N || (ord c =? 160)%N.

(** The decimal digits [0-9]: the only characters below 256 with the Unicode
    decimal property ([\d] of [re], the digits [int] and [float] accept). *)
Definition isdecimal_char (c : ascii) : bool := in_range 48 57 c.

(** [str.isdigit] on one code point below 256: the decimal digits and the
    superscripts two, three (0xB2, 0xB3) and one (0xB9). *)
Definition isdigit_char (c : ascii) : bool :=
  isdecimal_char c || (ord c =? 178)%N || (ord c =? 179)%N || (ord c =? 185)%N.

(** [str.lower] on one code point below 256: A-Z and the Latin-1 capitals
    0xC0-0xDE (the multiplication sign 0xD7 apart) move up by 32. *)
Definition lower_char (c : ascii) : ascii :=
  if in_range 65 90 c || (in_range 192 222 c && negb (ord c =? 215)%N)
  then ascii_of_N (ord c + 32)
  else c.

Definition lower (s : pystr) : pystr := map lower_char s.

(** [s.isdigit()]: non-empty and every character a digit. *)
Definition isdigit (s : pystr) : bool :=
  match s with
  | [] => false
  | _ => forallb isdigit_char s
  end.

Definition eqb_char (a b : ascii) : bool := Ascii.eqb a b.

Fixpoint eqb_str (a b : pystr) : bool :=
  match a, b with
  | [], [] => true
  | x :: a', y :: b' => eqb_char x y && eqb_str a' b'
  | _, _ => false
  end.

(** [c in s] for a one-character [c]. *)
Definition contains_char (c : ascii) (s : pystr) : bool := existsb (eqb_char c) s.

Fixpoint startswith (p s : pystr) : bool :=
  match p, s with
  | [], _ => true
  | x :: p', y :: s' => eqb_char x y && startswith p' s'
  | _ :: _, [] => false
  end.

Definition endswith (p s : pystr) : bool := startswith (rev p) (rev s).

(** Stripping: [lstrip_by p] drops the longest prefix of characters
    satisfying [p], [rstrip_by p] the longest such suffix. *)
Fixpoint lstrip_by (p : ascii -> bool) (s : pystr) : pystr :=
  match s with
  | [] => []
  | c :: s' => if p c then lstrip_by p s' else s
  end.

Definition rstrip_by (p : ascii -> bool) (s : pystr) : pystr :=
  rev (lstrip_by p (rev s)).

Definition strip_by (p : ascii -> bool) (s : pystr) : pystr :=
  rstrip_by p (lstrip_by p s).

(** A string with no character satisfying [p] at its left end, at its right
    end. *)
Definition no_lead (p : ascii -> bool) (s : pystr) : Prop :=
  match s with [] => True | c :: _ => p c = false end.

Definition no_trail (p : ascii -> bool) (s : pystr) : Prop :=
  no_lead p (rev s).

(** [s.strip()], [s.rstrip()] with no argument. *)
Definition strip (s : pystr) : pystr := strip_by isspace_char s.
Definition rstrip (s : pystr) : pystr := rstrip_by isspace_char s.

(** [break_at c s]: the text before the first [c], and the text after it
    when there is one. *)
Fixpoint break_at (c : ascii) (s : pystr) : pystr * option pystr :=
  match s with
  | [] => ([], None)
  | x :: s' =>
      if eqb_char x c then ([], Some s')
      else let '(a, r) := break_at c s' in (x :: a, r)
  end.

(** [s.split(c, maxsplit)] for a one-character separator. *)
Fixpoint split_max (c : ascii) (maxsplit : nat) (s : pystr) : list pystr :=
  match maxsplit with
  | O => [s]
  | S n =>
      match break_at c s with
      | (a, None) => [a]
      | (a, Some rest) => a :: split_max c n rest
      end
  end.

(** [s.replace(c, r)] for a one-character [c]. *)
Definition replace_char (c : ascii) (r : pystr) (s : pystr) : pystr :=
  flat_map (fun x => if eqb_char x c then r else [x]) s.

(** [s[:n]] for an integer [n]: a negative [n] counts from the end. *)
Definition slice_to (n : Z) (s : pystr) : pystr :=
  if n <? 0 then firstn (Z.to_nat (Z.of_nat (length s) + n)) s
  else firstn (Z.to_nat n) s.

(** [s[n:]] for a natural [n]. *)
Definition slice_from (n : nat) (s : pystr) : pystr := skipn n s.

(** *** Numbers and text *)

Definition digit_char (d : Z) : ascii := ascii_of_N (Z.to_N (48 + d)).

Definition digit_val (c : ascii) : Z := Z.of_N (ord c) - 48.

(** The decimal digits of a natural number, most significant first;
    [fuel] bounds the number of digits. *)
Fixpoint digits_fuel (fuel : nat) (n : Z) : pystr :=
  match fuel with
  | O => [digit_char (n mod 10)]
  | S f =>
      if n <? 10 then [digit_char n]
      else digits_fuel f (n / 10) ++ [digit_char (n mod 10)]
  end.

Definition digits_of (n : Z) : pystr := digits_fuel (Z.to_nat (Z.log2 n)) n.

(** The decimal text of an integer: a sign and the digits. *)
Definition str_of_int (n : Z) : pystr :=
  if n <? 0 then "-"%char :: digits_of (- n) else digits_of n.

(** The interpreter's limit on the digits of an integer that is turned into
    text or read from text: [sys.get_int_max_str_digits()], which is 4300
    unless the program or its environment sets another; this program sets
    none. *)
Definition int_max_str_digits : Z := 4300.

(** An integer with no more digits than the limit. *)
Definition int_str_ok (n : Z) : bool :=
  Z.of_nat (length (digits_of (Z.abs n))) <=? int_max_str_digits.


(** [str(n)] for an integer, and an integer in an f-string: [None] stands
    for the [ValueError] of an integer with more digits than the limit. *)
Definition py_str (n : Z) : option pystr :=
  if int_str_ok n then Some (str_of_int n) else None.

(** The white space [int] and [float] skip around a number: a Unicode space
    above 127 (NEL, NBSP) is turned into a blank first, an ASCII character is
    a space in the C sense only (TAB..CR and SPACE). *)
Definition isspace_num (c : ascii) : bool :=
  in_range 9 13 c || (ord c =? 32)%N || (ord c =? 133)%N || (ord c =? 160)%N.

(** Digits with single underscores between them, read in base 10.
    [after_digit] tells whether the previous character was a digit. *)
Fixpoint int_digits (acc : Z) (after_digit : bool) (s : pystr) : option Z :=
  match s with
  | [] => if after_digit then Some acc else None
  | c :: s' =>
      if isdecimal_char c then int_digits (10 * acc + digit_val c) true s'
      else if eqb_char c "_" && after_digit then
        match s' with
        | [] => None
        | _ => int_digits acc false s'
        end
      else None
  end.

Definition split_sign (s : pystr) : bool * pystr :=
  match s with
  | c :: s' =>
      if eqb_char c "-" then (true, s')
      else if eqb_char c "+" then (false, s')
      else (false, s)
  | [] => (false, [])
  end.

(** The digits of a text, its leading zeros among them. *)
Definition digit_count (s : pystr) : nat :=
  length (List.filter isdecimal_char s).

(** [int(s)]: [None] stands for [ValueError], that of a text that writes no
    integer and that of a text with more digits than the limit. *)
Definition py_int (s : pystr) : option Z :=
  let '(neg, body) := split_sign (strip_by isspace_num s) in
  if int_max_str_digits <? Z.of_nat (digit_count body) then None
  else
    match int_digits 0 false body with
    | Some n => Some (if neg then - n else n)
    | None => None
    end.

(** *** The texts [float] accepts *)

(** Underscores are allowed between two digits only. *)
Fixpoint underscores_ok (prev : option ascii) (s : pystr) : bool :=
  match s with
  | [] => match prev with
          | Some p => negb (eqb_char p "_")
          | None => true
          end
  | c :: s' =>
      let prev_digit := match prev with Some p => isdecimal_char p | None => false end in
      let prev_us := match prev with Some p => eqb_char p "_" | None => false end in
      (if eqb_char c "_" then prev_digit
       else negb prev_us || isdecimal_char c)
      && underscores_ok (Some c) s'
  end.

Definition remove_underscores (s : pystr) : pystr :=
  List.filter (fun c => negb (eqb_char c "_")) s.

Fixpoint span (p : ascii -> bool) (s : pystr) : pystr * pystr :=
  match s with
  | c :: s' =>
      if p c then let '(a, r) := span p s' in (c :: a, r) else ([], s)
  | [] => ([], [])
  end.

Definition nonempty (s : pystr) : bool :=
  match s with [] => false | _ => true end.

(** [digits [. digits] [(e|E) [sign] digits]] with a digit before or after
    the point. *)
Definition decimal_float (s : pystr) : bool :=
  let '(ip, r1) := span isdecimal_char s in
  let '(fp, r2) :=
    match r1 with
    | c :: r => if eqb_char c "." then span isdecimal_char r else ([], r1)
    | [] => ([], [])
    end in
  (nonempty ip || nonempty fp)
  && match r2 with
     | [] => true
     | e :: r3 =>
         (eqb_char e "e" || eqb_char e "E")
         && (let r4 := snd (split_sign r3) in
             nonempty r4 && forallb isdecimal_char r4)
     end.

Definition inf_or_nan (s : pystr) : bool :=
  let l := lower s in
  eqb_str l (lit "inf") || eqb_str l (lit "infinity") || eqb_str l (lit "nan").

(** [float(s)] succeeds: [false] stands for [ValueError].  The float itself
    (the rounding of the number to binary64) is outside the model. *)
Definition py_float_ok (s : pystr) : bool :=
  let t := strip_by isspace_num s in
  underscores_ok None t
  && (let body := snd (split_sign (remove_underscores t)) in
      inf_or_nan body || decimal_float body).

End PyStr.

(** ** Dictionaries

    A Python [dict] keeps its keys in insertion order and holds each key once:
    an association list, written through [dict_set].  Two dictionaries are
    equal in Python when they hold the same keys with the same values, in any
    order ([dict_eq]). *)

Module PyDict.
Import PyStr.

Section Dict.
Context {V : Type}.

Definition dict := list (pystr * V).

Fixpoint dict_get (k : pystr) (d : dict) : option V :=
  match d with
  | [] => None
  | (k', v) :: d' => if eqb_str k' k then Some v else dict_get k d'
  end.

(** [d[k] = v]: an existing key keeps its place, a new key goes last. *)
Fixpoint dict_set (k : pystr) (v : V) (d : dict) : dict :=
  match d with
  | [] => [(k, v)]
  | (k', v') :: d' =>
      if eqb_str k' k then (k', v) :: d' else (k', v') :: dict_set k v d'
  end.

Definition dict_keys (d : dict) : list pystr := map fst d.

Definition dict_mem (k : pystr) (d : dict) : bool :=
  match dict_get k d with Some _ => true | None => false end.

(** [d.update(e)]: the items of [e], in order, written into [d]. *)
Definition dict_update (d e : dict) : dict :=
  fold_left (fun acc kv => dict_set (fst kv) (snd kv) acc) e d.


(** Every key occurs once. *)
Definition dict_wf (d : dict) : Prop := List.NoDup (dict_keys d).
End Dict.

Arguments dict : clear implicits.

End PyDict.

(** ** Regular expressions

    The patterns of the source use literals, character classes with a
    repetition count, sequence, alternation and the end anchor.  [re_run] is a
    backtracking matcher in the order of [re]: a repetition is greedy, the
    first alternative is tried first, and the continuation [k] receives the
    text that is left. *)

Module Re.
Import PyStr.

Inductive regex : Type :=
| Lit (t : pystr)
| ClassRep (p : ascii -> bool) (lo : nat) (hi : option nat)
| Seq (r1 r2 : regex)
| Alt (r1 r2 : regex)
| Eol.

(** One character of a class, [p+], [p{lo,hi}], [p{n}]. *)
Definition Class (p : ascii -> bool) : regex := ClassRep p 1 (Some 1%nat).
Definition PlusOf (p : ascii -> bool) : regex := ClassRep p 1 None.
Definition Between (p : ascii -> bool) (lo hi : nat) : regex := ClassRep p lo (Some hi).
Definition Exactly (p : ascii -> bool) (n : nat) : regex := ClassRep p n (Some n).

(** [r1|r2|...|rn] for a non-empty list; the empty list matches nothing. *)
Fixpoint alt_of (rs : list regex) : regex :=
  match rs with
  | [] => ClassRep (fun _ => false) 1 (Some 1%nat)
  | [r] => r
  | r :: rs' => Alt r (alt_of rs')
  end.

Definition or_else {A : Type} (a b : option A) : option A :=
  match a with Some x => Some x | None => b end.

Definition may_take (hi : option nat) : bool :=
  match hi with Some O => false | _ => true end.

Definition less_one (hi : option nat) : option nat :=
  match hi with Some n => Some (Nat.pred n) | None => None end.

(** Between [lo] and [hi] characters of the class [p], the longest run first. *)
Fixpoint class_rep {A : Type} (p : ascii -> bool) (lo : nat) (hi : option nat)
    (s : pystr) (k : pystr -> option A) : option A :=
  let stop := match lo with O => k s | S _ => None end in
  match s with
  | c :: s' =>
      if p c && may_take hi
      then or_else (class_rep p (Nat.pred lo) (less_one hi) s' k) stop
      else stop
  | [] => stop
  end.

(** [$] without MULTILINE: at the end of the text, or before a line feed
    that ends the text. *)
Definition at_eol (s : pystr) : bool :=
  match s with
  | [] => true
  | [c] => eqb_char c "010"
  | _ => false
  end.

Fixpoint re_run {A : Type} (r : regex) (s : pystr) (k : pystr -> option A) : option A :=
  match r with
  | Lit t => if startswith t s then k (skipn (length t) s) else None
  | ClassRep p lo hi => class_rep p lo hi s k
  | Seq r1 r2 => re_run r1 s (fun s' => re_run r2 s' k)
  | Alt r1 r2 => or_else (re_run r1 s k) (re_run r2 s k)
  | Eol => if at_eol s then k s else None
  end.

(** [re.match(r, s) is not None]: the pattern matches at the start of [s]. *)
Definition re_match (r : regex) (s : pystr) : bool :=
  match re_run r s (fun _ => Some tt) with Some _ => true | None => false end.

(** A length within an upper bound, when there is one. *)
Definition within (hi : option nat) (n : nat) : Prop :=
  match hi with Some h => (n <= h)%nat | None => True end.

Definition accepts {A : Type} (o : option A) : bool :=
  match o with Some _ => true | None => false end.

(** The words of a pattern: [lang r w rest] when [r] can match [w] in front
    of [rest]. *)
Fixpoint lang (r : regex) (w rest : pystr) : Prop :=
  match r with
  | Lit t => w = t
  | ClassRep p lo hi =>
      forallb p w = true /\ (lo <= length w)%nat /\ within hi (length w)
  | Seq r1 r2 =>
      exists w1 w2, w = w1 ++ w2 /\ lang r1 w1 (w2 ++ rest) /\ lang r2 w2 rest
  | Alt r1 r2 => lang r1 w rest \/ lang r2 w rest
  | Eol => w = [] /\ at_eol rest = true
  end.

End Re.

(** ** bin/config_reader.py *)

Module ConfigReader.
Import PyStr PyDict.

(** A configuration value.  A float is kept as the text [float] accepted. *)
Inductive pyval : Type :=
| VInt (n : Z)
| VBool (b : bool)
| VFloat (text : pystr)
| VStr (s : pystr).

Inductive exn : Type := FileNotFoundError | ValueError.

Inductive result (A : Type) : Type :=
| Ok (a : A)
| Raise (e : exn).
Arguments Ok {A} a.
Arguments Raise {A} e.

Definition is_bool_text (s : pystr) : bool :=
  eqb_str (lower s) (lit "true") || eqb_str (lower s) (lit "false").

(** Lines 36-45: the conversion of a stripped value.  [int] may raise
    [ValueError], which nothing catches; the [ValueError] of [float] is caught. *)
Definition coerce (value : pystr) : result pyval :=
  if isdigit value then
    match py_int value with
    | Some n => Ok (VInt n)
    | None => Raise ValueError
    end
  else if is_bool_text value then Ok (VBool (eqb_str (lower value) (lit "true")))
  else if py_float_ok value then Ok (VFloat value)
  else Ok (VStr value).

(** Lines 23-45: the body of the loop, on one line of the file. *)
Definition parse_line (config : dict pyval) (line : pystr) : result (dict pyval) :=
  let line := strip line in
  if negb (nonempty line) || startswith (lit "#") line then Ok config
  else if contains_char "=" line then
    match split_max "=" 1 line with
    | [key; value] =>
        let key := strip key in
        let value := strip value in
        match coerce value with
        | Ok v => Ok (dict_set key v config)
        | Raise e => Raise e
        end
    | _ => Raise ValueError
    end
  else Ok config.

(** Lines 11, 22, 47: the loop over the lines, from a given dictionary. *)
Fixpoint parse_lines (config : dict pyval) (lines : list pystr) : result (dict pyval) :=
  match lines with
  | [] => Ok config
  | line :: rest =>
      match parse_line config line with
      | Ok config' => parse_lines config' rest
      | Raise e => Raise e
      end
  end.

Definition read_config_lines (lines : list pystr) : result (dict pyval) :=
  parse_lines [] lines.

(** The lines a text file yields when it is iterated: the text is cut after
    each line end, and the line ends CR and CR LF are read as LF. *)
Fixpoint file_lines_from (cur : pystr) (text : pystr) : list pystr :=
  match text with
  | [] => match cur with [] => [] | _ => [cur] end
  | c :: text' =>
      if eqb_char c "010" then (cur ++ ["010"%char]) :: file_lines_from [] text'
      else if eqb_char c "013" then
        match text' with
        | c' :: text'' =>
            if eqb_char c' "010"
            then (cur ++ ["010"%char]) :: file_lines_from [] text''
            else (cur ++ ["010"%char]) :: file_lines_from [] text'
        | [] => [cur ++ ["010"%char]]
        end
      else file_lines_from (cur ++ [c]) text'
  end.

Definition file_lines (text : pystr) : list pystr := file_lines_from [] text.

(** The config directory: the text of each file in it, by name. *)
Abbreviation config_dir := (gmap pystr pystr).

(** Lines 9-47. *)
Definition read_config_file (dir : config_dir) (filename : pystr) : result (dict pyval) :=
  match dir !! filename with
  | None => Raise FileNotFoundError
  | Some text => read_config_lines (file_lines text)
  end.

(** Lines 50-60: only [FileNotFoundError] of the second read is caught. *)
Definition get_config (dir : config_dir) : result (dict pyval) :=
  match read_config_file dir (lit "application.config") with
  | Raise e => Raise e
  | Ok app_config =>
      match read_config_file dir (lit "secrets.config") with
      | Ok secrets_config => Ok (dict_update app_config secrets_config)
      | Raise FileNotFoundError => Ok app_config
      | Raise e => Raise e
      end
  end.

End ConfigReader.
(** ** bin/utils/common.py *)

Module Common.
Import PyStr.

(** The line end that [print] and the [write] calls of the source add. *)
Definition nl : pystr := ["010"%char].



End Common.

(** ** bin/utils/ui_helpers.py *)

Module UiHelpers.
Import PyStr PyDict Re ConfigReader Common.

(** Lines 14-44. *)
Definition CORE_CONFIG_CATEGORIES : dict (list pystr) :=
  [ (lit "WiFi Network Settings",
     [lit "EPAPER_NETWORK"; lit "WIFI_INTERFACE"; lit "ORIGINAL_NETWORK_FALLBACK"]);
    (lit "Network Timing Configuration (seconds)",
     [lit "CONNECTION_WAIT_TIME"; lit "MAX_RETRIES"; lit "RETRY_DELAY";
      lit "EPAPER_TIMEOUT"]);
    (lit "E-Paper Device Settings",
     [lit "EPAPER_DEVICE_IP"; lit "EPAPER_UPLOAD_ENDPOINT"]);
    (lit "Directory Configuration", [lit "TEXTS_DIR"; lit "SD_CARD_PATH"]);
    (lit "Upload Configuration", [lit "UPLOAD_TIMEOUT"; lit "UPLOAD_DELAY_SECONDS"]);
    (lit "XTC Conversion Configuration",
     [lit "XTC_FONT_FAMILY"; lit "XTC_FONT_SIZE"; lit "XTC_LINE_HEIGHT";
      lit "XTC_BIT_DEPTH"; lit "XTC_ORIENTATION"; lit "XTC_ENABLE_DITHERING";
      lit "XTC_ENABLE_NEGATIVE"; lit "XTC_CONVERSION_TIMEOUT";
      lit "XTC_MAX_PARALLEL_CONVERSIONS"]);
    (lit "GUI Configuration", [lit "GUI_SHOW_RAW_OUTPUT"; lit "GUI_THEME"]) ].

(** Lines 47-52. *)
Definition KNOWN_SCRAPER_PREFIXES : dict pystr :=
  [ (lit "HCR", lit "HCR (Letters from an American)");
    (lit "HN", lit "Hacker News");
    (lit "HACKERNEWS", lit "Hacker News");
    (lit "HACKADAY", lit "Hackaday") ].

(** Lines 55-59. *)
Definition SCRAPER_SPECIAL_KEYS : dict pystr :=
  [ (lit "MIN_LETTER_WORD_COUNT", lit "HCR");
    (lit "MAX_HCR_CANDIDATES", lit "HCR");
    (lit "HACKERNEWS_SUBDIR", lit "HN") ].

(** [x in l] for a list of strings. *)
Definition mem_str (x : pystr) (l : list pystr) : bool := existsb (eqb_str x) l.

(** [d.get(k, default)]. *)
Definition dict_get_or {V : Type} (k : pystr) (default : V) (d : dict V) : V :=
  match dict_get k d with Some v => v | None => default end.

(** The order of [str]: by code point, a prefix first. *)
Fixpoint str_leb (a b : pystr) : bool :=
  match a, b with
  | [], _ => true
  | _ :: _, [] => false
  | x :: a', y :: b' =>
      if (ord x <? ord y)%N then true
      else if (ord y <? ord x)%N then false
      else str_leb a' b'
  end.

Fixpoint insert_sorted (x : pystr) (l : list pystr) : list pystr :=
  match l with
  | [] => [x]
  | y :: l' => if str_leb x y then x :: l else y :: insert_sorted x l'
  end.

(** [sorted(l)] for a list of strings. *)
Definition sorted (l : list pystr) : list pystr := fold_right insert_sorted [] l.

(** [A-Z_] *)
Definition upper_or_underscore (c : ascii) : bool :=
  in_range 65 90 c || eqb_char c "_".

(** Line 88: [_(ITEMS|STORIES|POSTS|ARTICLES)], the end of the pattern. *)
Definition num_pattern_tail : regex :=
  Seq (Lit (lit "_"))
      (alt_of [Lit (lit "ITEMS"); Lit (lit "STORIES"); Lit (lit "POSTS");
               Lit (lit "ARTICLES")]).

(** Lines 88-90: [group(1)] of the match of
    [NUM_([A-Z_]+)_(ITEMS|STORIES|POSTS|ARTICLES)] at the start of [key]:
    the text between the place the group starts and the place it ends. *)
Definition num_pattern_group1 (key : pystr) : option pystr :=
  re_run (Lit (lit "NUM_")) key (fun s1 =>
    re_run (PlusOf upper_or_underscore) s1 (fun s2 =>
      re_run num_pattern_tail s2 (fun _ =>
        Some (firstn (length s1 - length s2) s1)))).

(** Lines 95-102. *)
Definition scraper_suffixes : list pystr :=
  [lit "_FETCH_TIMEOUT"; lit "_API_BASE"; lit "_BLOG_URL"; lit "_ARCHIVE_URL";
   lit "_MAX_FILENAME_LENGTH"; lit "_SUBDIR"].

Section Builtins.

(** [str.title] and the text of a float (given the text it was read from)
    are taken from Python: title casing leaves the code points below 256, and
    the digits of a float depend on its binary64 rounding. *)
Variable title : pystr -> pystr.
Variable float_str : pystr -> pystr.

(** [prefix.replace("_", " ").title()] *)
Definition display_of (prefix : pystr) : pystr :=
  title (replace_char "_" (lit " ") prefix).

(** Lines 103-108: the loop over the suffixes. *)
Fixpoint suffix_loop (key : pystr) (suffixes : list pystr) : option (pystr * pystr) :=
  match suffixes with
  | [] => None
  | suffix :: rest =>
      if endswith suffix key then
        let prefix := slice_to (- Z.of_nat (length suffix)) key in
        if nonempty prefix
           && negb (mem_str prefix [lit "UPLOAD"; lit "XTC"; lit "EPAPER"; lit "CONNECTION"])
        then Some (prefix, dict_get_or prefix (display_of prefix) KNOWN_SCRAPER_PREFIXES)
        else suffix_loop key rest
      else suffix_loop key rest
  end.

(** Lines 62-110: [None] stands for the pair [(None, None)]. *)
Definition detect_scraper_prefix (key : pystr) : option (pystr * pystr) :=
  match dict_get key SCRAPER_SPECIAL_KEYS with
  | Some prefix => Some (prefix, dict_get_or prefix prefix KNOWN_SCRAPER_PREFIXES)
  | None =>
      match find (fun item =>
                    startswith (fst item ++ lit "_") key
                    || startswith (lit "NUM_" ++ fst item ++ lit "_") key)
                 KNOWN_SCRAPER_PREFIXES with
      | Some (prefix, display_name) => Some (prefix, display_name)
      | None =>
          if endswith (lit "_SUBDIR") key
             && negb (mem_str key [lit "HCR_SUBDIR"; lit "HACKERNEWS_SUBDIR"])
          then let prefix := slice_to (-7) key in Some (prefix, display_of prefix)
          else
            match num_pattern_group1 key with
            | Some prefix => Some (prefix, display_of prefix)
            | None => suffix_loop key scraper_suffixes
            end
      end
  end.

(** Lines 124-129: one round of the loop over the keys; the settings of a
    prefix are its display name and its keys. *)
Definition add_scraper_key (scraper_settings : dict (pystr * list pystr))
    (key : pystr) : dict (pystr * list pystr) :=
  match detect_scraper_prefix key with
  | Some (prefix, display_name) =>
      if nonempty prefix then
        match dict_get prefix scraper_settings with
        | None => dict_set prefix (display_name, [key]) scraper_settings
        | Some (name, keys) => dict_set prefix (name, keys ++ [key]) scraper_settings
        end
      else scraper_settings
  | None => scraper_settings
  end.

(** Lines 113-139. *)
Definition get_scraper_categories (config : dict pyval) : dict (list pystr) :=
  let scraper_settings := fold_left add_scraper_key (dict_keys config) [] in
  fold_left
    (fun categories prefix =>
       match dict_get prefix scraper_settings with
       | Some (display_name, keys) =>
           dict_set (display_name ++ lit " Scraper") (sorted keys) categories
       | None => categories
       end)
    (sorted (dict_keys scraper_settings)) [].

(** Lines 142-158, for a given [config]. *)
Definition get_all_config_categories (config : dict pyval)
    : dict (list pystr) * dict (list pystr) :=
  (CORE_CONFIG_CATEGORIES, get_scraper_categories config).

(** [f"{value}"]: [None] stands for the [ValueError] of an integer with
    more digits than [str] allows. *)
Definition py_format (v : pyval) : option pystr :=
  match v with
  | VInt n => py_str n
  | VBool true => Some (lit "True")
  | VBool false => Some (lit "False")
  | VFloat t => Some (float_str t)
  | VStr s => Some s
  end.

(** Lines 349-353. *)
Definition config_header : pystr :=
  lit "# application.config" ++ nl
  ++ lit "# Application configuration settings" ++ nl
  ++ lit "# All numeric values are in their respective units (seconds, counts, etc.)"
  ++ nl ++ nl.

(** The state of the writing: the text written so far and [written_keys]. *)
Definition wstate : Type := pystr * list pystr.

(** The writing goes on, or an exception has ended it: the file is closed
    as the [with] block is left and holds the text written before. *)
Inductive writing : Type :=
| Writing (st : wstate)
| Stopped (text : pystr).

(** [f.write(text)] *)
Definition f_write (text : pystr) (w : writing) : writing :=
  match w with
  | Writing st => Writing (fst st ++ text, snd st)
  | Stopped t => Stopped t
  end.

(** Lines 359-362 and 369-372: one key of a category.  The f-string is
    built before [f.write] is called, so a value that cannot be formatted
    leaves nothing of its line. *)
Definition write_key (config_values : dict pyval) (w : writing) (key : pystr)
    : writing :=
  match w with
  | Stopped t => Stopped t
  | Writing st =>
      match dict_get key config_values with
      | Some value =>
          match py_format value with
          | Some text =>
              Writing (fst st ++ key ++ lit "=" ++ text ++ nl, key :: snd st)
          | None => Stopped (fst st)
          end
      | None => Writing st
      end
  end.

(** Lines 358-362 and 368-372: the keys of one category. *)
Definition write_keys (config_values : dict pyval) (keys : list pystr)
    (w : writing) : writing :=
  fold_left (write_key config_values) keys w.

(** Lines 356-363 and 366-373: the categories, each under its comment line and
    followed by an empty line. *)
Definition write_categories (config_values : dict pyval)
    (categories : dict (list pystr)) (w : writing) : writing :=
  fold_left
    (fun (w : writing) item =>
       f_write nl
         (write_keys config_values (snd item)
            (f_write (lit "# " ++ fst item ++ nl) w)))
    categories w.

(** Lines 379-381: one of the other settings.  A key of [uncategorized] is a
    key of [config_values], so the lookup succeeds. *)
Definition write_other (config_values : dict pyval) (w : writing) (key : pystr)
    : writing :=
  match w with
  | Stopped t => Stopped t
  | Writing st =>
      match dict_get key config_values with
      | Some value =>
          match py_format value with
          | Some text => Writing (fst st ++ key ++ lit "=" ++ text ++ nl, snd st)
          | None => Stopped (fst st)
          end
      | None => Writing st
      end
  end.

(** Lines 376-382: the settings no category has written, sorted. *)
Definition write_uncategorized (config_values : dict pyval) (w : writing)
    : writing :=
  match w with
  | Stopped t => Stopped t
  | Writing st =>
      let uncategorized :=
        List.filter (fun k => negb (mem_str k (snd st))) (dict_keys config_values) in
      match uncategorized with
      | [] => Writing st
      | _ =>
          f_write nl
            (fold_left (write_other config_values) (sorted uncategorized)
               (f_write (lit "# Other Settings" ++ nl) (Writing st)))
      end
  end.

(** Lines 343-382: the writing of [application.config]. *)
Definition config_text (config_values : dict pyval) : writing :=
  let '(core_categories, scraper_categories) :=
    get_all_config_categories config_values in
  let w := write_categories config_values core_categories
             (Writing (config_header, [])) in
  let w := write_categories config_values scraper_categories w in
  write_uncategorized config_values w.


End Builtins.


End UiHelpers.

(** ** The format of application.config

    The text [save_application_config] writes, seen as a list of lines, and
    the dictionaries that survive being written and read back. *)

Module ConfigText.
Import PyStr PyDict ConfigReader Common UiHelpers.

(** A text iterated as a file stays one line when it holds no LF and no CR. *)
Definition is_linebreak (c : ascii) : bool :=
  eqb_char c "010" || eqb_char c "013".

Definition no_linebreak (s : pystr) : bool :=
  forallb (fun c => negb (is_linebreak c)) s.

(** [s.strip() == s] *)
Definition is_stripped (s : pystr) : bool := eqb_str (strip s) s.

(** A key that is read back as it was written: not empty, no [=], no
    [#] in front, no white space at either end and no line end inside. *)
Definition key_ok (k : pystr) : bool :=
  nonempty k && negb (contains_char "=" k) && negb (startswith (lit "#") k)
  && is_stripped k && no_linebreak k.



(** A value the f-string formats: every value but an integer with more
    digits than [str] allows. *)
Definition formats (v : pyval) : bool :=
  match v with
  | VInt n => int_str_ok n
  | _ => true
  end.






(** A line of the written file. *)
Inductive cline : Type :=
| CComment (text : pystr)
| CBlank
| CAssign (key : pystr) (value : pyval).

(** A line the writer can write: its value, if it has one, is formatted. *)
Definition line_formats (l : cline) : bool :=
  match l with
  | CAssign _ value => formats value
  | _ => true
  end.

(** The lines written before the first that cannot be written. *)
Fixpoint written_prefix (ls : list cline) : list cline :=
  match ls with
  | [] => []
  | l :: rest => if line_formats l then l :: written_prefix rest else []
  end.

Section Lines.
Variable title : pystr -> pystr.
Variable float_str : pystr -> pystr.

(** The text of a value that is formatted. *)
Definition value_text (v : pyval) : pystr :=
  match v with
  | VInt n => str_of_int n
  | VBool true => lit "True"
  | VBool false => lit "False"
  | VFloat t => float_str t
  | VStr s => s
  end.

Definition render_line (l : cline) : pystr :=
  match l with
  | CComment text => lit "# " ++ text
  | CBlank => []
  | CAssign key value => key ++ lit "=" ++ value_text value
  end.

Definition render (ls : list cline) : pystr :=
  flat_map (fun l => render_line l ++ nl) ls.

(** Writing the lines [ls] after [text]: all of them, or those before the
    first that cannot be written. *)
Definition write_lines (ls : list cline) (text : pystr) (written : list pystr)
    : writing :=
  if forallb line_formats ls then Writing (text ++ render ls, written)
  else Stopped (text ++ render (written_prefix ls)).

(** The lines of the keys of one category, and of a list of categories. *)
Definition keys_lines (config_values : dict pyval) (keys : list pystr) : list cline :=
  flat_map (fun key => match dict_get key config_values with
                       | Some value => [CAssign key value]
                       | None => []
                       end) keys.

Definition categories_lines (config_values : dict pyval)
    (categories : dict (list pystr)) : list cline :=
  flat_map (fun item => CComment (fst item)
                        :: keys_lines config_values (snd item) ++ [CBlank])
           categories.

Definition present_keys (config_values : dict pyval) (keys : list pystr) : list pystr :=
  List.filter (fun key => dict_mem key config_values) keys.

(** The keys the categories have written. *)
Definition categories_written (config_values : dict pyval)
    (categories : dict (list pystr)) : list pystr :=
  flat_map (fun item => present_keys config_values (snd item)) categories.

Definition uncategorized_lines (config_values : dict pyval)
    (written : list pystr) : list cline :=
  match List.filter (fun k => negb (mem_str k written)) (dict_keys config_values) with
  | [] => []
  | u =>
      CComment (lit "Other Settings")
      :: keys_lines config_values (sorted u) ++ [CBlank]
  end.

Definition header_lines : list cline :=
  [ CComment (lit "application.config");
    CComment (lit "Application configuration settings");
    CComment (lit "All numeric values are in their respective units (seconds, counts, etc.)");
    CBlank ].

(** The lines of [config_text]. *)
Definition config_lines (config_values : dict pyval) : list cline :=
  let core := CORE_CONFIG_CATEGORIES in
  let scraper := get_scraper_categories title config_values in
  header_lines
  ++ categories_lines config_values core
  ++ categories_lines config_values scraper
  ++ uncategorized_lines config_values
       (categories_written config_values core
        ++ categories_written config_values scraper).

End Lines.




End ConfigText.

(** ** bin/scrapers/scrape_hn_to_epub.py: file names *)

Module ScrapeHn.
Import PyStr.

(** Lines 142-153.  The characters 092 and 034 are the backslash and the
    double quote. *)
Definition sanitize_filename (title : pystr) (max_length : Z) : pystr :=
  let safe_title := replace_char "/" (lit "-") title in
  let safe_title := replace_char "092" (lit "-") safe_title in
  let safe_title := replace_char ":" (lit "-") safe_title in
  let safe_title := replace_char "?" [] safe_title in
  let safe_title := replace_char "*" [] safe_title in
  let safe_title := replace_char "034" [] safe_title in
  let safe_title := replace_char "<" [] safe_title in
  let safe_title := replace_char ">" [] safe_title in
  let safe_title := replace_char "|" [] safe_title in
  if Z.of_nat (length safe_title) >? max_length
  then rstrip (slice_to max_length safe_title)
  else safe_title.

(** The characters a file name must not hold. *)
Definition unsafe_chars : list ascii :=
  ["/"; "092"; ":"; "?"; "*"; "034"; "<"; ">"; "|"]%char.

Definition is_safe (s : pystr) : Prop :=
  forall c, In c unsafe_chars -> ~ In c s.

End ScrapeHn.

(** ** bin/scrapers/scrape_hcr_to_epub.py: date titles *)

Module ScrapeHcr.
Import PyStr Re Common.

Definition month_names : list pystr :=
  [lit "January"; lit "February"; lit "March"; lit "April"; lit "May";
   lit "June"; lit "July"; lit "August"; lit "September"; lit "October";
   lit "November"; lit "December"].

(** Line 26: [^(January|...|December)\s+\d{1,2},\s+\d{4}$].  The pattern is
    matched at the start of the title, where [^] holds. *)
Definition date_pattern : regex :=
  Seq (alt_of (map Lit month_names))
    (Seq (PlusOf isspace_char)
      (Seq (Between isdecimal_char 1 2)
        (Seq (Lit (lit ","))
          (Seq (PlusOf isspace_char)
            (Seq (Exactly isdecimal_char 4) Eol))))).

(** Lines 23-27. *)
Definition is_date_title (title : pystr) : bool := re_match date_pattern title.

(** A month name, white space, one or two digits, a comma, white space, four
    digits. *)
Definition date_form (s : pystr) : Prop :=
  exists month ws1 day ws2 year,
    s = month ++ ws1 ++ day ++ lit "," ++ ws2 ++ year
    /\ In month month_names
    /\ ws1 <> [] /\ forallb isspace_char ws1 = true
    /\ (1 <= length day <= 2)%nat /\ forallb isdecimal_char day = true
    /\ ws2 <> [] /\ forallb isspace_char ws2 = true
    /\ length year = 4%nat /\ forallb isdecimal_char year = true.

(** The form as the claim writes it, with one blank after the month and one
    after the comma: [<month> <day>, <year>]. *)
Definition claimed_date_form (s : pystr) : bool :=
  existsb
    (fun month =>
       existsb
         (fun n =>
            let head := month ++ lit " " in
            let day := firstn n (skipn (length head) s) in
            let rest := skipn (length head + n) s in
            let year := skipn 2 rest in
            startswith head s
            && (length day =? n)%nat && forallb isdecimal_char day
            && startswith (lit ", ") rest
            && (length year =? 4)%nat && forallb isdecimal_char year)
         [1%nat; 2%nat])
    month_names.

End ScrapeHcr.

(** ** bin/converters/convert_epub_to_xtc.py: waiting for the download *)

Module Converter.
Import PyStr.

(** The names in the download directory, as the system lists them. *)
Definition directory : Type := list pystr.

(** [Path(download_dir).glob("*" + ext)]: the names that end in [ext]. *)
Definition glob_suffix (ext : pystr) (d : directory) : list pystr :=
  List.filter (endswith ext) d.

(** Line 96. *)
Definition crdownload_files (d : directory) : list pystr :=
  glob_suffix (lit ".crdownload") d.

(** Lines 100-105. *)
Definition output_files (d : directory) : list pystr :=
  glob_suffix (lit ".xtc") d ++ glob_suffix (lit ".xtg") d
  ++ glob_suffix (lit ".xth") d ++ glob_suffix (lit ".xtch") d.

(** Lines 96-107: what one round of the loop returns, if it returns. *)
Definition poll (d : directory) : option pystr :=
  match crdownload_files d with
  | [] => match output_files d with
          | f :: _ => Some f
          | [] => None
          end
  | _ :: _ => None
  end.

(** The timeout.  The call site (line 350) passes the value the config
    reader gives for XTC_CONVERSION_TIMEOUT, or 300: an [int] for a text of
    digits, a [float] for a text such as 2.5, 1e3, inf or nan.  A finite
    float is [mantissa * 2 ^ exponent]; a [bool] counts as the integer 0
    or 1.  A value of another type makes the comparison of line 94 raise
    [TypeError], and is no timeout. *)
Inductive timeout_value : Type :=
| TInt (n : Z)
| TFloat (mantissa exponent : Z)
| TInf
| TNegInf
| TNan.

(** Line 94: [seconds < timeout] for the integer [seconds].  Python compares
    an integer and a float by their exact values; nothing is below [nan]. *)
Definition lt_timeout (seconds : Z) (timeout : timeout_value) : bool :=
  match timeout with
  | TInt n => seconds <? n
  | TFloat m e =>
      if 0 <=? e then seconds <? m * 2 ^ e else seconds * 2 ^ (- e) <? m
  | TInf => true
  | TNegInf => false
  | TNan => false
  end.

(** The loop of lines 93-111 as a machine: [seconds] is the variable of the
    source, [polls] counts the rounds done, and round [i] sees the directory
    [dirs i]. *)
Inductive wait_state : Type :=
| Waiting (seconds : Z) (polls : nat)
| Returned (result : option pystr) (polls : nat).

Definition wait_step (dirs : nat -> directory) (timeout : timeout_value)
    (st : wait_state) : wait_state :=
  match st with
  | Waiting seconds polls =>
      if lt_timeout seconds timeout then
        match poll (dirs polls) with
        | Some f => Returned (Some f) (S polls)
        | None => Waiting (seconds + 1) (S polls)
        end
      else Returned None polls
  | Returned result polls => Returned result polls
  end.

Fixpoint wait_run (fuel : nat) (dirs : nat -> directory) (timeout : timeout_value)
    (st : wait_state) : wait_state :=
  match fuel with
  | O => st
  | S fuel' => wait_run fuel' dirs timeout (wait_step dirs timeout st)
  end.

(** Lines 91-111 run for [fuel] steps: the value returned and the number of
    rounds, or [None] when the loop is still running. *)
Definition wait_for_download_in (fuel : nat) (dirs : nat -> directory)
    (timeout : timeout_value) : option (option pystr * nat) :=
  match wait_run fuel dirs timeout (Waiting 0 0) with
  | Returned result polls => Some (result, polls)
  | Waiting _ _ => None
  end.

(** The rounds a timeout allows, the number of naturals below it: [t] for an
    integer [t] that is not negative, [t] rounded up for a finite float,
    none for [-inf] and [nan].  [None]: under [inf] every round is allowed. *)
Definition rounds_allowed (timeout : timeout_value) : option nat :=
  match timeout with
  | TInt n => Some (Z.to_nat n)
  | TFloat m e =>
      Some (Z.to_nat (if 0 <=? e then m * 2 ^ e else - ((- m) / 2 ^ (- e))))
  | TInf => None
  | TNegInf => Some O
  | TNan => Some O
  end.

(** [k] rounds from round [p] on: the value returned and the rounds done. *)
Fixpoint rounds (dirs : nat -> directory) (p k : nat) : option pystr * nat :=
  match k with
  | O => (None, p)
  | S k' =>
      match poll (dirs p) with
      | Some f => (Some f, S p)
      | None => rounds dirs (S p) k'
      end
  end.

End Converter.

(** ** bin/upload_to_epaper.py *)

Module Uploader.
Import PyStr.

(** The local files: the content of each, by path. *)
Abbreviation filesystem := (gmap pystr pystr).

(** What [requests.post] does: a response with its status code, or one of the
    two kinds of exception [upload_file] catches. *)
Inductive post_outcome : Type :=
| Response (status_code : Z)
| RequestException
| OtherException.

(** Lines 77-125: [open] raises when the file is missing, which the last
    handler catches; otherwise the outcome of the request decides. *)
Definition upload_file (fs : filesystem) (outcome : post_outcome)
    (file_path : pystr) : bool :=
  match fs !! file_path with
  | None => false
  | Some _ =>
      match outcome with
      | Response status_code => status_code =? 200
      | RequestException => false
      | OtherException => false
      end
  end.

(** Lines 150-155: [--keep-files] is looked for in the arguments, and its
    first occurrence removed. *)
Fixpoint remove_first (x : pystr) (l : list pystr) : list pystr :=
  match l with
  | [] => []
  | y :: l' => if eqb_str y x then l' else y :: remove_first x l'
  end.

Definition parse_args (argv : list pystr) : bool * list pystr :=
  if existsb (eqb_str (lit "--keep-files")) argv
  then (true, remove_first (lit "--keep-files") argv)
  else (false, argv).

(** [bool(l)] for a list. *)
Definition nonempty_list {A : Type} (l : list A) : bool :=
  match l with [] => false | _ => true end.

(** The counters of lines 218-220 and the list of line 250. *)
Record upload_state : Type := {
  success_count : nat;
  fail_count : nat;
  uploaded_files : list (pystr * pystr)
}.

(** What [main] leaves: the files, the counters of the summary, and whether
    [main] returned ([completed]) or was ended by an exception, in which case
    no summary is printed and the counters are those reached. *)
Record main_result : Type := {
  files_after : filesystem;
  uploaded : nat;
  failed : nat;
  deleted : nat;
  completed : bool
}.

Section World.

(** The outcome of the request of the [i]-th upload (from 0), whether the
    system lets a path be removed, the files to upload for given arguments
    (lines 157-180, which walk the texts directory), and the relative path of
    a file (lines 189-192). *)
Variable net : nat -> post_outcome.
Variable can_remove : pystr -> bool.
Variable files_for : list pystr -> list pystr.
Variable rel_path_of : pystr -> pystr.

(** Whether [time.sleep(config["UPLOAD_DELAY_SECONDS"])] of line 265
    returns.  It raises when the config has no such key ([KeyError]), when
    the value is no number ([TypeError]), when it is below zero or [nan]
    ([ValueError]) and when it is too large ([OverflowError]); nothing in
    [main] catches these. *)
Variable sleep_returns : bool.

(** Lines 253-265: the loop over [file_info], from upload number [i]; the
    boolean tells whether the loop came to its end.  The delay is made after
    every upload but the last (line 264); when it raises, the loop and [main]
    end there. *)
Fixpoint upload_loop (fs : filesystem) (i : nat)
    (file_info : list (pystr * pystr)) (st : upload_state)
    : upload_state * bool :=
  match file_info with
  | [] => (st, true)
  | (file_path, rel_path) :: rest =>
      let st' :=
        if upload_file fs (net i) file_path
        then {| success_count := S (success_count st);
                fail_count := fail_count st;
                uploaded_files := uploaded_files st ++ [(file_path, rel_path)] |}
        else {| success_count := success_count st;
                fail_count := S (fail_count st);
                uploaded_files := uploaded_files st |} in
      if nonempty_list rest && negb sleep_returns then (st', false)
      else upload_loop fs (S i) rest st'
  end.

(** [os.remove]: [None] stands for the exception line 282 catches. *)
Definition os_remove (fs : filesystem) (path : pystr) : option filesystem :=
  match fs !! path with
  | Some _ => if can_remove path then Some (delete path fs) else None
  | None => None
  end.

(** Lines 277-283. *)
Fixpoint cleanup_loop (fs : filesystem) (files : list (pystr * pystr))
    (deleted_count : nat) : filesystem * nat :=
  match files with
  | [] => (fs, deleted_count)
  | (file_path, _) :: rest =>
      match os_remove fs file_path with
      | Some fs' => cleanup_loop fs' rest (S deleted_count)
      | None => cleanup_loop fs rest deleted_count
      end
  end.

(** Lines 128-294, printing and the creation of folders on the device left
    out: neither touches the local files.  The config is taken to hold the
    keys read before the first upload (TEXTS_DIR, EPAPER_DEVICE_IP,
    EPAPER_UPLOAD_ENDPOINT, UPLOAD_TIMEOUT).  When the delay between two
    uploads raises, [main] ends before the cleaning of lines 270-283: the
    local files stay as they were. *)
Definition main (fs : filesystem) (texts_dir_exists : bool) (argv : list pystr)
    : main_result :=
  let unchanged := {| files_after := fs; uploaded := 0; failed := 0; deleted := 0;
                      completed := true |} in
  if negb texts_dir_exists then unchanged
  else
    let '(keep_files, args) := parse_args argv in
    match files_for args with
    | [] => unchanged
    | ebook_files =>
        let file_info := map (fun p => (p, rel_path_of p)) ebook_files in
        let '(st, loop_ended) :=
          upload_loop fs 0 file_info
            {| success_count := 0; fail_count := 0; uploaded_files := [] |} in
        if negb loop_ended
        then {| files_after := fs; uploaded := success_count st;
                failed := fail_count st; deleted := 0; completed := false |}
        else
          let '(fs', deleted_count) :=
            if negb keep_files && nonempty_list (uploaded_files st)
            then cleanup_loop fs (uploaded_files st) 0
            else (fs, 0%nat) in
          {| files_after := fs'; uploaded := success_count st;
             failed := fail_count st; deleted := deleted_count;
             completed := true |}
    end.

End World.

End Uploader.

(** ** The parsed page (BeautifulSoup)

    A page is a tree of tags and strings.  The attributes of a tag are a
    dictionary; the value of [class] is the list of its names.  Comments and
    the text of script and style tags, which [get_text] skips, are not part of
    the tree. *)

Module Dom.
Import PyStr PyDict.

Inductive attr_value : Type :=
| AttrStr (s : pystr)
| AttrList (l : list pystr).

Inductive node : Type :=
| Text (s : pystr)
| Elem (name : pystr) (attrs : dict attr_value) (contents : list node).

Fixpoint eqb_strs (a b : list pystr) : bool :=
  match a, b with
  | [], [] => true
  | x :: a', y :: b' => eqb_str x y && eqb_strs a' b'
  | _, _ => false
  end.

Definition attr_value_eqb (a b : attr_value) : bool :=
  match a, b with
  | AttrStr s, AttrStr t => eqb_str s t
  | AttrList l, AttrList m => eqb_strs l m
  | _, _ => false
  end.

Definition attr_opt_eqb (a b : option attr_value) : bool :=
  match a, b with
  | Some x, Some y => attr_value_eqb x y
  | None, None => true
  | _, _ => false
  end.

(** [a == b] for two attribute dictionaries: the same keys with equal
    values. *)
Definition attrs_eqb (a b : dict attr_value) : bool :=
  forallb (fun k => attr_opt_eqb (dict_get k a) (dict_get k b))
          (dict_keys a ++ dict_keys b).

(** [a == b] for two elements of the tree: bs4 compares tags by name,
    attributes and contents, strings by their text. *)
Fixpoint node_eqb (a b : node) : bool :=
  match a, b with
  | Text s, Text t => eqb_str s t
  | Elem n1 a1 c1, Elem n2 a2 c2 =>
      eqb_str n1 n2 && attrs_eqb a1 a2
      && (fix all_eqb (l1 l2 : list node) : bool :=
            match l1, l2 with
            | [], [] => true
            | x :: l1', y :: l2' => node_eqb x y && all_eqb l1' l2'
            | _, _ => false
            end) c1 c2
  | _, _ => false
  end.

(** The number of tags and strings of a tree. *)
Fixpoint node_size (n : node) : nat :=
  match n with
  | Text _ => 1
  | Elem _ _ contents => S (list_sum (map node_size contents))
  end.

(** [n.descendants]: what is below [n], in document order. *)
Fixpoint descendants (n : node) : list node :=
  match n with
  | Text _ => []
  | Elem _ _ contents => flat_map (fun c => c :: descendants c) contents
  end.

(** The first element of a list that satisfies a test. *)
Definition first_that (test : node -> bool) (l : list node) : option node :=
  List.find test l.

Definition is_tag (name : pystr) (n : node) : bool :=
  match n with
  | Elem name' _ _ => eqb_str name' name
  | Text _ => false
  end.

(** [needle in text] *)
Fixpoint contains_text (needle text : pystr) : bool :=
  startswith needle text
  || match text with
     | [] => false
     | _ :: text' => contains_text needle text'
     end.

(** [" ".join(names)] *)
Fixpoint join_blank (names : list pystr) : pystr :=
  match names with
  | [] => []
  | [x] => x
  | x :: rest => x ++ lit " " ++ join_blank rest
  end.

(** The test bs4 makes for [class_=pattern]: a name of the class matches,
    or the names joined by blanks do; a tag without class does not match. *)
Definition class_matches (matches : pystr -> bool) (n : node) : bool :=
  match n with
  | Elem _ attrs _ =>
      match dict_get (lit "class") attrs with
      | Some (AttrList names) => existsb matches names || matches (join_blank names)
      | Some (AttrStr s) => matches s
      | None => false
      end
  | Text _ => false
  end.

(** [soup.find(name)], [soup.find(class_=pattern)],
    [soup.find(name, class_=pattern)] *)
Definition find_tag (name : pystr) (soup : node) : option node :=
  first_that (is_tag name) (descendants soup).

Definition find_class (matches : pystr -> bool) (soup : node) : option node :=
  first_that (class_matches matches) (descendants soup).

Definition find_tag_class (name : pystr) (matches : pystr -> bool) (soup : node)
    : option node :=
  first_that (fun n => is_tag name n && class_matches matches n) (descendants soup).

(** The strings below a node, in document order. *)
Fixpoint strings (n : node) : list pystr :=
  match n with
  | Text s => [s]
  | Elem _ _ contents => flat_map strings contents
  end.

(** [n.get_text(strip=True)]: the strings stripped, the empty ones dropped,
    the rest joined with nothing between them. *)
Definition get_text_strip (n : node) : pystr :=
  concat (List.filter nonempty (map strip (strings n))).

(** [text.split()]: the runs of characters that are no white space;
    [cur] is the run being read. *)
Fixpoint split_from (cur : pystr) (text : pystr) : list pystr :=
  match text with
  | [] => match cur with [] => [] | _ => [cur] end
  | c :: text' =>
      if isspace_char c then
        match cur with
        | [] => split_from [] text'
        | _ => cur :: split_from [] text'
        end
      else split_from (cur ++ [c]) text'
  end.

Definition py_split (text : pystr) : list pystr := split_from [] text.

(** The number of words of a text: the places where a character that is no
    white space starts the text or follows white space. *)
Fixpoint count_words_from (in_word : bool) (text : pystr) : nat :=
  match text with
  | [] => 0
  | c :: text' =>
      if isspace_char c then count_words_from false text'
      else (if in_word then 0 else 1) + count_words_from true text'
  end.

Definition count_words (text : pystr) : nat := count_words_from false text.

End Dom.

(** ** bin/scrapers/scrape_hcr_to_epub.py: full letters *)

Module FullLetter.
Import PyStr PyDict Dom.

(** What lines 119-121 give: an exception ([requests.get] or
    [raise_for_status] raises), or the parsed page. *)
Inductive fetched : Type :=
| FetchFailed
| Page (soup : node).

(** [re.compile(r"podcast", re.I)], [re.compile(r"video", re.I)]: the
    pattern is found somewhere in the text, in any case. *)
Definition search_ci (pattern : pystr) (text : pystr) : bool :=
  contains_text pattern (lower text).

(** [re.compile(r"(body|post-content|available-content)")] *)
Definition search_content_class (text : pystr) : bool :=
  contains_text (lit "body") text
  || contains_text (lit "post-content") text
  || contains_text (lit "available-content") text.

Definition found (o : option node) : bool :=
  match o with Some _ => true | None => false end.

(** Lines 124 and 128. *)
Definition has_podcast (soup : node) : bool :=
  found (find_tag (lit "audio") soup)
  || found (find_class (search_ci (lit "podcast")) soup).

Definition has_video (soup : node) : bool :=
  found (find_tag (lit "video") soup)
  || found (find_class (search_ci (lit "video")) soup).

(** Lines 132-134. *)
Definition find_content (soup : node) : option node :=
  match find_tag_class (lit "div") search_content_class soup with
  | Some content_div => Some content_div
  | None => find_tag (lit "article") soup
  end.

(** Lines 140-141. *)
Definition word_count (content_div : node) : nat :=
  length (py_split (get_text_strip content_div)).

(** Lines 116-148: an exception anywhere gives False. *)
Definition is_full_letter (page : fetched) (min_word_count : Z) : bool :=
  match page with
  | FetchFailed => false
  | Page soup =>
      if has_podcast soup then false
      else if has_video soup then false
      else
        match find_content soup with
        | None => false
        | Some content_div => Z.of_nat (word_count content_div) >? min_word_count
        end
  end.

End FullLetter.

(** ** bin/scrapers/scrape_hn_to_epub.py: the elements of an article *)

Module ArticleContent.
Import PyStr PyDict Dom.

(** Lines 98-100. *)
Definition content_tags : list pystr :=
  [lit "p"; lit "h1"; lit "h2"; lit "h3"; lit "h4"; lit "h5"; lit "h6";
   lit "li"; lit "blockquote"].

(** A tag as the program holds it.  [place] is where the tag is in the tree
    (the index of the child to take at each level, from the content element
    down), [markup] is the tag.  Two tags are the same object when their
    places are equal; [==] compares their markup. *)
Record element : Type := { place : list nat; markup : node }.

Definition named_in (names : list pystr) (n : node) : bool :=
  match n with
  | Elem name _ _ => existsb (eqb_str name) names
  | Text _ => false
  end.

Definition below (i : nat) (e : element) : element :=
  {| place := i :: place e; markup := markup e |}.

(** The matches among the children [cs], the first of which is child
    number [i]: each child that has one of the names, then the matches below
    it, given by [find]. *)
Definition find_children (names : list pystr) (find : node -> list element)
    : list node -> nat -> list element :=
  fix children (cs : list node) (i : nat) : list element :=
    match cs with
    | [] => []
    | c :: cs' =>
        (if named_in names c then [{| place := [i]; markup := c |}] else [])
        ++ map (below i) (find c)
        ++ children cs' (S i)
    end.

(** [content.find_all(names)]: the tags below [content] with one of the
    names, in document order. *)
Fixpoint find_all (names : list pystr) (content : node) : list element :=
  match content with
  | Text _ => []
  | Elem _ _ contents => find_children names (find_all names) contents 0%nat
  end.

(** The node a place leads to. *)
Fixpoint subtree (n : node) (p : list nat) : option node :=
  match p with
  | [] => Some n
  | i :: p' =>
      match n with
      | Text _ => None
      | Elem _ _ contents =>
          match nth_error contents i with
          | Some c => subtree c p'
          | None => None
          end
      end
  end.

(** Lines 108-111: [other != element and element in other.descendants] for
    some [other] of the list.  Both tests compare markup. *)
Definition is_nested (all_elements : list element) (element : element) : bool :=
  existsb
    (fun other =>
       negb (node_eqb (markup other) (markup element))
       && existsb (node_eqb (markup element)) (descendants (markup other)))
    all_elements.

(** Lines 104-113. *)
Definition top_level_elements (all_elements : list element) : list element :=
  List.filter (fun element => negb (is_nested all_elements element)) all_elements.

(** [p] leads to a tag above the tag [q] leads to. *)
Definition is_above (p q : list nat) : bool :=
  (length p <? length q)%nat
  && forallb (fun ij => Nat.eqb (fst ij) (snd ij)) (combine p q).

(** The filter as the claim words it: the elements that are not a
    descendant of another element of the list. *)
Definition is_descendant_of_other (all_elements : list element)
    (element : element) : bool :=
  existsb (fun other => is_above (place other) (place element)) all_elements.

Definition not_nested_elements (all_elements : list element) : list element :=
  List.filter (fun element => negb (is_descendant_of_other all_elements element))
              all_elements.

(** [<div><p>Hi</p><blockquote><p>Hi</p></blockquote></div>] *)
Definition quoted_twice : node :=
  Elem (lit "div") []
    [Elem (lit "p") [] [Text (lit "Hi")];
     Elem (lit "blockquote") [] [Elem (lit "p") [] [Text (lit "Hi")]]].

End ArticleContent.

(** ** bin/config_reader.py: the characters of a config file *)

Module ConfigChars.
Import PyStr.

(** A text all of whose digits are decimal: none of the superscript digits
    that [isdigit] accepts and [int] rejects. *)
Definition digits_decimal (s : pystr) : bool :=
  forallb (fun c => negb (isdigit_char c) || isdecimal_char c) s.

(** A text of white space only. *)
Definition blank (s : pystr) : bool := forallb isspace_char s.

End ConfigChars.

(** ** bin/utils/ui_helpers.py: secrets.config *)

Module SecretsConfig.
Import PyStr PyDict ConfigReader Common UiHelpers.




Section Builtins.
Variable float_str : pystr -> pystr.




End Builtins.


End SecretsConfig.

(** ** bin/utils/ui_helpers.py: the keys of the written file *)

Module ConfigKeys.
Import PyStr PyDict ConfigReader Common UiHelpers ConfigText.





Section Builtins.
Variable title : pystr -> pystr.



End Builtins.


End ConfigKeys.

(** ** bin/converters/convert_epub_to_xtc.py: the results of [main] *)

Module PyPath.
Import PyStr.

(** [os.path.basename] (POSIX): what follows the last [/]. *)
Definition basename (p : pystr) : pystr :=
  rev (fst (break_at "/" (rev p))).

End PyPath.

Module ConverterMain.
Import PyStr PyPath.

(** What [future.result()] does for one file: it gives the tuple
    [convert_epub_to_xtc] returned, or it raises. *)
Inductive conversion : Type :=
| Result (success : bool) (filename : pystr) (error_msg : option pystr)
| Exception.

(** The arguments of one call of [output_progress]. *)
Record progress : Type := {
  successful : nat;
  failures : nat;
  processed : nat;
  total : nat;
  current_item : pystr
}.

(** The counters of lines 478-482 and the progress lines sent so far. *)
Record counters : Type := {
  success_count : nat;
  fail_count : nat;
  skipped_count : nat;
  completed : nat;
  sent : list progress
}.

(** [error_msg == "already_converted"] *)
Definition already_converted (error_msg : option pystr) : bool :=
  match error_msg with
  | Some msg => eqb_str msg (lit "already_converted")
  | None => false
  end.

(** Lines 507-543: the body of the loop over the completed futures, for the
    future of [file_path]. *)
Definition record_result (total_files : nat) (st : counters)
    (done : pystr * conversion) : counters :=
  let '(file_path, result) := done in
  match result with
  | Result success filename error_msg =>
      let completed' := S (completed st) in
      let '(success', fail', skipped', status_msg) :=
        if success then
          if already_converted error_msg
          then (success_count st, fail_count st, S (skipped_count st),
                lit "Skipped: " ++ filename)
          else (S (success_count st), fail_count st, skipped_count st,
                lit "Completed: " ++ filename)
        else (success_count st, S (fail_count st), skipped_count st,
              lit "Failed: " ++ filename) in
      {| success_count := success'; fail_count := fail';
         skipped_count := skipped'; completed := completed';
         sent := sent st ++ [{| successful := success' + skipped';
                                failures := fail';
                                processed := completed';
                                total := total_files;
                                current_item := status_msg |}] |}
  | Exception =>
      let fail' := S (fail_count st) in
      let completed' := S (completed st) in
      {| success_count := success_count st; fail_count := fail';
         skipped_count := skipped_count st; completed := completed';
         sent := sent st ++ [{| successful := success_count st;
                                failures := fail';
                                processed := completed';
                                total := total_files;
                                current_item := lit "Error: " ++ basename file_path |}] |}
  end.

(** Lines 478-548: the counters start at zero, the first progress line is
    sent, the futures are taken as they complete, and the last progress line
    is sent. *)
Definition convert_all (completed_futures : list (pystr * conversion)) : counters :=
  let total_files := length completed_futures in
  let start :=
    {| success_count := 0; fail_count := 0; skipped_count := 0; completed := 0;
       sent := [{| successful := 0; failures := 0; processed := 0;
                   total := total_files;
                   current_item := lit "Starting EPUB to XTC conversion" |}] |} in
  let st := fold_left (record_result total_files) completed_futures start in
  {| success_count := success_count st; fail_count := fail_count st;
     skipped_count := skipped_count st; completed := completed st;
     sent := sent st ++ [{| successful := success_count st + skipped_count st;
                            failures := fail_count st;
                            processed := completed st;
                            total := total_files;
                            current_item := lit "Complete" |}] |}.

(** What the loop keeps true: the counters add up to the files done, and
    every progress line sent reports no more than that. *)
Definition counters_ok (total_files : nat) (st : counters) : Prop :=
  (success_count st + skipped_count st + fail_count st = completed st)%nat
  /\ Forall (fun p => (successful p + failures p <= processed p)%nat
                      /\ (processed p <= completed st)%nat
                      /\ total p = total_files) (sent st).

End ConverterMain.

(** ** bin/scrapers/scrape_hcr_to_epub.py: the recent posts *)

Module HcrPosts.
Import PyStr UiHelpers ScrapeHcr Dom FullLetter.

(** A link of the archive page, as the loop of lines 61-88 reads it: what
    [link.get("href")] and [link.get_text(strip=True)] return. *)
Record link : Type := { href : option pystr; link_text : pystr }.

(** The dictionary [{"url": url, "title": title}]. *)
Record post : Type := { url : pystr; title : pystr }.

Definition substack : pystr := lit "https://heathercoxrichardson.substack.com".

(** Lines 61-88: the loop over [post_links]; the [break] of line 88 ends
    it. *)
Fixpoint candidates_loop (max_candidates : Z) (post_links : list link)
    (seen_urls : list pystr) (candidates : list post) : list post :=
  match post_links with
  | [] => candidates
  | link :: rest =>
      match href link with
      | None => candidates_loop max_candidates rest seen_urls candidates
      | Some [] => candidates_loop max_candidates rest seen_urls candidates
      | Some url0 =>
          let url := if startswith (lit "/") url0 then substack ++ url0 else url0 in
          if mem_str url seen_urls
          then candidates_loop max_candidates rest seen_urls candidates
          else
            let seen_urls := url :: seen_urls in
            let title := link_text link in
            if negb (nonempty title)
            then candidates_loop max_candidates rest seen_urls candidates
            else if negb (is_date_title title)
            then candidates_loop max_candidates rest seen_urls candidates
            else
              let candidates := candidates ++ [{| url := url; title := title |}] in
              if Z.of_nat (length candidates) >=? max_candidates
              then candidates
              else candidates_loop max_candidates rest seen_urls candidates
      end
  end.

Section Web.

(** What requesting a page gives (lines 119-121 of [is_full_letter]). *)
Variable fetch : pystr -> fetched.

(** Lines 95-111: the loop over the candidates; the [break] of line 109 ends
    it. *)
Fixpoint posts_loop (num_posts min_word_count : Z) (candidates : list post)
    (seen_dates : list pystr) (posts : list post) : list post :=
  match candidates with
  | [] => posts
  | candidate :: rest =>
      if mem_str (title candidate) seen_dates
      then posts_loop num_posts min_word_count rest seen_dates posts
      else if is_full_letter (fetch (url candidate)) min_word_count
      then
        let posts := posts ++ [candidate] in
        let seen_dates := title candidate :: seen_dates in
        if Z.of_nat (length posts) >=? num_posts
        then posts
        else posts_loop num_posts min_word_count rest seen_dates posts
      else posts_loop num_posts min_word_count rest seen_dates posts
  end.

(** Lines 44-113, for the links [soup.find_all] found on the archive page;
    [None] stands for the exception of lines 48-49, when the archive cannot be
    fetched. *)
Definition get_recent_posts (num_posts : Z) (archive : option (list link))
    (min_word_count max_candidates : Z) : option (list post) :=
  match archive with
  | None => None
  | Some post_links =>
      let candidates := candidates_loop max_candidates post_links [] [] in
      Some (posts_loop num_posts min_word_count candidates [] [])
  end.

End Web.

(** What the first loop keeps true of the candidates. *)
Definition candidates_ok (links : list link) (seen_urls : list pystr)
    (candidates : list post) : Prop :=
  List.NoDup (map url candidates)
  /\ (forall c, In c candidates ->
        In (url c) seen_urls
        /\ is_date_title (title c) = true
        /\ exists l, In l links /\ link_text l = title c).

End HcrPosts.

(** ** bin/scrapers/scrape_hcr_to_epub.py: the counters of [main] *)

Module HcrMain.
Import PyStr HcrPosts.

(** The numbers of one call of [output_progress]: successful, failures,
    processed, total (the text of the call is left out). *)
Definition progress : Type := (nat * nat * nat * nat)%type.

(** The counters of lines 233-234 and the progress lines sent so far. *)
Record tally : Type := {
  successful : nat;
  failures : nat;
  sent : list progress
}.

Section Run.

(** What [get_post_content] returns for a URL, [None] when it raises (lines
    154-155), and whether the book of a post with its content can be
    written (lines 177-219). *)
Variable get_post_content : pystr -> option pystr.
Variable write_epub : post -> pystr -> bool.

(** Lines 264-271: the posts with the content fetched for them, if any; a
    failed fetch is counted. *)
Fixpoint fetch_contents (total : nat) (posts : list post) (i : nat) (st : tally)
    : list (post * option pystr) * tally :=
  match posts with
  | [] => ([], st)
  | post :: rest =>
      let st := {| successful := successful st; failures := failures st;
                   sent := sent st ++ [(successful st, failures st, i, total)] |} in
      let content := get_post_content (url post) in
      let st := match content with
                | Some _ => st
                | None => {| successful := successful st;
                             failures := S (failures st); sent := sent st |}
                end in
      let '(fetched, st) := fetch_contents total rest (S i) st in
      ((post, content) :: fetched, st)
  end.

(** Line 199 of [create_epub_for_post] reads the content of the post: when
    the fetch failed there is none and a [KeyError] is raised, which line 292
    catches like any failure to write. *)
Definition create_epub_for_post (item : post * option pystr) : bool :=
  match snd item with
  | Some content => write_epub (fst item) content
  | None => false
  end.

(** Lines 277-294. *)
Fixpoint create_epubs (total : nat) (fetched : list (post * option pystr))
    (st : tally) : tally :=
  match fetched with
  | [] => st
  | item :: rest =>
      let st := {| successful := successful st; failures := failures st;
                   sent := sent st ++ [(successful st, failures st,
                                        successful st + failures st, total)%nat] |} in
      let st := if create_epub_for_post item
                then {| successful := S (successful st); failures := failures st;
                        sent := sent st |}
                else {| successful := successful st; failures := S (failures st);
                        sent := sent st |} in
      create_epubs total rest st
  end.

(** Lines 233-297: the counters and the progress lines of [main], for the
    configured number of posts and the posts [get_recent_posts] returned. *)
Definition run (num_posts : nat) (posts : list post) : tally :=
  let start := [(0, 0, 0, num_posts)%nat] in
  match posts with
  | [] =>
      {| successful := 0; failures := 0;
         sent := start ++ [(0, num_posts, num_posts, num_posts)%nat] |}
  | _ =>
      let total := length posts in
      let '(fetched, st) :=
        fetch_contents total posts 0
          {| successful := 0; failures := 0; sent := start |} in
      let st := create_epubs total fetched st in
      {| successful := successful st; failures := failures st;
         sent := sent st ++ [(successful st, failures st,
                              successful st + failures st, total)%nat] |}
  end.

(** The posts whose content could not be fetched. *)
Definition fetch_failed (posts : list post) : list post :=
  List.filter (fun post => match get_post_content (url post) with
                           | Some _ => false
                           | None => true
                           end) posts.

End Run.

End HcrMain.

(** ** bin/scrapers/scrape_hn_to_epub.py: the top stories *)

Module HnStories.
Import PyStr.

(** The JSON object of an item, for the keys the source reads: each may be
    missing. *)
Record story_data : Type := {
  data_title : option pystr;
  data_url : option pystr;
  data_by : option pystr;
  data_score : option Z
}.

(** The dictionary of lines 43-51. *)
Record story : Type := {
  title : pystr;
  url : pystr;
  by_ : pystr;
  score : Z;
  id : Z
}.

(** [d.get(key, default)] *)
Definition get_or {A : Type} (o : option A) (default : A) : A :=
  match o with Some x => x | None => default end.

(** [l[:n]] for an integer [n]: a negative [n] counts from the end. *)
Definition list_slice_to {A : Type} (n : Z) (l : list A) : list A :=
  if n <? 0 then firstn (Z.to_nat (Z.of_nat (length l) + n)) l
  else firstn (Z.to_nat n) l.

Definition make_story (story_id : Z) (data : story_data) (u : pystr) : story :=
  {| title := get_or (data_title data) (lit "No title");
     url := u;
     by_ := get_or (data_by data) (lit "unknown");
     score := get_or (data_score data) 0;
     id := story_id |}.

Section Api.

(** The answer to the request for an item (lines 34-36); [None] when the
    request or [raise_for_status] raises. *)
Variable item : Z -> option story_data.

(** Lines 32-56: the loop over [story_ids]; [None] when a request raises. *)
Fixpoint stories_loop (num_stories : Z) (story_ids : list Z)
    (stories : list story) : option (list story) :=
  match story_ids with
  | [] => Some stories
  | story_id :: rest =>
      match item story_id with
      | None => None
      | Some story_data =>
          match data_url story_data with
          | None => stories_loop num_stories rest stories
          | Some u =>
              let stories := stories ++ [make_story story_id story_data u] in
              if Z.of_nat (length stories) >=? num_stories
              then Some stories
              else stories_loop num_stories rest stories
          end
      end
  end.

(** Lines 21-58, for the answer to the request for the top stories
    ([None] when it raises). *)
Definition get_top_stories (top : option (list Z)) (num_stories : Z)
    : option (list story) :=
  match top with
  | None => None
  | Some ids => stories_loop num_stories (list_slice_to num_stories ids) []
  end.

(** The story of an id, when its item has a URL. *)
Definition story_of (story_id : Z) : list story :=
  match item story_id with
  | Some story_data =>
      match data_url story_data with
      | Some u => [make_story story_id story_data u]
      | None => []
      end
  | None => []
  end.

End Api.

End HnStories.

(** ** bin/scrapers/scrape_hackaday_to_epub.py: the articles of the blog *)

Module Hackaday.
Import PyStr PyDict Re UiHelpers Dom PyPath.













Section Web.

(** What requesting a URL gives: the parsed page, or [None] for the
    exception of lines 35-40. *)
Variable fetch : pystr -> option node.




End Web.


End Hackaday.

(** ** bin/upload_to_epaper.py: the folders to create on the device *)

Module Folders.
Import PyStr UiHelpers PyPath.

(** [os.path.dirname] (POSIX): the text up to the last [/], without the
    slashes at its end unless it holds nothing else. *)
Definition dirname (p : pystr) : pystr :=
  match break_at "/" (rev p) with
  | (_, None) => []
  | (_, Some r) =>
      let head := rev ("/"%char :: r) in
      if forallb (eqb_char "/") head then head
      else rstrip_by (eqb_char "/") head
  end.

(** [s.split(c)] with no limit: a text has no more separators than
    characters. *)
Definition split_all (c : ascii) (s : pystr) : list pystr :=
  split_max c (length s) s.

(** [folders.add(x)] for a set kept as a list without repetition. *)
Definition set_add (x : pystr) (folders : list pystr) : list pystr :=
  if mem_str x folders then folders else folders ++ [x].

(** Lines 209-215: the loop over the parts of one directory path. *)
Fixpoint add_parts (parts : list pystr) (current_path : pystr)
    (folders : list pystr) : list pystr :=
  match parts with
  | [] => folders
  | part :: rest =>
      let current_path :=
        if nonempty current_path then current_path ++ lit "/" ++ part else part in
      add_parts rest current_path (set_add current_path folders)
  end.

(** Lines 202-215, with [/] for [os.sep] (POSIX). *)
Definition folders_to_create (file_info : list (pystr * pystr)) : list pystr :=
  fold_left
    (fun folders (item : pystr * pystr) =>
       let dir_path := dirname (snd item) in
       if nonempty dir_path
       then add_parts (split_all "/" dir_path) [] folders
       else folders)
    file_info [].

(** Line 230: the order in which the folders are created. *)
Definition creation_order (file_info : list (pystr * pystr)) : list pystr :=
  sorted (folders_to_create file_info).

(** A list in the order of [str]. *)
Fixpoint in_order (l : list pystr) : bool :=
  match l with
  | x :: ((y :: _) as l') => str_leb x y && in_order l'
  | _ => true
  end.

(** A set of folders that holds the parent of each of its folders. *)
Definition parents_in (folders : list pystr) : Prop :=
  forall g part,
    g <> [] -> contains_char "/" part = false ->
    In (g ++ lit "/" ++ part) folders -> In g folders.

End Folders.

(** ** bin/utils/ui_helpers.py: the scrapers of the repository *)

Module Scrapers.
Import PyStr UiHelpers.

(** [os.path.join(a, b)] (POSIX) for two components. *)
Definition path_join (a b : pystr) : pystr :=
  if startswith (lit "/") b then b
  else if negb (nonempty a) || endswith (lit "/") a then a ++ b
  else a ++ lit "/" ++ b.

(** Line 258: [file[7:-11]]. *)
Definition source_name_of (file : pystr) : pystr :=
  slice_from 7 (slice_to (-11) file).

(** A discovered scraper: display name, script path, source name. *)
Definition scraper : Type := (pystr * pystr * pystr)%type.

Definition display_name (s : scraper) : pystr := fst (fst s).
Definition source_name (s : scraper) : pystr := snd s.
Definition script_path (s : scraper) : pystr := snd (fst s).

(** Line 269: the sort by display name is stable; an entry goes in front of
    the first entry whose name is not below its own. *)
Fixpoint insert_scraper (x : scraper) (l : list scraper) : list scraper :=
  match l with
  | [] => [x]
  | y :: l' =>
      if str_leb (display_name x) (display_name y) then x :: l
      else y :: insert_scraper x l'
  end.

Definition sort_scrapers (l : list scraper) : list scraper :=
  fold_right insert_scraper [] l.

Section Builtins.

(** [str.title] and [str.upper] are taken from Python. *)
Variable title : pystr -> pystr.
Variable upper : pystr -> pystr.

(** Lines 256-266: what one file of the directory adds to the list. *)
Definition scraper_of (scrapers_dir file : pystr) : list scraper :=
  if startswith (lit "scrape_") file && endswith (lit "_to_epub.py") file then
    let source_name := source_name_of file in
    let display_name :=
      if (length source_name <=? 3)%nat then upper source_name
      else title (replace_char "_" (lit " ") source_name) in
    [(display_name, path_join scrapers_dir file, source_name)]
  else [].

(** Lines 236-270, for the names [os.listdir] gives; [None] when the
    directory does not exist. *)
Definition discover_scrapers (scrapers_dir : pystr) (listing : option (list pystr))
    : list scraper :=
  match listing with
  | None => []
  | Some files => sort_scrapers (flat_map (scraper_of scrapers_dir) files)
  end.

End Builtins.

End Scrapers.

(** ** bin/upload_to_epaper.py: the supported extensions *)

Module Extensions.
Import PyStr.

(** Line 26. *)
Definition SUPPORTED_EXTENSIONS : list pystr :=
  [lit ".epub"; lit ".xtc"; lit ".xtg"; lit ".xth"; lit ".xtch"].

(** Lines 35 and 173: [file.lower().endswith(SUPPORTED_EXTENSIONS)]. *)
Definition is_supported (file : pystr) : bool :=
  existsb (fun ext => endswith ext (lower file)) SUPPORTED_EXTENSIONS.

End Extensions.

(** ** Sample inputs *)

Module Samples.
Import PyStr PyDict ConfigReader Common Dom.

(** The two files of tests/test_config_reader.py. *)
Definition sample_application_config : pystr :=
  lit "KEY1=value1" ++ nl ++ lit "KEY2=123" ++ nl.

Definition sample_secrets_config : pystr :=
  lit "SECRET_KEY=secret_value" ++ nl ++ lit "KEY2=456" ++ nl.

Definition sample_config_dir : config_dir :=
  <[lit "application.config" := sample_application_config]>
    (<[lit "secrets.config" := sample_secrets_config]> ∅).

Definition sample_app_dict : dict pyval :=
  [(lit "KEY1", VStr (lit "value1")); (lit "KEY2", VInt 123)].

Definition sample_secrets_dict : dict pyval :=
  [(lit "SECRET_KEY", VStr (lit "secret_value")); (lit "KEY2", VInt 456)].










(** A post: a [div] of class [body markup] with two paragraphs.  The
    text extracted is [one twothree], of two words. *)
Definition sample_post : node :=
  Elem (lit "[document]") []
    [Elem (lit "html") []
       [Elem (lit "body") []
          [Elem (lit "div") [(lit "class", AttrList [lit "body"; lit "markup"])]
             [Elem (lit "p") [] [Text (lit " one two ")];
              Text nl;
              Elem (lit "p") [] [Text (lit "three")]]]]].

Definition sample_post_content : node :=
  Elem (lit "div") [(lit "class", AttrList [lit "body"; lit "markup"])]
    [Elem (lit "p") [] [Text (lit " one two ")];
     Text nl;
     Elem (lit "p") [] [Text (lit "three")]].

End Samples.

(** ** More sample inputs *)

Module MoreSamples.
Import PyStr PyDict ConfigReader Common Dom FullLetter HcrPosts.

(** An archive page with a letter linked twice, a link that is no date, and
    a second letter. *)
Definition archive_links : list link :=
  [ {| href := Some (lit "/p/december-2-2025"); link_text := lit "December 2, 2025" |};
    {| href := Some (lit "/p/december-2-2025"); link_text := lit "December 2, 2025" |};
    {| href := Some (lit "/p/about"); link_text := lit "About" |};
    {| href := Some (lit "https://example.org/p/december-1-2025");
       link_text := lit "December 1, 2025" |} ].

(** A web on which every page is the sample post. *)
Definition sample_web (url : pystr) : fetched := Page Samples.sample_post.



End MoreSamples.


(** * Properties *)

(** ** Facts about the string primitives *)

Module PyStrFacts.
Import PyStr.

Lemma eqb_char_true (a b : ascii) : eqb_char a b = true <-> a = b.
Proof. unfold eqb_char. apply Ascii.eqb_eq. Qed.

Lemma eqb_char_false (a b : ascii) : eqb_char a b = false <-> a <> b.
Proof. unfold eqb_char. apply Ascii.eqb_neq. Qed.

Lemma eqb_char_refl (a : ascii) : eqb_char a a = true.
Proof. now apply eqb_char_true. Qed.

Lemma eqb_str_true (a b : pystr) : eqb_str a b = true <-> a = b.
Proof.
  revert b. induction a as [|x a IH]; intros [|y b]; simpl; split; try congruence.
  - intros H. apply andb_true_iff in H as [H1 H2].
    apply eqb_char_true in H1. apply IH in H2. congruence.
  - intros H. injection H as -> ->. rewrite eqb_char_refl. simpl. now apply IH.
Qed.

Lemma eqb_str_refl (a : pystr) : eqb_str a a = true.
Proof. now apply eqb_str_true. Qed.

Lemma eqb_str_false (a b : pystr) : eqb_str a b = false <-> a <> b.
Proof.
  split.
  - intros H E. apply eqb_str_true in E. congruence.
  - intros H. destruct (eqb_str a b) eqn:E; [|reflexivity].
    apply eqb_str_true in E. contradiction.
Qed.

Lemma contains_char_app (c : ascii) (a b : pystr) :
  contains_char c (a ++ b) = contains_char c a || contains_char c b.
Proof. unfold contains_char. apply existsb_app. Qed.


(** [break_at] cuts at the first occurrence. *)
Lemma break_at_found (c : ascii) (a r : pystr) :
  contains_char c a = false ->
  break_at c (a ++ c :: r) = (a, Some r).
Proof.
  induction a as [|x a IH]; simpl; intros H.
  - now rewrite eqb_char_refl.
  - apply orb_false_iff in H as [H1 H2].
    unfold contains_char in H2. fold (contains_char c a) in H2.
    assert (eqb_char x c = false) as ->.
    { apply eqb_char_false. apply eqb_char_false in H1. congruence. }
    now rewrite IH.
Qed.

Lemma break_at_absent (c : ascii) (s : pystr) :
  contains_char c s = false -> break_at c s = (s, None).
Proof.
  induction s as [|x s IH]; simpl; intros H; [reflexivity|].
  apply orb_false_iff in H as [H1 H2].
  assert (eqb_char x c = false) as ->.
  { apply eqb_char_false. apply eqb_char_false in H1. congruence. }
  now rewrite IH.
Qed.

Lemma contains_char_split (c : ascii) (s : pystr) :
  contains_char c s = true ->
  exists a r, s = a ++ c :: r /\ contains_char c a = false.
Proof.
  induction s as [|x s IH]; simpl; [discriminate|].
  destruct (eqb_char c x) eqn:E.
  - intros _. apply eqb_char_true in E as ->. now exists [], s.
  - simpl. intros H. destruct (IH H) as (a & r & -> & Ha).
    exists (x :: a), r. split; [reflexivity|]. simpl. now rewrite E.
Qed.

(** *** Stripping *)

Lemma lstrip_by_id (p : ascii -> bool) (s : pystr) :
  no_lead p s -> lstrip_by p s = s.
Proof. destruct s as [|c s]; simpl; [reflexivity|]. now intros ->. Qed.

Lemma rstrip_by_id (p : ascii -> bool) (s : pystr) :
  no_trail p s -> rstrip_by p s = s.
Proof.
  unfold no_trail, rstrip_by. intros H. rewrite lstrip_by_id by assumption.
  apply rev_involutive.
Qed.

Lemma strip_by_id (p : ascii -> bool) (s : pystr) :
  no_lead p s -> no_trail p s -> strip_by p s = s.
Proof.
  intros H1 H2. unfold strip_by. rewrite lstrip_by_id by assumption.
  now apply rstrip_by_id.
Qed.

Lemma lstrip_by_all (p : ascii -> bool) (w s : pystr) :
  forallb p w = true -> lstrip_by p (w ++ s) = lstrip_by p s.
Proof.
  induction w as [|c w IH]; simpl; [reflexivity|].
  intros H. apply andb_true_iff in H as [-> H]. now apply IH.
Qed.

Lemma lstrip_by_no_lead (p : ascii -> bool) (s : pystr) :
  no_lead p (lstrip_by p s).
Proof.
  induction s as [|c s IH]; simpl; [exact I|].
  destruct (p c) eqn:E; [assumption|]. exact E.
Qed.

Lemma rstrip_by_snoc (p : ascii -> bool) (s : pystr) (c : ascii) :
  rstrip_by p (s ++ [c]) = if p c then rstrip_by p s else s ++ [c].
Proof.
  unfold rstrip_by. rewrite rev_app_distr. simpl.
  destruct (p c); [reflexivity|]. simpl. now rewrite rev_involutive.
Qed.

Lemma rstrip_by_all (p : ascii -> bool) (s w : pystr) :
  forallb p w = true -> rstrip_by p (s ++ w) = rstrip_by p s.
Proof.
  unfold rstrip_by. intros H. rewrite rev_app_distr.
  apply (f_equal (@rev ascii)). apply lstrip_by_all.
  rewrite forallb_forall in *. intros x Hx. apply H. now apply in_rev.
Qed.

Lemma rstrip_by_no_trail (p : ascii -> bool) (s : pystr) :
  no_trail p (rstrip_by p s).
Proof.
  unfold no_trail, rstrip_by. rewrite rev_involutive. apply lstrip_by_no_lead.
Qed.

(** Stripping on the right keeps a clean left end. *)
Lemma rstrip_by_keeps_lead (p : ascii -> bool) (s : pystr) :
  no_lead p s -> no_lead p (rstrip_by p s).
Proof.
  induction s as [|c s IH] using rev_ind; [intros _; exact I|].
  intros H. rewrite rstrip_by_snoc. destruct (p c) eqn:E; [|assumption].
  apply IH. destruct s; simpl in *; [exact I | assumption].
Qed.

Lemma strip_by_clean (p : ascii -> bool) (s : pystr) :
  no_lead p (strip_by p s) /\ no_trail p (strip_by p s).
Proof.
  unfold strip_by. split.
  - apply rstrip_by_keeps_lead, lstrip_by_no_lead.
  - apply rstrip_by_no_trail.
Qed.

Lemma strip_by_idem (p : ascii -> bool) (s : pystr) :
  strip_by p (strip_by p s) = strip_by p s.
Proof. destruct (strip_by_clean p s). now apply strip_by_id. Qed.

End PyStrFacts.

(** ** Facts about numbers and their text *)

Module PyNumFacts.
Import PyStr PyStrFacts.





(** A decimal digit is neither a space, a sign, an underscore nor a line end. *)
Lemma decimal_char_plain (c : ascii) :
  isdecimal_char c = true ->
  isspace_char c = false /\ isspace_num c = false /\ isdigit_char c = true
  /\ eqb_char c "-" = false /\ eqb_char c "+" = false
  /\ eqb_char c "010" = false /\ eqb_char c "013" = false.
Proof.
  destruct c as [[] [] [] [] [] [] [] []]; vm_compute; intros H;
    try discriminate H; repeat split.
Qed.








(** The first and the last character of a digit string are digits. *)
Lemma decimal_no_lead (p : ascii -> bool) (s : pystr) :
  (forall c, isdecimal_char c = true -> p c = false) ->
  forallb isdecimal_char s = true -> no_lead p s.
Proof.
  intros Hp. destruct s as [|c s]; simpl; [trivial|].
  intros H. apply andb_true_iff in H as [H _]. auto.
Qed.

Lemma decimal_no_trail (p : ascii -> bool) (s : pystr) :
  (forall c, isdecimal_char c = true -> p c = false) ->
  forallb isdecimal_char s = true -> no_trail p s.
Proof.
  intros Hp H. apply decimal_no_lead; [assumption|].
  rewrite forallb_forall in *. intros x Hx. apply H. now apply in_rev.
Qed.

Lemma isdigit_decimal (s : pystr) :
  s <> [] -> forallb isdecimal_char s = true -> isdigit s = true.
Proof.
  destruct s as [|c s]; [congruence|]. intros _ H. unfold isdigit.
  rewrite forallb_forall in *. intros x Hx.
  now apply decimal_char_plain, H.
Qed.

(** Every character of a text of decimal digits counts as a digit. *)
Lemma digit_count_decimal (s : pystr) :
  forallb isdecimal_char s = true -> digit_count s = length s.
Proof.
  unfold digit_count. induction s as [|c s IH]; [reflexivity|].
  cbn [forallb List.filter]. intros H. apply andb_true_iff in H as [Hc Hs].
  rewrite Hc. cbn [length]. now rewrite IH.
Qed.

Lemma digit_count_le (s : pystr) : (digit_count s <= length s)%nat.
Proof. apply List.filter_length_le. Qed.

(** [int] reads a text of decimal digits, no more of them than the limit,
    as the number they write. *)
Lemma py_int_decimal (s : pystr) :
  s <> [] -> forallb isdecimal_char s = true ->
  Z.of_nat (length s) <= int_max_str_digits ->
  py_int s = int_digits 0 false s.
Proof.
  intros Hne H Hlen. unfold py_int.
  rewrite strip_by_id.
  - destruct s as [|c s]; [congruence|].
    pose proof (digit_count_decimal _ H) as Hcount.
    cbn [forallb] in H.
    apply andb_true_iff in H as [Hc _].
    destruct (decimal_char_plain c Hc) as (_ & _ & _ & Hm & Hp & _).
    unfold split_sign. rewrite Hm, Hp, Hcount.
    assert ((int_max_str_digits <? Z.of_nat (length (c :: s))) = false) as ->
      by (apply Z.ltb_ge; exact Hlen).
    destruct (int_digits 0 false (c :: s)); reflexivity.
  - apply decimal_no_lead; [|assumption]. intros c Hc. now apply decimal_char_plain.
  - apply decimal_no_trail; [|assumption]. intros c Hc. now apply decimal_char_plain.
Qed.

(** [int] rejects a text of more decimal digits than the limit. *)
Lemma py_int_too_long (s : pystr) :
  forallb isdecimal_char s = true ->
  int_max_str_digits < Z.of_nat (length s) ->
  py_int s = None.
Proof.
  intros H Hlen. unfold py_int.
  assert (Hne : s <> []).
  { intros ->. unfold int_max_str_digits in Hlen. cbn in Hlen. lia. }
  rewrite strip_by_id.
  - destruct s as [|c s]; [congruence|].
    pose proof (digit_count_decimal _ H) as Hcount.
    cbn [forallb] in H.
    apply andb_true_iff in H as [Hc _].
    destruct (decimal_char_plain c Hc) as (_ & _ & _ & Hm & Hp & _).
    unfold split_sign. rewrite Hm, Hp, Hcount.
    assert ((int_max_str_digits <? Z.of_nat (length (c :: s))) = true) as ->
      by (apply Z.ltb_lt; exact Hlen).
    reflexivity.
  - apply decimal_no_lead; [|assumption]. intros c Hc. now apply decimal_char_plain.
  - apply decimal_no_trail; [|assumption]. intros c Hc. now apply decimal_char_plain.
Qed.







Lemma py_str_ok (n : Z) : int_str_ok n = true -> py_str n = Some (str_of_int n).
Proof. unfold py_str. now intros ->. Qed.


End PyNumFacts.

(** ** Facts about dictionaries *)

Module PyDictFacts.
Import PyStr PyDict PyStrFacts.

Section DictFacts.
Context {V : Type}.
Implicit Types (d e : dict V) (k : pystr) (v : V).

Lemma dict_get_set_same k v d : dict_get k (dict_set k v d) = Some v.
Proof.
  induction d as [|[k' v'] d IH]; simpl.
  - now rewrite eqb_str_refl.
  - destruct (eqb_str k' k) eqn:E; simpl; rewrite E; auto.
Qed.

Lemma dict_get_set_other k k' v d :
  k <> k' -> dict_get k' (dict_set k v d) = dict_get k' d.
Proof.
  intros Hne. induction d as [|[k0 v0] d IH]; simpl.
  - apply eqb_str_false in Hne. now rewrite Hne.
  - destruct (eqb_str k0 k) eqn:E; simpl.
    + apply eqb_str_true in E. subst k0.
      apply eqb_str_false in Hne. now rewrite Hne.
    + now rewrite IH.
Qed.


Lemma dict_get_none_keys k d : dict_get k d = None <-> ~ In k (dict_keys d).
Proof.
  induction d as [|[k0 v0] d IH]; simpl.
  - tauto.
  - destruct (eqb_str k0 k) eqn:E.
    + apply eqb_str_true in E. split; [discriminate|]. intros H. exfalso. auto.
    + apply eqb_str_false in E. rewrite IH. tauto.
Qed.



Lemma dict_keys_set k v d :
  forall x, In x (dict_keys (dict_set k v d)) <-> x = k \/ In x (dict_keys d).
Proof.
  intros x. induction d as [|[k0 v0] d IH]; simpl.
  - intuition congruence.
  - destruct (eqb_str k0 k) eqn:E; simpl.
    + apply eqb_str_true in E. subst. intuition congruence.
    + rewrite IH. intuition congruence.
Qed.

(** Writing a key keeps every key once. *)
Lemma dict_set_wf k v d : dict_wf d -> dict_wf (dict_set k v d).
Proof.
  unfold dict_wf. induction d as [|[k0 v0] d IH]; simpl; intros H.
  - constructor; [intros []|constructor].
  - inversion H as [|? ? Hn Hd]; subst.
    destruct (eqb_str k0 k) eqn:E; simpl.
    + now constructor.
    + constructor; [|now apply IH].
      intros Hin. apply dict_keys_set in Hin as [->|Hin]; [|contradiction].
      rewrite eqb_str_refl in E. discriminate.
Qed.

(** [d.update(e)]: the keys of [e] take the values of [e], the other keys
    keep theirs. *)
Lemma dict_get_update k d e :
  dict_wf e ->
  dict_get k (dict_update d e) =
  match dict_get k e with Some v => Some v | None => dict_get k d end.
Proof.
  unfold dict_update, dict_wf. revert d.
  induction e as [|[k0 v0] e IH]; intros d Hwf; simpl; [reflexivity|].
  inversion Hwf as [|? ? Hn Hd]; subst.
  rewrite IH by assumption.
  destruct (eqb_str k0 k) eqn:E.
  - apply eqb_str_true in E. subst k0.
    apply dict_get_none_keys in Hn. rewrite Hn. apply dict_get_set_same.
  - apply eqb_str_false in E. now rewrite dict_get_set_other.
Qed.

End DictFacts.

End PyDictFacts.

(** ** bin/config_reader.py: the line parser *)

Module ConfigReaderFacts.
Import PyStr PyDict ConfigReader Common PyStrFacts PyNumFacts PyDictFacts.



Lemma is_stripped_clean (s : pystr) :
  eqb_str (strip s) s = true <->
  no_lead isspace_char s /\ no_trail isspace_char s.
Proof.
  rewrite eqb_str_true. split.
  - intros <-. apply strip_by_clean.
  - intros [H1 H2]. now apply strip_by_id.
Qed.

Lemma no_trail_app (p : ascii -> bool) (a b : pystr) :
  b <> [] -> no_trail p b -> no_trail p (a ++ b).
Proof.
  unfold no_trail. intros Hb H. rewrite rev_app_distr.
  destruct (rev b) as [|x r] eqn:E.
  - apply (f_equal (@rev ascii)) in E. rewrite rev_involutive in E. now subst.
  - exact H.
Qed.

Lemma no_lead_app (p : ascii -> bool) (a b : pystr) :
  a <> [] -> no_lead p a -> no_lead p (a ++ b).
Proof. destruct a; [congruence|]. intros _ H. exact H. Qed.

(** Lines 26-27: an empty line and a comment leave the dictionary as it is. *)
Lemma parse_line_skipped (config : dict pyval) (line : pystr) :
  strip line = [] \/ startswith (lit "#") (strip line) = true ->
  parse_line config line = Ok config.
Proof.
  unfold parse_line. intros [-> | ->]; [reflexivity|].
  now rewrite orb_true_r.
Qed.

(** Line 30: a line without [=] leaves the dictionary as it is. *)
Lemma parse_line_no_equals (config : dict pyval) (line : pystr) :
  contains_char "=" (strip line) = false ->
  parse_line config line = Ok config.
Proof.
  unfold parse_line. intros ->.
  destruct (negb (nonempty (strip line)) || startswith (lit "#") (strip line));
    reflexivity.
Qed.

(** Lines 30-45: the line is cut at its first [=]; the stripped halves are
    the key and the text of the value. *)
Lemma parse_line_split (config : dict pyval) (line key value : pystr) :
  strip line = key ++ "="%char :: value ->
  contains_char "=" key = false ->
  startswith (lit "#") (strip line) = false ->
  parse_line config line =
  match coerce (strip value) with
  | Ok v => Ok (dict_set (strip key) v config)
  | Raise e => Raise e
  end.
Proof.
  intros Hl Hk Hc. unfold parse_line. rewrite Hc, Hl.
  assert (nonempty (key ++ "="%char :: value) = true) as ->
    by (destruct key; reflexivity).
  simpl negb. simpl orb.
  rewrite contains_char_app. simpl. rewrite orb_true_r.
  simpl split_max. rewrite break_at_found by assumption. reflexivity.
Qed.

(** Lines 36-37: a text of decimal digits, no more of them than [int]
    allows, is read as the number it writes. *)
Lemma coerce_decimal (s : pystr) :
  s <> [] -> forallb isdecimal_char s = true ->
  Z.of_nat (length s) <= int_max_str_digits ->
  exists n, int_digits 0 false s = Some n /\ coerce s = Ok (VInt n).
Proof.
  intros Hne Hd Hlen. unfold coerce.
  rewrite isdigit_decimal, py_int_decimal by assumption.
  assert (H : forall acc b, (b = true \/ s <> []) ->
            exists n, int_digits acc b s = Some n).
  { clear Hne Hlen. induction s as [|c s IH]; intros acc b Hb.
    - destruct Hb as [-> | Hb]; [now exists acc | congruence].
    - simpl in Hd. apply andb_true_iff in Hd as [Hc Hs]. simpl. rewrite Hc.
      apply IH; auto. }
  destruct (H 0 false (or_intror Hne)) as [n Hn]. exists n. now rewrite Hn.
Qed.

(** Lines 36-37: a text of more decimal digits than [int] allows raises. *)
Lemma coerce_too_long (s : pystr) :
  forallb isdecimal_char s = true ->
  int_max_str_digits < Z.of_nat (length s) ->
  coerce s = Raise ValueError.
Proof.
  intros Hd Hlen. unfold coerce.
  rewrite isdigit_decimal, py_int_too_long; try assumption; [reflexivity|].
  intros ->. unfold int_max_str_digits in Hlen. cbn in Hlen. lia.
Qed.


(** Lines 38-39. *)
Lemma coerce_bool (s : pystr) :
  isdigit s = false -> is_bool_text s = true ->
  coerce s = Ok (VBool (eqb_str (lower s) (lit "true"))).
Proof. intros H1 H2. unfold coerce. now rewrite H1, H2. Qed.

(** Lines 42-43. *)
Lemma coerce_float (s : pystr) :
  isdigit s = false -> is_bool_text s = false -> py_float_ok s = true ->
  coerce s = Ok (VFloat s).
Proof. intros H1 H2 H3. unfold coerce. now rewrite H1, H2, H3. Qed.


(** The conversion fails only on a text [isdigit] accepts and [int] rejects. *)
Lemma coerce_raises (s : pystr) (e : exn) :
  coerce s = Raise e <-> isdigit s = true /\ py_int s = None /\ e = ValueError.
Proof.
  unfold coerce. destruct (isdigit s).
  - destruct (py_int s); split; try discriminate; try (intros (_ & H & _); discriminate).
    + intros [= <-]. auto.
    + intros (_ & _ & ->). reflexivity.
  - split; [|intros (H & _); discriminate].
    destruct (is_bool_text s); [discriminate|].
    destruct (py_float_ok s); discriminate.
Qed.

(** [dict_set] keeps each key once, so does the whole reading. *)
Lemma parse_line_wf (config config' : dict pyval) (line : pystr) :
  dict_wf config -> parse_line config line = Ok config' -> dict_wf config'.
Proof.
  unfold parse_line. intros Hwf.
  destruct (negb (nonempty (strip line)) || startswith (lit "#") (strip line));
    [now intros [= <-]|].
  destruct (contains_char "=" (strip line)); [|now intros [= <-]].
  destruct (split_max "=" 1 (strip line)) as [|k [|v [|? ?]]]; try discriminate.
  destruct (coerce (strip v)); [|discriminate].
  intros [= <-]. now apply dict_set_wf.
Qed.

Lemma parse_lines_wf (lines : list pystr) :
  forall config config',
    dict_wf config -> parse_lines config lines = Ok config' -> dict_wf config'.
Proof.
  induction lines as [|line lines IH]; intros config config' Hwf; simpl.
  - now intros [= <-].
  - destruct (parse_line config line) as [c1|] eqn:E; [|discriminate].
    apply IH. now apply (parse_line_wf config c1 line).
Qed.

Lemma read_config_file_wf (dir : config_dir) (filename : pystr) (config : dict pyval) :
  read_config_file dir filename = Ok config -> dict_wf config.
Proof.
  unfold read_config_file, read_config_lines.
  destruct (dir !! filename); [|discriminate].
  apply parse_lines_wf. constructor.
Qed.

End ConfigReaderFacts.

(** ** bin/config_reader.py: the claims *)

Module ConfigReaderClaims.
Import PyStr PyDict ConfigReader Common PyStrFacts PyNumFacts PyDictFacts
  ConfigReaderFacts.

(** C1 (the code departs from the claim).  The claim has every value either
    converted or kept as a string.  A value made of the superscript digit two
    (code point 178) passes [isdigit], [int] rejects it, and nothing catches
    the [ValueError]: reading the one-line file [LEVEL=<superscript two>]
    raises instead of returning a dictionary. *)
Theorem read_config_superscript_digit_raises :
  isdigit ["178"%char] = true
  /\ py_int ["178"%char] = None
  /\ py_float_ok ["178"%char] = false
  /\ coerce ["178"%char] = Raise ValueError
  /\ read_config_lines [lit "LEVEL=" ++ ["178"%char] ++ nl] = Raise ValueError.
Proof.
  assert (Hc : coerce ["178"%char] = Raise ValueError).
  { apply coerce_raises. repeat split; reflexivity. }
  split; [reflexivity|]. split; [reflexivity|]. split; [reflexivity|].
  split; [exact Hc|].
  unfold read_config_lines, parse_lines.
  rewrite (parse_line_split [] _ (lit "LEVEL") ["178"%char]) by reflexivity.
  change (strip ["178"%char]) with ["178"%char]. now rewrite Hc.
Qed.

(** C10.  [get_config] merges the two files with the secrets taking
    precedence: a key of secrets.config has the value of secrets.config, any
    other key keeps the value of application.config; and when secrets.config
    does not exist the result is the parsed application.config, with no
    exception. *)
Theorem get_config_secrets_take_precedence
    (dir : config_dir) (app_config : dict pyval) :
  read_config_file dir (lit "application.config") = Ok app_config ->
  (forall secrets_config,
      read_config_file dir (lit "secrets.config") = Ok secrets_config ->
      exists config,
        get_config dir = Ok config
        /\ (forall k v, dict_get k secrets_config = Some v ->
                        dict_get k config = Some v)
        /\ (forall k, dict_get k secrets_config = None ->
                      dict_get k config = dict_get k app_config))
  /\ (dir !! lit "secrets.config" = None -> get_config dir = Ok app_config).
Proof.
  intros Happ. unfold get_config. rewrite Happ. split.
  - intros secrets_config Hsec. rewrite Hsec.
    exists (dict_update app_config secrets_config).
    pose proof (read_config_file_wf _ _ _ Hsec) as Hwf.
    split; [reflexivity|]. split.
    + intros k v Hk. now rewrite dict_get_update, Hk.
    + intros k Hk. now rewrite dict_get_update, Hk.
  - intros Hnone. unfold read_config_file at 1. now rewrite Hnone.
Qed.

Lemma get_config_secrets_take_precedence_witness :
  read_config_file Samples.sample_config_dir (lit "application.config")
  = Ok Samples.sample_app_dict
  /\ exists config,
       get_config Samples.sample_config_dir = Ok config
       /\ dict_get (lit "KEY2") config = Some (VInt 456)
       /\ dict_get (lit "KEY1") config = Some (VStr (lit "value1")).
Proof.
  assert (Happ : read_config_file Samples.sample_config_dir (lit "application.config")
                 = Ok Samples.sample_app_dict) by (vm_compute; reflexivity).
  assert (Hsec : read_config_file Samples.sample_config_dir (lit "secrets.config")
                 = Ok Samples.sample_secrets_dict) by (vm_compute; reflexivity).
  split; [exact Happ|].
  destruct (get_config_secrets_take_precedence _ _ Happ) as [Hboth _].
  destruct (Hboth _ Hsec) as (config & Hc & Hs & Ha).
  exists config. split; [exact Hc|]. split.
  - apply Hs. reflexivity.
  - rewrite Ha; reflexivity.
Defined.

End ConfigReaderClaims.

(** ** application.config: a written file read back *)

Module ConfigTextFacts.
Import PyStr PyDict Re ConfigReader Common UiHelpers ConfigText.
Import PyStrFacts PyNumFacts PyDictFacts ConfigReaderFacts.

(** *** Texts of one line *)







(** *** The lines of a file *)


Section Rendered.
Variable float_str : pystr -> pystr.

Lemma render_app (a b : list cline) :
  render float_str (a ++ b) = render float_str a ++ render float_str b.
Proof. unfold render. apply flat_map_app. Qed.

Lemma render_cons (l : cline) (ls : list cline) :
  render float_str (l :: ls)
  = render_line float_str l ++ nl ++ render float_str ls.
Proof. unfold render. simpl. now rewrite <- app_assoc. Qed.


(** *** One line written and read back *)



Lemma strip_assignment (key value : pystr) :
  key <> [] -> is_stripped key = true -> is_stripped value = true ->
  strip (key ++ lit "=" ++ value ++ nl) = key ++ lit "=" ++ value.
Proof.
  intros Hne Hk Hv.
  apply is_stripped_clean in Hk as [Hk1 Hk2].
  apply is_stripped_clean in Hv as [Hv1 Hv2].
  unfold strip, strip_by.
  rewrite lstrip_by_id by (apply no_lead_app; assumption).
  replace (key ++ lit "=" ++ value ++ nl) with ((key ++ lit "=" ++ value) ++ nl)
    by (now rewrite <- !app_assoc).
  rewrite rstrip_by_all by reflexivity.
  apply rstrip_by_id.
  destruct value as [|v value].
  - rewrite app_nil_r. apply no_trail_app; [discriminate|reflexivity].
  - rewrite app_assoc. apply no_trail_app; [discriminate|assumption].
Qed.

Lemma parse_line_assignment (config : dict pyval) (key value : pystr) :
  key_ok key = true -> is_stripped value = true ->
  parse_line config (key ++ lit "=" ++ value ++ nl)
  = match coerce value with
    | Ok v => Ok (dict_set key v config)
    | Raise e => Raise e
    end.
Proof.
  unfold key_ok. intros Hk Hv.
  repeat (apply andb_true_iff in Hk as [Hk ?]).
  assert (Hne : key <> []) by (destruct key; [discriminate|congruence]).
  pose proof (strip_assignment key value Hne ltac:(assumption) Hv) as Hs.
  rewrite (parse_line_split config _ key value).
  - assert (strip key = key) as -> by (now apply eqb_str_true).
    assert (strip value = value) as -> by (now apply eqb_str_true).
    reflexivity.
  - exact Hs.
  - now apply negb_true_iff.
  - rewrite Hs. destruct key as [|c key]; [congruence|].
    match goal with H : negb (startswith _ _) = true |- _ =>
      apply negb_true_iff in H; simpl in H; simpl; exact H end.
Qed.


(** The f-string of a value that [formats] accepts is its text. *)
Lemma py_format_text (v : pyval) :
  formats v = true -> py_format float_str v = Some (value_text float_str v).
Proof.
  destruct v as [n|[]|t|s]; cbn [formats py_format value_text];
    try reflexivity.
  apply py_str_ok.
Qed.

(** It raises for every other value. *)
Lemma py_format_raises (v : pyval) :
  formats v = false -> py_format float_str v = None.
Proof.
  destruct v as [n|[]|t|s]; cbn [formats py_format]; try discriminate.
  unfold py_str. now intros ->.
Qed.





End Rendered.



End ConfigTextFacts.

(** ** application.config: the text of [save_application_config] as lines *)

Module ConfigLinesFacts.
Import PyStr PyDict Re ConfigReader Common UiHelpers ConfigText.
Import PyStrFacts PyNumFacts PyDictFacts ConfigReaderFacts ConfigTextFacts.

Lemma mem_str_true (x : pystr) (l : list pystr) : mem_str x l = true <-> In x l.
Proof.
  unfold mem_str. rewrite existsb_exists. split.
  - intros (y & Hy & E). apply eqb_str_true in E. now subst.
  - intros H. exists x. split; [assumption|apply eqb_str_refl].
Qed.

Lemma mem_str_app (x : pystr) (a b : list pystr) :
  mem_str x (a ++ b) = mem_str x a || mem_str x b.
Proof. apply existsb_app. Qed.

Lemma in_insert_sorted (x y : pystr) (l : list pystr) :
  In y (insert_sorted x l) <-> y = x \/ In y l.
Proof.
  induction l as [|z l IH]; simpl.
  - intuition congruence.
  - destruct (str_leb x z); simpl; [intuition congruence|].
    rewrite IH. intuition congruence.
Qed.

(** [sorted] keeps the elements of the list. *)
Lemma in_sorted (y : pystr) (l : list pystr) : In y (sorted l) <-> In y l.
Proof.
  unfold sorted. induction l as [|x l IH]; simpl; [tauto|].
  rewrite in_insert_sorted, IH. intuition congruence.
Qed.

Section Lines.
Variable title : pystr -> pystr.
Variable float_str : pystr -> pystr.

Abbreviation render' := (render float_str).

(** *** The text is the rendering of the lines *)








End Lines.

End ConfigLinesFacts.

(** ** Facts about the matcher *)

Module ReFacts.
Import PyStr Re PyStrFacts.



End ReFacts.

(** ** application.config: the comment lines *)

Module CategoryFacts.
Import PyStr PyDict Re ConfigReader Common UiHelpers ConfigText.
Import PyStrFacts PyNumFacts PyDictFacts ConfigReaderFacts ConfigTextFacts
  ConfigLinesFacts ReFacts.

Lemma fold_left_invariant {A B : Type} (P : A -> Prop) (f : A -> B -> A)
    (l : list B) :
  forall a, P a -> (forall a x, In x l -> P a -> P (f a x)) -> P (fold_left f l a).
Proof.
  induction l as [|x l IH]; intros a Ha Hf; simpl; [assumption|].
  apply IH.
  - apply Hf; [now left|assumption].
  - intros a' y Hy. apply Hf. now right.
Qed.



Section Names.
Variable title : pystr -> pystr.
Hypothesis title_one_line :
  forall s, no_linebreak s = true -> no_linebreak (title s) = true.







End Names.

End CategoryFacts.

(** ** application.config: the round trip *)

Module ConfigRoundTrip.
Import PyStr PyDict Re ConfigReader Common UiHelpers ConfigText.
Import PyStrFacts PyNumFacts PyDictFacts ConfigReaderFacts ConfigTextFacts
  ConfigLinesFacts ReFacts CategoryFacts.

(** *** The assignments among the lines *)





Section RoundTrip.
Variable title : pystr -> pystr.
Variable float_str : pystr -> pystr.
Hypothesis title_one_line :
  forall s, no_linebreak s = true -> no_linebreak (title s) = true.







End RoundTrip.

(** *** Reading the lines *)





End ConfigRoundTrip.

(** ** application.config: the claim *)

Module ConfigRoundTripClaim.
Import PyStr PyDict Re ConfigReader Common UiHelpers ConfigText.
Import PyStrFacts PyNumFacts PyDictFacts ConfigReaderFacts ConfigTextFacts
  ConfigLinesFacts ReFacts CategoryFacts ConfigRoundTrip.






End ConfigRoundTripClaim.

(** ** The progress line *)

Module ProgressClaim.
Import PyStr PyDict ConfigReader Common UiHelpers ConfigText.
Import PyStrFacts PyNumFacts ConfigReaderFacts ConfigTextFacts.

Lemma startswith_app (p s : pystr) : startswith p (p ++ s) = true.
Proof.
  induction p as [|c p IH]; simpl; [reflexivity|].
  now rewrite eqb_char_refl, IH.
Qed.












End ProgressClaim.

(** ** scrape_hn_to_epub.py: [sanitize_filename] *)

Module SanitizeClaim.
Import PyStr ScrapeHn PyStrFacts.

Lemma in_replace_char (c d : ascii) (r s : pystr) :
  In d (replace_char c r s) -> In d r \/ (d <> c /\ In d s).
Proof.
  unfold replace_char. rewrite in_flat_map. intros (x & Hx & Hd).
  destruct (eqb_char x c) eqn:E; [now left|].
  destruct Hd as [<-|[]]. right. split; [|assumption].
  now apply eqb_char_false.
Qed.

Lemma replace_char_absent (c : ascii) (r s : pystr) :
  ~ In c s -> replace_char c r s = s.
Proof.
  unfold replace_char. induction s as [|x s IH]; simpl; [reflexivity|].
  intros H. destruct (eqb_char x c) eqn:E.
  - apply eqb_char_true in E. subst. exfalso. auto.
  - simpl. f_equal. apply IH. auto.
Qed.

(** Stripping on the right leaves a prefix. *)
Lemma rstrip_by_prefix (p : ascii -> bool) (s : pystr) :
  exists w, s = rstrip_by p s ++ w.
Proof.
  induction s as [|c s IH] using rev_ind.
  - now exists [].
  - rewrite rstrip_by_snoc. destruct (p c).
    + destruct IH as [w Hw]. exists (w ++ [c]). rewrite app_assoc. now rewrite <- Hw.
    + exists []. now rewrite app_nil_r.
Qed.

Lemma rstrip_in (c : ascii) (s : pystr) : In c (rstrip s) -> In c s.
Proof.
  intros H. destruct (rstrip_by_prefix isspace_char s) as [w Hw].
  rewrite Hw. apply in_or_app. now left.
Qed.

Lemma rstrip_length (s : pystr) : (length (rstrip s) <= length s)%nat.
Proof.
  destruct (rstrip_by_prefix isspace_char s) as [w Hw].
  rewrite Hw at 2. rewrite length_app. unfold rstrip. lia.
Qed.

Lemma slice_to_in (c : ascii) (n : Z) (s : pystr) :
  In c (slice_to n s) -> In c s.
Proof.
  unfold slice_to. intros H.
  rewrite <- (firstn_skipn
                (if n <? 0 then Z.to_nat (Z.of_nat (length s) + n) else Z.to_nat n) s).
  apply in_or_app. left. destruct (n <? 0); exact H.
Qed.

Lemma slice_to_length (n : Z) (s : pystr) :
  0 <= n -> Z.of_nat (length (slice_to n s)) <= n.
Proof.
  intros Hn. unfold slice_to.
  assert ((n <? 0) = false) as -> by (apply Z.ltb_ge; assumption).
  pose proof (firstn_le_length (Z.to_nat n) s). lia.
Qed.

(** The text after the nine replacements holds none of the nine characters. *)
Lemma replacements_safe (title : pystr) :
  let safe_title :=
    replace_char "|" []
      (replace_char ">" []
        (replace_char "<" []
          (replace_char "034" []
            (replace_char "*" []
              (replace_char "?" []
                (replace_char ":" (lit "-")
                  (replace_char "092" (lit "-")
                    (replace_char "/" (lit "-") title)))))))) in
  is_safe safe_title.
Proof.
  intros safe_title c Hc Hin. unfold safe_title in Hin.
  repeat match type of Hin with
         | In _ (replace_char _ _ _) =>
             apply in_replace_char in Hin as [Hin|[? Hin]]
         end.
  all: try solve [destruct Hin].
  all: try solve [destruct Hin as [<-|[]]; simpl in Hc; intuition discriminate].
  simpl in Hc. intuition congruence.
Qed.

(** C9 as the claim words it fails: with a [max_length] below zero the slice
    counts from the end, and the name returned is longer than [max_length]:
    of [abcdef] and -1 it is [abcde], of five characters. *)
Lemma sanitize_filename_safe_and_bounded_counterexample :
  sanitize_filename (lit "abcdef") (-1) = lit "abcde"
  /\ Z.of_nat (length (sanitize_filename (lit "abcdef") (-1))) > -1.
Proof. split; reflexivity. Qed.

(** C9 (amended).  [sanitize_filename] returns a string that holds none of
    the nine characters of [unsafe_chars] (slash, backslash, colon, question
    mark, asterisk, double quote, angle brackets, bar); the string is at most
    [max_length] long when [max_length] is not negative; and a title
    that holds none of these characters and is at most [max_length] long is
    returned as it is, a longer one cut to [max_length] characters and stripped
    of the white space the cut leaves at its end. *)
Theorem sanitize_filename_safe_and_bounded (title : pystr) (max_length : Z) :
  is_safe (sanitize_filename title max_length)
  /\ (0 <= max_length ->
      Z.of_nat (length (sanitize_filename title max_length)) <= max_length)
  /\ (is_safe title ->
      sanitize_filename title max_length
      = if Z.of_nat (length title) >? max_length
        then rstrip (slice_to max_length title)
        else title).
Proof.
  split; [|split].
  - unfold sanitize_filename.
    pose proof (replacements_safe title) as Hs. cbv zeta in Hs.
    destruct (_ >? max_length); [|exact Hs].
    intros c Hc Hin. apply rstrip_in, slice_to_in in Hin. now apply (Hs c).
  - intros Hm. unfold sanitize_filename.
    destruct (_ >? max_length) eqn:E.
    + etransitivity; [|apply (slice_to_length max_length); exact Hm].
      apply inj_le. apply rstrip_length.
    + rewrite Z.gtb_ltb in E. apply Z.ltb_ge in E. exact E.
  - intros Hs. unfold sanitize_filename.
    repeat match goal with
           | |- context [replace_char ?c ?r title] =>
               rewrite (replace_char_absent c r title)
                 by (apply Hs; unfold unsafe_chars; simpl; tauto)
           end.
    reflexivity.
Qed.

Lemma sanitize_filename_safe_and_bounded_witness :
  0 <= 50
  /\ Z.of_nat (length (sanitize_filename (lit "Title:With?Special*Chars") 50)) <= 50
  /\ sanitize_filename (lit "Normal Title") 50 = lit "Normal Title".
Proof.
  destruct (sanitize_filename_safe_and_bounded (lit "Title:With?Special*Chars") 50)
    as (_ & Hbound & _).
  destruct (sanitize_filename_safe_and_bounded (lit "Normal Title") 50)
    as (_ & _ & Hsame).
  split; [lia|]. split; [apply Hbound; lia|].
  rewrite Hsame; [reflexivity|].
  intros c Hu Hin. simpl in Hu.
  repeat (destruct Hu as [<-|Hu]; [simpl in Hin; intuition discriminate|]).
  destruct Hu.
Defined.

End SanitizeClaim.

(** ** The matcher and the words of a pattern *)

Module ReSpec.
Import PyStr Re PyStrFacts ReFacts.

Lemma accepts_or_else {A : Type} (a b : option A) :
  accepts (or_else a b) = accepts a || accepts b.
Proof. destruct a; reflexivity. Qed.

Lemma startswith_split (t s : pystr) :
  startswith t s = true <-> exists rest, s = t ++ rest.
Proof.
  revert s. induction t as [|c t IH]; intros s; simpl.
  - split; [intros _; now exists s|reflexivity].
  - destruct s as [|x s].
    + split; [discriminate|]. intros [rest H]. discriminate.
    + rewrite andb_true_iff, eqb_char_true, IH. split.
      * intros [-> [rest ->]]. now exists rest.
      * intros [rest [= -> ->]]. split; [reflexivity|now exists rest].
Qed.

Lemma skipn_length_app (t rest : pystr) : skipn (length t) (t ++ rest) = rest.
Proof. induction t as [|c t IH]; simpl; [reflexivity|exact IH]. Qed.

(** A repetition of a class accepts exactly when some run of the class,
    of a length within the bounds, is followed by a text the continuation
    accepts. *)
Lemma class_rep_spec {A : Type} (p : ascii -> bool) (s : pystr) :
  forall (lo : nat) (hi : option nat) (k : pystr -> option A),
    accepts (class_rep p lo hi s k) = true <->
    exists w rest,
      s = w ++ rest /\ forallb p w = true /\ (lo <= length w)%nat
      /\ within hi (length w) /\ accepts (k rest) = true.
Proof.
  induction s as [|c s IH]; intros lo hi k.
  - simpl. split.
    + destruct lo; [|discriminate]. intros H. exists [], [].
      repeat split; simpl; auto with arith. destruct hi; simpl; lia.
    + intros (w & rest & Hs & _ & Hlo & _ & Hk).
      symmetry in Hs. apply app_eq_nil in Hs as [-> ->].
      simpl in Hlo. destruct lo; [exact Hk|lia].
  - cbn [class_rep].
    assert (Hstop : accepts (match lo with O => k (c :: s) | S _ => None end) = true
                    <-> lo = O /\ accepts (k (c :: s)) = true).
    { destruct lo; split; try discriminate; intuition. discriminate. }
    destruct (p c && may_take hi) eqn:E.
    + apply andb_true_iff in E as [Hc Hm].
      rewrite accepts_or_else, orb_true_iff, IH, Hstop. split.
      * intros [(w & rest & -> & Hw & Hlo & Hhi & Hk) | [-> Hk]].
        -- exists (c :: w), rest. simpl. rewrite Hc, Hw.
           repeat split; auto; [lia|].
           destruct hi as [[|h]|]; simpl in *; try discriminate; auto; lia.
        -- exists [], (c :: s). repeat split; simpl; auto.
           destruct hi; simpl; lia.
      * intros ([|x w] & rest & Hs & Hw & Hlo & Hhi & Hk).
        -- right. simpl in Hs, Hlo. subst rest. split; [lia|assumption].
        -- left. injection Hs as <- ->. simpl in Hw.
           apply andb_true_iff in Hw as [_ Hw]. exists w, rest.
           repeat split; auto; [simpl in Hlo; lia|].
           destruct hi as [[|h]|]; simpl in *; auto; lia.
    + rewrite Hstop. split.
      * intros [-> Hk]. exists [], (c :: s). repeat split; simpl; auto.
        destruct hi; simpl; lia.
      * intros ([|x w] & rest & Hs & Hw & Hlo & Hhi & Hk).
        -- simpl in Hs, Hlo. subst rest. split; [lia|assumption].
        -- exfalso. injection Hs as <- ->. simpl in Hw.
           apply andb_true_iff in Hw as [Hc _]. rewrite Hc in E. simpl in E.
           destruct hi as [[|h]|]; simpl in *; try discriminate; lia.
Qed.

(** The matcher accepts exactly when a word of the pattern is followed by a
    text the continuation accepts. *)
Lemma re_run_spec {A : Type} (r : regex) :
  forall (s : pystr) (k : pystr -> option A),
    accepts (re_run r s k) = true <->
    exists w rest, s = w ++ rest /\ lang r w rest /\ accepts (k rest) = true.
Proof.
  induction r as [t|p lo hi|r1 IH1 r2 IH2|r1 IH1 r2 IH2|]; intros s k; cbn [re_run lang].
  - split.
    + destruct (startswith t s) eqn:E; [|discriminate].
      apply startswith_split in E as [rest ->]. rewrite skipn_length_app.
      intros H. now exists t, rest.
    + intros (w & rest & -> & -> & Hk).
      assert (startswith t (t ++ rest) = true) as ->
        by (apply startswith_split; now exists rest).
      now rewrite skipn_length_app.
  - rewrite class_rep_spec. split.
    + intros (w & rest & Hs & Hw & Hlo & Hhi & Hk). exists w, rest.
      repeat split; auto.
    + intros (w & rest & Hs & (Hw & Hlo & Hhi) & Hk). exists w, rest.
      repeat split; auto.
  - rewrite IH1. split.
    + intros (w1 & rest1 & -> & H1 & H2). apply IH2 in H2.
      destruct H2 as (w2 & rest & -> & H2 & Hk).
      exists (w1 ++ w2), rest. rewrite <- app_assoc.
      split; [reflexivity|]. split; [|assumption]. now exists w1, w2.
    + intros (w & rest & -> & (w1 & w2 & -> & H1 & H2) & Hk).
      exists w1, (w2 ++ rest). rewrite <- app_assoc.
      split; [reflexivity|]. split; [assumption|].
      apply IH2. now exists w2, rest.
  - rewrite accepts_or_else, orb_true_iff, IH1, IH2. split.
    + intros [(w & rest & Hs & Hl & Hk)|(w & rest & Hs & Hl & Hk)];
        exists w, rest; auto.
    + intros (w & rest & Hs & [Hl|Hl] & Hk); [left|right]; exists w, rest; auto.
  - split.
    + destruct (at_eol s) eqn:E; [|discriminate]. intros Hk.
      exists [], s. auto.
    + intros (w & rest & -> & (-> & He) & Hk). simpl. now rewrite He.
Qed.

Lemma re_match_spec (r : regex) (s : pystr) :
  re_match r s = true <-> exists w rest, s = w ++ rest /\ lang r w rest.
Proof.
  unfold re_match.
  change (match re_run r s (fun _ => Some tt) with Some _ => true | None => false end)
    with (accepts (re_run r s (fun _ => Some tt))).
  rewrite re_run_spec. split.
  - intros (w & rest & Hs & Hl & _). eauto.
  - intros (w & rest & Hs & Hl). exists w, rest. auto.
Qed.

Lemma lang_alt_of_lits (ts : list pystr) (w rest : pystr) :
  lang (alt_of (map Lit ts)) w rest <-> In w ts.
Proof.
  induction ts as [|t ts IH]; simpl.
  - split; [|intros []]. intros (H & Hlo & Hhi).
    destruct w as [|c w]; simpl in *; [lia|discriminate].
  - destruct ts as [|t' ts].
    + simpl. intuition congruence.
    + change (map Lit (t' :: ts)) with (Lit t' :: map Lit ts).
      cbn [lang alt_of]. cbn [lang alt_of] in IH.
      change (alt_of (Lit t' :: map Lit ts)) with (alt_of (map Lit (t' :: ts))).
      rewrite IH. simpl. intuition congruence.
Qed.

End ReSpec.

(** ** scrape_hcr_to_epub.py: [is_date_title] *)

Module DateTitleClaim.
Import PyStr Re Common ScrapeHcr PyStrFacts ReFacts ReSpec.

Lemma at_eol_cases (s : pystr) : at_eol s = true <-> s = [] \/ s = nl.
Proof.
  destruct s as [|c [|c' s]]; simpl.
  - intuition.
  - rewrite eqb_char_true. unfold nl. intuition congruence.
  - split; [discriminate|]. intros [H|H]; discriminate.
Qed.

(** [is_date_title] accepts the date form, alone or followed by one line
    feed. *)
Lemma is_date_title_spec (title : pystr) :
  is_date_title title = true <->
  exists s tail, title = s ++ tail /\ date_form s /\ (tail = [] \/ tail = nl).
Proof.
  unfold is_date_title. rewrite re_match_spec. unfold date_pattern. split.
  - intros (w & rest & -> & Hl). cbn [lang] in Hl.
    destruct Hl as (month & w1 & -> & Hmonth & Hl).
    destruct Hl as (ws1 & w2 & -> & (Hs1 & Hn1 & _) & Hl).
    destruct Hl as (day & w3 & -> & (Hd & Hdlo & Hdhi) & Hl).
    destruct Hl as (comma & w4 & -> & -> & Hl).
    destruct Hl as (ws2 & w5 & -> & (Hs2 & Hn2 & _) & Hl).
    destruct Hl as (year & w6 & -> & (Hy & Hylo & Hyhi) & (-> & Heol)).
    apply lang_alt_of_lits in Hmonth. apply at_eol_cases in Heol.
    cbn [within] in Hdhi, Hyhi.
    exists (month ++ ws1 ++ day ++ lit "," ++ ws2 ++ year), rest.
    split; [now rewrite app_nil_r, <- !app_assoc|]. split; [|assumption].
    exists month, ws1, day, ws2, year.
    repeat split; auto; try lia.
    + intros ->. simpl in Hn1. lia.
    + intros ->. simpl in Hn2. lia.
  - intros (s & tail & -> & Hform & Htail).
    destruct Hform as (month & ws1 & day & ws2 & year & -> & Hm & Hw1 & Hs1
                       & Hd & Hdd & Hw2 & Hs2 & Hy & Hyd).
    exists (month ++ ws1 ++ day ++ lit "," ++ ws2 ++ year), tail.
    split; [reflexivity|]. unfold PlusOf, Between, Exactly. cbn [lang within].
    exists month, (ws1 ++ day ++ lit "," ++ ws2 ++ year).
    split; [reflexivity|]. split; [now apply lang_alt_of_lits|].
    exists ws1, (day ++ lit "," ++ ws2 ++ year).
    split; [reflexivity|]. split.
    { repeat split; auto. destruct ws1; [congruence|simpl; lia]. }
    exists day, (lit "," ++ ws2 ++ year).
    split; [reflexivity|]. split; [repeat split; auto; lia|].
    exists (lit ","), (ws2 ++ year).
    split; [reflexivity|]. split; [reflexivity|].
    exists ws2, year.
    split; [reflexivity|]. split.
    { repeat split; auto. destruct ws2; [congruence|simpl; lia]. }
    exists year, []. rewrite app_nil_r.
    split; [reflexivity|]. split; [repeat split; auto; lia|].
    split; [reflexivity|]. now apply at_eol_cases.
Qed.

Lemma endswith_app_nl (s : pystr) : endswith nl (s ++ nl) = true.
Proof. unfold endswith. rewrite rev_app_distr. reflexivity. Qed.

(** C5 as the claim words it fails: the pattern takes any run of white space
    where the claim has one blank, and its end anchor also holds before a line
    feed that ends the title.  Neither title is of the claimed form, and
    [is_date_title] returns True for both. *)
Lemma is_date_title_counterexample :
  is_date_title (lit "December  2, 2025") = true
  /\ claimed_date_form (lit "December  2, 2025") = false
  /\ is_date_title (lit "December 2, 2025" ++ nl) = true
  /\ claimed_date_form (lit "December 2, 2025" ++ nl) = false
  /\ claimed_date_form (lit "December 2, 2025") = true.
Proof. repeat split; vm_compute; reflexivity. Qed.

(** C5 (amended).  For a title that does not end in a line feed,
    [is_date_title] returns True exactly when the title is a full English
    month name, one or more white-space characters, a day of one or two
    digits, a comma, one or more white-space characters and a year of four
    digits, with nothing before the month name and nothing after the year. *)
Theorem is_date_title_exactly_date_form (title : pystr) :
  endswith nl title = false ->
  (is_date_title title = true <-> date_form title).
Proof.
  intros Hend. rewrite is_date_title_spec. split.
  - intros (s & tail & -> & Hform & [-> | ->]).
    + now rewrite app_nil_r.
    + now rewrite endswith_app_nl in Hend.
  - intros Hform. exists title, []. rewrite app_nil_r. auto.
Qed.

Lemma is_date_title_exactly_date_form_witness :
  endswith nl (lit "December 2, 2025") = false
  /\ is_date_title (lit "December 2, 2025") = true
  /\ date_form (lit "December 2, 2025").
Proof.
  split; [reflexivity|]. split; [reflexivity|].
  apply (is_date_title_exactly_date_form (lit "December 2, 2025") eq_refl).
  reflexivity.
Defined.

End DateTitleClaim.

(** ** convert_epub_to_xtc.py: [wait_for_download] *)

Module WaitClaim.
Import PyStr Converter.

Lemma wait_run_returned (fuel : nat) (dirs : nat -> directory)
    (timeout : timeout_value) (result : option pystr) (polls : nat) :
  wait_run fuel dirs timeout (Returned result polls) = Returned result polls.
Proof. induction fuel as [|fuel IH]; simpl; [reflexivity|exact IH]. Qed.

(** The naturals below a timeout are those below [rounds_allowed]. *)
Lemma rounds_allowed_spec (timeout : timeout_value) (k : nat) :
  rounds_allowed timeout = Some k ->
  forall j : nat, lt_timeout (Z.of_nat j) timeout = (j <? k)%nat.
Proof.
  intros H j. destruct timeout as [n|m e| | |]; cbn [rounds_allowed] in H;
    try discriminate; injection H as <-; cbn [lt_timeout].
  - destruct (Z.ltb_spec (Z.of_nat j) n), (Nat.ltb_spec j (Z.to_nat n));
      try reflexivity; lia.
  - destruct (Z.leb_spec 0 e).
    + destruct (Z.ltb_spec (Z.of_nat j) (m * 2 ^ e)),
        (Nat.ltb_spec j (Z.to_nat (m * 2 ^ e))); try reflexivity; lia.
    + assert (Hd : 0 < 2 ^ (- e)) by (apply Z.pow_pos_nonneg; lia).
      remember (2 ^ (- e)) as d eqn:Ed. clear Ed.
      pose proof (Z.div_mod (- m) d ltac:(lia)) as Hdm.
      pose proof (Z.mod_pos_bound (- m) d Hd) as Hr.
      remember (- m / d) as q eqn:Eq. remember ((- m) mod d) as r eqn:Er.
      clear Eq Er.
      destruct (Z.ltb_spec (Z.of_nat j * d) m),
        (Nat.ltb_spec j (Z.to_nat (- q))); try reflexivity; exfalso.
      * assert (0 <= d * (Z.of_nat j + q))
          by (apply Z.mul_nonneg_nonneg; lia).
        lia.
      * assert (d * (Z.of_nat j + q) <= d * (-1))
          by (apply Z.mul_le_mono_nonneg_l; lia).
        lia.
  - destruct j; reflexivity.
  - destruct j; reflexivity.
Qed.

(** With [seconds] equal to the rounds done, [k] rounds left before the
    timeout and more fuel than that, the machine returns what [rounds]
    computes. *)
Lemma wait_run_rounds (dirs : nat -> directory) (timeout : timeout_value)
    (k : nat) :
  forall (p fuel : nat),
    (forall j, (p <= j < p + k)%nat -> lt_timeout (Z.of_nat j) timeout = true) ->
    lt_timeout (Z.of_nat (p + k)) timeout = false ->
    (k < fuel)%nat ->
    wait_run fuel dirs timeout (Waiting (Z.of_nat p) p)
    = Returned (fst (rounds dirs p k)) (snd (rounds dirs p k)).
Proof.
  induction k as [|k IH]; intros p fuel Hlt Hend Hfuel.
  - destruct fuel as [|fuel]; [lia|]. simpl.
    rewrite Nat.add_0_r in Hend. rewrite Hend.
    apply wait_run_returned.
  - destruct fuel as [|fuel]; [lia|]. simpl.
    rewrite (Hlt p) by lia.
    destruct (poll (dirs p)) as [f|] eqn:E.
    + apply wait_run_returned.
    + replace (Z.of_nat p + 1) with (Z.of_nat (S p)) by lia.
      apply IH; [|now replace (S p + k)%nat with (p + S k)%nat by lia|lia].
      intros j Hj. apply Hlt. lia.
Qed.

(** With more fuel than the rounds the timeout allows, the loop has
    returned what [rounds] computes for them. *)
Lemma wait_for_download_allowed (dirs : nat -> directory)
    (timeout : timeout_value) (k fuel : nat) :
  rounds_allowed timeout = Some k -> (k < fuel)%nat ->
  wait_for_download_in fuel dirs timeout = Some (rounds dirs 0 k).
Proof.
  intros Hk Hfuel. unfold wait_for_download_in. change 0 with (Z.of_nat 0).
  rewrite (wait_run_rounds dirs timeout k).
  - now destruct (rounds dirs 0 k).
  - intros j Hj. rewrite (rounds_allowed_spec _ _ Hk). apply Nat.ltb_lt. lia.
  - rewrite (rounds_allowed_spec _ _ Hk). apply Nat.ltb_ge. lia.
  - exact Hfuel.
Qed.

(** Whatever the timeout, what the loop returns is what [rounds] computes
    for some number of rounds. *)
Lemma wait_run_some_rounds (dirs : nat -> directory) (timeout : timeout_value)
    (fuel : nat) :
  forall p result polls,
    wait_run fuel dirs timeout (Waiting (Z.of_nat p) p) = Returned result polls ->
    exists k, rounds dirs p k = (result, polls).
Proof.
  induction fuel as [|fuel IH]; intros p result polls; simpl; [discriminate|].
  destruct (lt_timeout (Z.of_nat p) timeout).
  - destruct (poll (dirs p)) as [f|] eqn:E.
    + rewrite wait_run_returned. intros [= <- <-]. exists 1%nat. simpl.
      now rewrite E.
    + replace (Z.of_nat p + 1) with (Z.of_nat (S p)) by lia.
      intros H. apply IH in H as [k Hk]. exists (S k). simpl. now rewrite E.
  - rewrite wait_run_returned. intros [= <- <-]. now exists 0%nat.
Qed.

Lemma filter_nil_iff {A : Type} (p : A -> bool) (l : list A) :
  List.filter p l = [] <-> forall x, In x l -> p x = false.
Proof.
  induction l as [|a l IH]; simpl; [tauto|].
  destruct (p a) eqn:E.
  - split; [discriminate|]. intros H. specialize (H a (or_introl eq_refl)).
    congruence.
  - rewrite IH. split.
    + intros H x [<-|Hx]; auto.
    + intros H x Hx. apply H. now right.
Qed.

(** A round returns a file when the directory holds no name that ends in
    [.crdownload]; the file is the first of the names that end in [.xtc],
    then those in [.xtg], in [.xth] and in [.xtch]. *)
Lemma poll_some (d : directory) (f : pystr) :
  poll d = Some f <->
  (forall name, In name d -> endswith (lit ".crdownload") name = false)
  /\ hd_error (List.filter (endswith (lit ".xtc")) d
               ++ List.filter (endswith (lit ".xtg")) d
               ++ List.filter (endswith (lit ".xth")) d
               ++ List.filter (endswith (lit ".xtch")) d) = Some f.
Proof.
  unfold poll, crdownload_files, output_files, glob_suffix.
  rewrite <- filter_nil_iff.
  destruct (List.filter (endswith (lit ".crdownload")) d) as [|c cs].
  - destruct (_ ++ _) as [|g gs]; cbn [hd_error].
    + split; [discriminate|]. intros [_ H]. discriminate.
    + split; [intros [= ->]|intros [_ [= ->]]]; auto.
  - split; [discriminate|]. intros [H _]. discriminate.
Qed.


Lemma rounds_spec (dirs : nat -> directory) (k : nat) :
  forall p,
    let '(result, polls) := rounds dirs p k in
    (polls <= p + k)%nat
    /\ ((result = None /\ polls = (p + k)%nat
         /\ forall i, (p <= i < p + k)%nat -> poll (dirs i) = None)
        \/ (exists i f,
               (p <= i < p + k)%nat /\ polls = S i /\ result = Some f
               /\ poll (dirs i) = Some f
               /\ forall j, (p <= j < i)%nat -> poll (dirs j) = None)).
Proof.
  induction k as [|k IH]; intros p; simpl.
  - split; [lia|]. left. repeat split; [lia|]. intros i Hi. lia.
  - destruct (poll (dirs p)) as [f|] eqn:E.
    + split; [lia|]. right. exists p, f. repeat split; try lia; auto.
    + specialize (IH (S p)). destruct (rounds dirs (S p) k) as [result polls].
      destruct IH as [Hle IH]. split; [lia|].
      destruct IH as [(-> & -> & Hn) | (i & f & Hi & -> & -> & Hf & Hn)].
      * left. repeat split; [lia|]. intros i Hi.
        destruct (Nat.eq_dec i p) as [->|Hne]; [assumption|]. apply Hn. lia.
      * right. exists i, f. repeat split; try lia; auto.
        intros j Hj. destruct (Nat.eq_dec j p) as [->|Hne]; [assumption|].
        apply Hn. lia.
Qed.




End WaitClaim.

(** ** upload_to_epaper.py: what [main] deletes *)

Module UploaderClaim.
Import PyStr Uploader PyStrFacts.

Lemma upload_file_true (fs : filesystem) (outcome : post_outcome) (p : pystr) :
  upload_file fs outcome p = true ->
  outcome = Response 200 /\ fs !! p <> None.
Proof.
  unfold upload_file. destruct (fs !! p) as [content|]; [|discriminate].
  destruct outcome as [status| |]; try discriminate.
  intros H. apply Z.eqb_eq in H. subst. split; [reflexivity|discriminate].
Qed.

Section World.
Variable net : nat -> post_outcome.
Variable can_remove : pystr -> bool.
Variable files_for : list pystr -> list pystr.
Variable rel_path_of : pystr -> pystr.
Variable sleep_returns : bool.

(** A file enters [uploaded_files] only through an upload that succeeded. *)
Lemma upload_loop_uploaded (fs : filesystem) (file_info : list (pystr * pystr)) :
  forall (i : nat) (st : upload_state) (item : pystr * pystr),
    In item (uploaded_files (fst (upload_loop net sleep_returns fs i file_info st))) ->
    In item (uploaded_files st)
    \/ exists j, nth_error file_info j = Some item
                 /\ upload_file fs (net (i + j)) (fst item) = true.
Proof.
  induction file_info as [|[file_path rel_path] rest IH]; intros i st item Hin.
  - now left.
  - cbn [upload_loop] in Hin.
    assert (Hfirst :
              forall st',
                st' = (if upload_file fs (net i) file_path
                       then {| success_count := S (success_count st);
                               fail_count := fail_count st;
                               uploaded_files :=
                                 uploaded_files st ++ [(file_path, rel_path)] |}
                       else {| success_count := success_count st;
                               fail_count := S (fail_count st);
                               uploaded_files := uploaded_files st |}) ->
                In item (uploaded_files st') ->
                In item (uploaded_files st)
                \/ exists j, nth_error ((file_path, rel_path) :: rest) j = Some item
                             /\ upload_file fs (net (i + j)) (fst item) = true).
    { intros st' -> H.
      destruct (upload_file fs (net i) file_path) eqn:E; cbn in H.
      - apply in_app_or in H as [H|[<-|[]]]; [now left|].
        right. exists 0%nat. rewrite Nat.add_0_r. split; [reflexivity|exact E].
      - now left. }
    destruct (nonempty_list rest && negb sleep_returns).
    + cbn [fst] in Hin. now apply (Hfirst _ eq_refl).
    + apply IH in Hin as [Hin|(j & Hj & Hu)].
      * now apply (Hfirst _ eq_refl).
      * right. exists (S j). split; [exact Hj|].
        now replace (i + S j)%nat with (S i + j)%nat by lia.
Qed.

(** When the loop comes to its end the counters count the files: every file
    is either uploaded or failed. *)
Lemma upload_loop_counts (fs : filesystem) (file_info : list (pystr * pystr)) :
  forall (i : nat) (st : upload_state),
    snd (upload_loop net sleep_returns fs i file_info st) = true ->
    (success_count (fst (upload_loop net sleep_returns fs i file_info st))
     + fail_count (fst (upload_loop net sleep_returns fs i file_info st))
     = success_count st + fail_count st + length file_info)%nat.
Proof.
  induction file_info as [|[file_path rel_path] rest IH]; intros i st.
  - simpl. lia.
  - cbn [upload_loop].
    destruct (nonempty_list rest && negb sleep_returns); [discriminate|].
    intros H. rewrite IH by exact H.
    destruct (upload_file fs (net i) file_path); simpl; lia.
Qed.

(** The cleaning removes files, and only files of its list. *)
Lemma cleanup_loop_lookup (files : list (pystr * pystr)) :
  forall (fs : filesystem) (n : nat) (q : pystr),
    fst (cleanup_loop can_remove fs files n) !! q = fs !! q
    \/ (fst (cleanup_loop can_remove fs files n) !! q = None
        /\ In q (map fst files)).
Proof.
  induction files as [|[file_path rel_path] rest IH]; intros fs n q.
  - now left.
  - cbn [cleanup_loop]. unfold os_remove.
    destruct (fs !! file_path) as [content|] eqn:E.
    + destruct (can_remove file_path).
      * destruct (IH (delete file_path fs) (S n) q) as [H|[H Hin]].
        -- rewrite H. destruct (decide (file_path = q)) as [->|Hne].
           ++ right. rewrite lookup_delete_eq. split; [reflexivity|now left].
           ++ left. now rewrite lookup_delete_ne.
        -- right. split; [exact H|now right].
      * destruct (IH fs n q) as [H|[H Hin]]; [now left|].
        right. split; [exact H|now right].
    + destruct (IH fs n q) as [H|[H Hin]]; [now left|].
      right. split; [exact H|now right].
Qed.

(** C4.  [main] changes the local files only by deleting: a file that is
    no longer as it was had an upload answered with status 200 (so
    [upload_file] returned True), and [--keep-files] was not given.  A file
    none of whose uploads was answered with status 200 stays as it was. *)
Theorem main_deletes_only_uploaded (fs : filesystem) (texts_dir_exists : bool)
    (argv : list pystr) (path : pystr) :
  let keep_files := fst (parse_args argv) in
  let ebook_files := files_for (snd (parse_args argv)) in
  let after := files_after (main net can_remove files_for rel_path_of
                              sleep_returns fs texts_dir_exists argv) in
  (after !! path = fs !! path \/ after !! path = None)
  /\ (after !! path <> fs !! path ->
      keep_files = false
      /\ exists i, nth_error ebook_files i = Some path
                   /\ net i = Response 200
                   /\ upload_file fs (net i) path = true)
  /\ ((forall i, nth_error ebook_files i = Some path -> net i <> Response 200) ->
      after !! path = fs !! path).
Proof.
  intros keep_files ebook_files after.
  assert (Hmain : after !! path = fs !! path
                  \/ (after !! path = None
                      /\ keep_files = false
                      /\ exists i, nth_error ebook_files i = Some path
                                   /\ net i = Response 200
                                   /\ upload_file fs (net i) path = true)).
  { subst after keep_files ebook_files. unfold main.
    destruct texts_dir_exists; [|now left]. cbn [negb].
    destruct (parse_args argv) as [keep args]. cbn [fst snd].
    destruct (files_for args) as [|f fs0] eqn:Ef; [now left|].
    set (file_info := map (fun p => (p, rel_path_of p)) (f :: fs0)).
    pose proof (upload_loop_uploaded fs file_info 0
                  {| success_count := 0; fail_count := 0; uploaded_files := [] |})
      as Hup.
    destruct (upload_loop net sleep_returns fs 0 file_info _) as [st ended].
    cbn [fst] in Hup.
    destruct ended; cbn [negb]; [|now left].
    destruct keep; cbn [negb andb]; [now left|].
    destruct (nonempty_list (uploaded_files st)); [|now left].
    pose proof (cleanup_loop_lookup (uploaded_files st) fs 0 path) as Hc.
    destruct (cleanup_loop can_remove fs (uploaded_files st) 0) as [fs' n].
    cbn [fst files_after] in *.
    destruct Hc as [Hc|[Hc Hin]]; [now left|].
    right. split; [exact Hc|]. split; [reflexivity|].
    apply in_map_iff in Hin as ([p r] & <- & Hin).
    apply Hup in Hin as [[]|(j & Hj & Hu)].
    cbn [fst] in *. exists j. unfold file_info in Hj.
    rewrite nth_error_map in Hj.
    destruct (nth_error (f :: fs0) j) as [p'|] eqn:Ej; [|discriminate].
    injection Hj as -> _. split; [reflexivity|].
    split; [|exact Hu]. now apply upload_file_true in Hu. }
  split; [|split].
  - destruct Hmain as [H|[H _]]; auto.
  - intros Hne. destruct Hmain as [H|(_ & H)]; [contradiction|exact H].
  - intros Hall. destruct Hmain as [H|(_ & _ & i & Hi & Hn & _)]; [exact H|].
    now apply Hall in Hi.
Qed.

End World.

End UploaderClaim.

(** ** scrape_hcr_to_epub.py: [is_full_letter] *)

Module FullLetterClaim.
Import PyStr PyDict Dom FullLetter.

(** [split] yields one word for each start of a word. *)
Lemma split_from_length (text : pystr) :
  forall cur,
    length (split_from cur text)
    = match cur with
      | [] => count_words_from false text
      | _ => S (count_words_from true text)
      end.
Proof.
  induction text as [|c text IH]; intros cur; simpl.
  - destruct cur; reflexivity.
  - destruct (isspace_char c).
    + destruct cur; simpl; now rewrite IH.
    + rewrite IH. destruct cur; reflexivity.
Qed.

Lemma py_split_length (text : pystr) :
  length (py_split text) = count_words text.
Proof. unfold py_split, count_words. now rewrite split_from_length. Qed.

(** C6.  For a post whose page shows no audio, podcast or video and has a
    content element, [is_full_letter] says full letter exactly when the number
    of white-space separated words of the extracted text is above
    [min_word_count]; a post with exactly [min_word_count] words is rejected. *)
Theorem is_full_letter_word_threshold (soup content_div : node)
    (min_word_count : Z) :
  has_podcast soup = false ->
  has_video soup = false ->
  find_content soup = Some content_div ->
  (is_full_letter (Page soup) min_word_count = true
   <-> min_word_count < Z.of_nat (count_words (get_text_strip content_div)))
  /\ (Z.of_nat (count_words (get_text_strip content_div)) = min_word_count ->
      is_full_letter (Page soup) min_word_count = false).
Proof.
  intros Hp Hv Hc. unfold is_full_letter. rewrite Hp, Hv, Hc.
  unfold word_count. rewrite py_split_length. split.
  - rewrite Z.gtb_ltb. apply Z.ltb_lt.
  - intros <-. rewrite Z.gtb_ltb. apply Z.ltb_irrefl.
Qed.

Lemma is_full_letter_word_threshold_witness :
  has_podcast Samples.sample_post = false
  /\ has_video Samples.sample_post = false
  /\ find_content Samples.sample_post = Some Samples.sample_post_content
  /\ count_words (get_text_strip Samples.sample_post_content) = 2%nat
  /\ is_full_letter (Page Samples.sample_post) 1 = true
  /\ is_full_letter (Page Samples.sample_post) 2 = false.
Proof.
  assert (Hp : has_podcast Samples.sample_post = false) by reflexivity.
  assert (Hv : has_video Samples.sample_post = false) by reflexivity.
  assert (Hc : find_content Samples.sample_post = Some Samples.sample_post_content)
    by reflexivity.
  assert (Hn : count_words (get_text_strip Samples.sample_post_content) = 2%nat)
    by reflexivity.
  repeat (split; [assumption|]).
  destruct (is_full_letter_word_threshold _ _ 1 Hp Hv Hc) as [H1 _].
  destruct (is_full_letter_word_threshold _ _ 2 Hp Hv Hc) as [_ H2].
  split.
  - apply H1. rewrite Hn. lia.
  - apply H2. now rewrite Hn.
Defined.

End FullLetterClaim.

(** ** Facts about the parsed page *)

Module DomFacts.
Import PyStr PyDict Dom PyStrFacts.

(** Induction on a tree, with the property at hand for every child. *)
Lemma node_induction (P : node -> Prop) :
  (forall s, P (Text s)) ->
  (forall name attrs contents,
      Forall P contents -> P (Elem name attrs contents)) ->
  forall n, P n.
Proof.
  intros Ht He. fix IH 1. intros [s|name attrs contents].
  - apply Ht.
  - apply He. induction contents as [|c cs IHcs]; constructor.
    + apply IH.
    + apply IHcs.
Qed.

Lemma eqb_strs_refl (l : list pystr) : eqb_strs l l = true.
Proof.
  induction l as [|x l IH]; simpl; [reflexivity|].
  now rewrite eqb_str_refl.
Qed.

Lemma attrs_eqb_refl (a : dict attr_value) : attrs_eqb a a = true.
Proof.
  unfold attrs_eqb. apply forallb_forall. intros k _.
  destruct (dict_get k a) as [[s|l]|]; simpl.
  - apply eqb_str_refl.
  - apply eqb_strs_refl.
  - reflexivity.
Qed.

(** A tag equals itself. *)
Lemma node_eqb_refl (n : node) : node_eqb n n = true.
Proof.
  induction n as [s|name attrs contents IH] using node_induction; simpl.
  - apply eqb_str_refl.
  - rewrite eqb_str_refl, attrs_eqb_refl. simpl.
    induction IH as [|c cs Hc _ IHcs]; [reflexivity|].
    now rewrite Hc, IHcs.
Qed.

(** Equal tags are of the same size. *)
Lemma node_eqb_size (a : node) :
  forall b, node_eqb a b = true -> node_size a = node_size b.
Proof.
  induction a as [s|name attrs contents IH] using node_induction;
    intros [t|name' attrs' contents']; simpl; try discriminate.
  - reflexivity.
  - intros H. apply andb_true_iff in H as [_ H]. f_equal.
    revert contents' H.
    induction IH as [|c cs Hc _ IHcs]; intros [|c' cs']; try discriminate.
    + reflexivity.
    + intros H. apply andb_true_iff in H as [H1 H2]. simpl.
      now rewrite (Hc _ H1), (IHcs _ H2).
Qed.

Lemma node_size_positive (n : node) : (0 < node_size n)%nat.
Proof. destruct n; simpl; lia. Qed.

(** What is below a tag is smaller than the tag. *)
Lemma descendants_smaller (x : node) :
  forall y, In y (descendants x) -> (node_size y < node_size x)%nat.
Proof.
  induction x as [s|name attrs contents IH] using node_induction;
    intros y; simpl; [intros []|].
  induction IH as [|c cs Hc _ IHcs]; simpl; [intros []|].
  intros [<-|H]; [lia|].
  apply in_app_or in H as [H|H].
  - specialize (Hc _ H). lia.
  - specialize (IHcs H). lia.
Qed.

(** A tag differs from what is below it. *)
Lemma descendant_differs (x y : node) :
  In y (descendants x) -> node_eqb x y = false.
Proof.
  intros H. apply descendants_smaller in H.
  destruct (node_eqb x y) eqn:E; [|reflexivity].
  apply node_eqb_size in E. lia.
Qed.

End DomFacts.

(** ** scrape_hn_to_epub.py: the filter of nested elements *)

Module ArticleFacts.
Import PyStr PyDict Dom ArticleContent DomFacts.

Lemma subtree_app (p q : list nat) :
  forall n, subtree n (p ++ q)
            = match subtree n p with
              | Some m => subtree m q
              | None => None
              end.
Proof.
  induction p as [|i p IH]; intros n; simpl; [reflexivity|].
  destruct n as [s|name attrs contents]; [reflexivity|].
  destruct (nth_error contents i); [apply IH|reflexivity].
Qed.

(** A place that is not empty leads to a descendant. *)
Lemma subtree_descendants (q : list nat) :
  forall x y, q <> [] -> subtree x q = Some y -> In y (descendants x).
Proof.
  induction q as [|i q IH]; intros x y Hq; [congruence|]. simpl.
  destruct x as [s|name attrs contents]; [discriminate|].
  destruct (nth_error contents i) as [c|] eqn:En; [|discriminate].
  intros H. apply nth_error_In in En. simpl. apply in_flat_map.
  exists c. split; [assumption|].
  destruct q as [|j q]; [injection H as <-; now left|].
  right. now apply IH.
Qed.

Lemma is_above_split (p : list nat) :
  forall q, is_above p q = true -> exists r, r <> [] /\ q = p ++ r.
Proof.
  unfold is_above. induction p as [|i p IH]; intros q H.
  - exists q. destruct q; [discriminate|]. split; [discriminate|reflexivity].
  - destruct q as [|j q]; [discriminate|]. simpl in H.
    apply andb_true_iff in H as [Hl H]. apply andb_true_iff in H as [Hij H].
    apply Nat.eqb_eq in Hij. subst j.
    destruct (IH q) as (r & Hr & ->).
    { apply andb_true_iff. split; assumption. }
    exists r. split; [assumption|reflexivity].
Qed.

Lemma find_children_in (names : list pystr) (find : node -> list element)
    (e : element) (cs : list node) :
  forall i, In e (find_children names find cs i) ->
    exists j c, nth_error cs j = Some c
      /\ (e = {| place := [(i + j)%nat]; markup := c |}
          \/ exists e', In e' (find c) /\ e = below (i + j) e').
Proof.
  induction cs as [|c cs IH]; intros i; simpl; [intros []|].
  intros H. apply in_app_or in H as [H|H].
  - exists 0%nat, c. split; [reflexivity|]. left. rewrite Nat.add_0_r.
    destruct (named_in names c); [|destruct H]. now destruct H as [<-|[]].
  - apply in_app_or in H as [H|H].
    + exists 0%nat, c. split; [reflexivity|]. right. rewrite Nat.add_0_r.
      apply in_map_iff in H as (e' & <- & He'). eauto.
    + apply IH in H as (j & c' & Hn & H). exists (S j), c'.
      split; [exact Hn|]. now rewrite Nat.add_succ_r.
Qed.

(** The place of a match leads to its markup. *)
Lemma find_all_place (names : list pystr) (content : node) :
  forall e, In e (find_all names content) ->
            place e <> [] /\ subtree content (place e) = Some (markup e).
Proof.
  induction content as [s|name attrs contents IH] using node_induction;
    intros e; simpl; [intros []|].
  intros H. apply find_children_in in H as (j & c & Hn & H). simpl in H.
  destruct H as [->|(e' & He' & ->)]; simpl.
  - rewrite Hn. split; [discriminate|reflexivity].
  - rewrite Hn. split; [discriminate|].
    rewrite List.Forall_forall in IH.
    now apply (IH c (nth_error_In _ _ Hn)).
Qed.

(** A match below another match is found nested. *)
Lemma is_nested_below (names : list pystr) (content : node)
    (element other : element) :
  In element (find_all names content) ->
  In other (find_all names content) ->
  is_above (place other) (place element) = true ->
  is_nested (find_all names content) element = true.
Proof.
  intros He Ho Ha. unfold is_nested. apply existsb_exists.
  exists other. split; [assumption|].
  apply is_above_split in Ha as (r & Hr & Hp).
  apply find_all_place in He as [_ He], Ho as [_ Ho].
  rewrite Hp, subtree_app, Ho in He.
  apply subtree_descendants in He; [|assumption].
  apply andb_true_iff. split.
  - now rewrite descendant_differs.
  - apply existsb_exists. exists (markup element).
    split; [assumption|apply node_eqb_refl].
Qed.

(** X15.  Every element the filter keeps is a descendant of no other matched
    element: what is nested inside a matched element is excluded. *)
Lemma top_level_elements_not_nested (names : list pystr) (content : node)
    (element : element) :
  In element (top_level_elements (find_all names content)) ->
  In element (not_nested_elements (find_all names content)).
Proof.
  unfold top_level_elements, not_nested_elements. rewrite !filter_In.
  intros [He Hn]. split; [assumption|].
  destruct (is_descendant_of_other _ element) eqn:E; [|reflexivity].
  unfold is_descendant_of_other in E.
  apply existsb_exists in E as (other & Ho & Ha).
  now rewrite (is_nested_below names content element other) in Hn.
Qed.

Lemma top_level_elements_not_nested_witness :
  In {| place := [1%nat];
        markup := Elem (lit "blockquote") []
                    [Elem (lit "p") [] [Text (lit "Hi")]] |}
     (not_nested_elements (find_all content_tags quoted_twice)).
Proof.
  apply top_level_elements_not_nested. vm_compute. left. reflexivity.
Defined.

End ArticleFacts.

Module ArticleClaim.
Import PyStr PyDict Dom ArticleContent.

(** C7 (the code departs from the claim).  In
    [<div><p>Hi</p><blockquote><p>Hi</p></blockquote></div>] three elements
    match: the first paragraph, the quote, and the paragraph in the quote.  The
    first paragraph is a descendant of no other element, so the claim keeps it
    along with the quote.  The filter drops it: its markup equals that of the
    paragraph in the quote, and the tests of line 109 compare markup. *)
Theorem top_level_elements_drops_equal_markup :
  map place (find_all content_tags quoted_twice) = [[0]; [1]; [1; 0]]%nat
  /\ map place (not_nested_elements (find_all content_tags quoted_twice))
     = [[0]; [1]]%nat
  /\ map place (top_level_elements (find_all content_tags quoted_twice))
     = [[1]]%nat.
Proof. split; [|split]; vm_compute; reflexivity. Qed.

End ArticleClaim.

(** ** bin/config_reader.py: further properties of the reader *)

Module ConfigReaderMore.
Import PyStr PyDict ConfigReader Common ConfigText ConfigChars.
Import PyStrFacts PyNumFacts PyDictFacts ConfigReaderFacts ConfigTextFacts.

Lemma parse_lines_app (a b : list pystr) :
  forall config,
    parse_lines config (a ++ b)
    = match parse_lines config a with
      | Ok config' => parse_lines config' b
      | Raise e => Raise e
      end.
Proof.
  induction a as [|l a IH]; intros config; simpl; [reflexivity|].
  destruct (parse_line config l); [apply IH|reflexivity].
Qed.

(** X1.  A line that is empty once stripped, that starts with [#], or that
    holds no [=] can be put anywhere in a file, or taken out of it: what is
    read stays the same. *)
Theorem read_config_skips_line (before after : list pystr) (line : pystr) :
  strip line = [] \/ startswith (lit "#") (strip line) = true
  \/ contains_char "=" (strip line) = false ->
  read_config_lines (before ++ line :: after)
  = read_config_lines (before ++ after).
Proof.
  intros H. unfold read_config_lines. rewrite !parse_lines_app.
  destruct (parse_lines [] before) as [config|e]; [|reflexivity].
  simpl. assert (parse_line config line = Ok config) as ->; [|reflexivity].
  destruct H as [H|[H|H]].
  - apply parse_line_skipped. now left.
  - apply parse_line_skipped. now right.
  - now apply parse_line_no_equals.
Qed.

Lemma read_config_skips_line_witness :
  read_config_lines [lit "A=1" ++ nl; lit "  # A=2 " ++ nl; lit "B=x" ++ nl]
  = read_config_lines [lit "A=1" ++ nl; lit "B=x" ++ nl].
Proof.
  apply (read_config_skips_line [lit "A=1" ++ nl] [lit "B=x" ++ nl]
           (lit "  # A=2 " ++ nl)).
  right. left. vm_compute. reflexivity.
Defined.

Lemma blank_no_equals (w : pystr) :
  blank w = true -> contains_char "=" w = false.
Proof.
  unfold blank, contains_char. induction w as [|c w IH]; [reflexivity|].
  cbn [forallb existsb]. intros H. apply andb_true_iff in H as [Hc Hw].
  rewrite (IH Hw), orb_false_r. apply eqb_char_false. intros <-. discriminate.
Qed.

Lemma strip_blank_right (s w : pystr) :
  blank w = true -> s <> [] -> is_stripped s = true -> strip (s ++ w) = s.
Proof.
  intros Hw Hne Hs. apply is_stripped_clean in Hs as [H1 H2].
  unfold strip, strip_by.
  rewrite lstrip_by_id by (now apply no_lead_app).
  rewrite rstrip_by_all by exact Hw. now apply rstrip_by_id.
Qed.

Lemma strip_blank_left (w s : pystr) :
  blank w = true -> is_stripped s = true -> strip (w ++ s) = s.
Proof.
  intros Hw Hs. apply is_stripped_clean in Hs as [H1 H2].
  unfold strip, strip_by. rewrite lstrip_by_all by exact Hw.
  rewrite lstrip_by_id by assumption. now apply rstrip_by_id.
Qed.

(** X2.  A line is cut at its first [=], and the white space around the key
    and around the value does not count: the line assigns the stripped key the
    conversion of the stripped text after the first [=], which may itself
    hold [=]. *)
Theorem parse_line_first_equals (config : dict pyval)
    (w1 w2 w3 w4 key value : pystr) :
  blank w1 = true -> blank w2 = true -> blank w3 = true -> blank w4 = true ->
  key <> [] -> is_stripped key = true -> contains_char "=" key = false ->
  startswith (lit "#") key = false ->
  is_stripped value = true ->
  parse_line config (w1 ++ key ++ w2 ++ lit "=" ++ w3 ++ value ++ w4)
  = match coerce value with
    | Ok v => Ok (dict_set key v config)
    | Raise e => Raise e
    end.
Proof.
  intros H1 H2 H3 H4 Hne Hk Heq Hhash Hv.
  pose proof Hk as Hk'. apply is_stripped_clean in Hk' as [Hk1 Hk2].
  set (value' := match value with [] => [] | _ => w3 ++ value end).
  assert (Hs : strip (w1 ++ key ++ w2 ++ lit "=" ++ w3 ++ value ++ w4)
               = (key ++ w2) ++ "="%char :: value').
  { unfold strip, strip_by. rewrite lstrip_by_all by exact H1.
    rewrite lstrip_by_id by (now apply no_lead_app).
    subst value'. destruct value as [|c value].
    - replace (key ++ w2 ++ lit "=" ++ w3 ++ [] ++ w4)
        with ((key ++ w2 ++ lit "=") ++ (w3 ++ w4))
        by (now rewrite <- !app_assoc).
      rewrite rstrip_by_all
        by (unfold blank in *; now rewrite forallb_app, H3, H4).
      rewrite rstrip_by_id; [now rewrite <- app_assoc|].
      rewrite app_assoc. apply no_trail_app; [discriminate|reflexivity].
    - replace (key ++ w2 ++ lit "=" ++ w3 ++ (c :: value) ++ w4)
        with (((key ++ w2 ++ lit "=" ++ w3) ++ c :: value) ++ w4)
        by (now rewrite <- !app_assoc).
      rewrite rstrip_by_all by exact H4.
      rewrite rstrip_by_id.
      + now rewrite <- !app_assoc.
      + apply no_trail_app; [discriminate|].
        now apply is_stripped_clean in Hv as [_ Hv]. }
  rewrite (parse_line_split config _ (key ++ w2) value').
  - rewrite (strip_blank_right key w2) by assumption.
    assert (strip value' = value) as ->; [|reflexivity].
    subst value'. destruct value as [|c value]; [reflexivity|].
    now apply strip_blank_left.
  - exact Hs.
  - rewrite contains_char_app, Heq. now apply blank_no_equals.
  - rewrite Hs. destruct key as [|c key]; [congruence|]. exact Hhash.
Qed.

Lemma parse_line_first_equals_witness :
  parse_line [] (lit "  URL " ++ lit "=" ++ lit " http://h/?a=b" ++ nl)
  = Ok [(lit "URL", VStr (lit "http://h/?a=b"))].
Proof.
  exact (parse_line_first_equals [] (lit "  ") (lit " ") (lit " ") nl
           (lit "URL") (lit "http://h/?a=b")
           eq_refl eq_refl eq_refl eq_refl ltac:(discriminate)
           eq_refl eq_refl eq_refl eq_refl).
Defined.

(** X3.  A later line overrides the earlier ones: after a line [key=value]
    at the end of a file the key has the value of that line, whatever the
    lines before gave it, and every other key has what it had. *)
Theorem read_config_last_line_wins (lines : list pystr) (config : dict pyval)
    (key value : pystr) (v : pyval) :
  read_config_lines lines = Ok config ->
  key_ok key = true -> is_stripped value = true -> coerce value = Ok v ->
  exists config',
    read_config_lines (lines ++ [key ++ lit "=" ++ value ++ nl]) = Ok config'
    /\ dict_get key config' = Some v
    /\ forall k, k <> key -> dict_get k config' = dict_get k config.
Proof.
  intros Hr Hk Hv Hc. exists (dict_set key v config).
  unfold read_config_lines in *. rewrite parse_lines_app, Hr.
  cbn [parse_lines]. rewrite parse_line_assignment, Hc by assumption.
  split; [reflexivity|]. split.
  - apply dict_get_set_same.
  - intros k Hne. apply dict_get_set_other. congruence.
Qed.

Lemma read_config_last_line_wins_witness :
  exists config',
    read_config_lines ([lit "A=1" ++ nl; lit "B=x" ++ nl] ++ [lit "A=no" ++ nl])
    = Ok config'
    /\ dict_get (lit "A") config' = Some (VStr (lit "no"))
    /\ forall k, k <> lit "A" ->
                 dict_get k config'
                 = dict_get k [(lit "A", VInt 1); (lit "B", VStr (lit "x"))].
Proof.
  exact (read_config_last_line_wins [lit "A=1" ++ nl; lit "B=x" ++ nl]
           [(lit "A", VInt 1); (lit "B", VStr (lit "x"))]
           (lit "A") (lit "no") (VStr (lit "no"))
           eq_refl eq_refl eq_refl eq_refl).
Defined.

(** *** When reading fails *)

Lemma lstrip_by_in (p : ascii -> bool) (c : ascii) (s : pystr) :
  In c (lstrip_by p s) -> In c s.
Proof.
  induction s as [|x s IH]; simpl; [tauto|].
  destruct (p x); [|tauto]. intros H. right. now apply IH.
Qed.

Lemma strip_in (c : ascii) (s : pystr) : In c (strip s) -> In c s.
Proof.
  unfold strip, strip_by, rstrip_by. intros H.
  apply in_rev, lstrip_by_in, in_rev in H. now apply lstrip_by_in in H.
Qed.

Lemma digits_decimal_sub (s t : pystr) :
  (forall c, In c s -> In c t) -> digits_decimal t = true ->
  digits_decimal s = true.
Proof.
  unfold digits_decimal. rewrite !forallb_forall. auto.
Qed.

Lemma lstrip_by_shorter (p : ascii -> bool) (s : pystr) :
  (length (lstrip_by p s) <= length s)%nat.
Proof.
  induction s as [|x s IH]; cbn [lstrip_by length]; [lia|].
  destruct (p x); cbn [length]; lia.
Qed.

Lemma strip_shorter (s : pystr) : (length (strip s) <= length s)%nat.
Proof.
  unfold strip, strip_by, rstrip_by. rewrite length_rev.
  pose proof (lstrip_by_shorter isspace_char (rev (lstrip_by isspace_char s))) as H1.
  pose proof (lstrip_by_shorter isspace_char s) as H2.
  rewrite length_rev in H1. lia.
Qed.

(** The conversion of a text with decimal digits only, no longer than the
    limit of [int], does not fail. *)
Lemma coerce_digits_decimal (value : pystr) :
  digits_decimal value = true ->
  Z.of_nat (length value) <= int_max_str_digits ->
  exists v, coerce value = Ok v.
Proof.
  intros Hd Hlen. destruct (isdigit value) eqn:E.
  - destruct value as [|c value]; [discriminate|].
    destruct (coerce_decimal (c :: value)) as (n & _ & Hn);
      [discriminate| |exact Hlen|eauto].
    unfold isdigit in E. unfold digits_decimal in Hd.
    rewrite forallb_forall in *. intros x Hx.
    specialize (E x Hx). specialize (Hd x Hx). rewrite E in Hd. exact Hd.
  - unfold coerce. rewrite E.
    destruct (is_bool_text value); [eauto|].
    destruct (py_float_ok value); eauto.
Qed.

Lemma parse_line_digits_decimal (config : dict pyval) (line : pystr) :
  digits_decimal line = true ->
  Z.of_nat (length line) <= int_max_str_digits ->
  exists config', parse_line config line = Ok config'.
Proof.
  intros Hd Hlen. unfold parse_line.
  destruct (negb (nonempty (strip line)) || startswith (lit "#") (strip line));
    [eauto|].
  destruct (contains_char "=" (strip line)) eqn:E; [|eauto].
  apply contains_char_split in E as (key & value & Hs & Hk).
  rewrite Hs. cbn [split_max]. rewrite break_at_found by exact Hk.
  destruct (coerce_digits_decimal (strip value)) as [v Hv]; [| |rewrite Hv; eauto].
  - apply (digits_decimal_sub _ line); [|exact Hd].
    intros c Hc. apply strip_in. rewrite Hs. apply in_or_app. right. right.
    now apply strip_in.
  - pose proof (strip_shorter value) as H1.
    pose proof (strip_shorter line) as H2.
    rewrite Hs, length_app in H2. cbn [length] in H2. lia.
Qed.

Lemma parse_lines_digits_decimal (lines : list pystr) :
  forall config,
    forallb digits_decimal lines = true ->
    forallb (fun line => Z.of_nat (length line) <=? int_max_str_digits) lines
    = true ->
    exists config', parse_lines config lines = Ok config'.
Proof.
  induction lines as [|l lines IH]; intros config H Hlen; simpl; [eauto|].
  cbn [forallb] in H, Hlen.
  apply andb_true_iff in H as [Hl Hls].
  apply andb_true_iff in Hlen as [Hlen Hlens]. apply Z.leb_le in Hlen.
  destruct (parse_line_digits_decimal config l Hl Hlen) as [c1 ->]. now apply IH.
Qed.

Lemma digits_decimal_app (a b : pystr) :
  digits_decimal (a ++ b) = digits_decimal a && digits_decimal b.
Proof. apply forallb_app. Qed.

Lemma file_lines_digits_decimal_upto (n : nat) :
  forall text cur,
    (length text <= n)%nat ->
    digits_decimal cur = true -> digits_decimal text = true ->
    forallb digits_decimal (file_lines_from cur text) = true.
Proof.
  induction n as [|n IH]; intros text cur Hlen Hcur Ht.
  { destruct text; [|simpl in Hlen; lia].
    destruct cur; [reflexivity|]; cbn [file_lines_from forallb]; now rewrite Hcur. }
  destruct text as [|c text];
    [destruct cur; [reflexivity|]; cbn [file_lines_from forallb]; now rewrite Hcur|].
  change (digits_decimal (c :: text))
    with ((negb (isdigit_char c) || isdecimal_char c) && digits_decimal text) in Ht.
  apply andb_true_iff in Ht as [Hc Ht]. simpl in Hlen.
  cbn [file_lines_from].
  assert (Hnl : digits_decimal (cur ++ ["010"%char]) = true)
    by (now rewrite digits_decimal_app, Hcur).
  destruct (eqb_char c "010").
  { cbn [forallb]. rewrite Hnl. apply IH; [lia|reflexivity|exact Ht]. }
  destruct (eqb_char c "013").
  { destruct text as [|c' text]; [cbn [forallb]; now rewrite Hnl|].
    change (digits_decimal (c' :: text))
      with ((negb (isdigit_char c') || isdecimal_char c') && digits_decimal text) in Ht.
    pose proof Ht as Ht'. apply andb_true_iff in Ht' as [_ Ht'].
    simpl in Hlen.
    destruct (eqb_char c' "010"); cbn [forallb]; rewrite Hnl;
      apply IH; simpl; try lia; auto. }
  apply IH; [lia| |exact Ht].
  rewrite digits_decimal_app, Hcur. simpl. now rewrite Hc.
Qed.

Lemma file_lines_digits_decimal (text : pystr) :
  digits_decimal text = true ->
  forallb digits_decimal (file_lines text) = true.
Proof.
  intros H. now apply (file_lines_digits_decimal_upto (length text)).
Qed.

(** X4.  A config file that exists, holds no superscript digit (every
    character [isdigit] accepts is one of 0-9) and has no line of more than
    4300 characters, the digits [int] reads at most, is read without an
    exception, whatever its lines are. *)
Theorem read_config_file_decimal_digits_ok (dir : config_dir)
    (filename text : pystr) :
  dir !! filename = Some text -> digits_decimal text = true ->
  forallb (fun line => Z.of_nat (length line) <=? 4300) (file_lines text) = true ->
  exists config, read_config_file dir filename = Ok config.
Proof.
  intros Hf Hd Hlen. unfold read_config_file, read_config_lines.
  rewrite Hf. apply parse_lines_digits_decimal; [|exact Hlen].
  now apply file_lines_digits_decimal.
Qed.

Lemma read_config_file_decimal_digits_ok_witness :
  exists config,
    read_config_file Samples.sample_config_dir (lit "secrets.config") = Ok config.
Proof.
  exact (read_config_file_decimal_digits_ok Samples.sample_config_dir
           (lit "secrets.config") Samples.sample_secrets_config
           eq_refl eq_refl eq_refl).
Defined.

Lemma parse_lines_raise (lines : list pystr) :
  forall config e, parse_lines config lines = Raise e -> e = ValueError.
Proof.
  induction lines as [|l lines IH]; intros config e; simpl; [discriminate|].
  destruct (parse_line config l) as [c1|e1] eqn:E; [apply IH|].
  intros [= <-]. revert E. unfold parse_line.
  destruct (negb (nonempty (strip l)) || startswith (lit "#") (strip l));
    [discriminate|].
  destruct (contains_char "=" (strip l)); [|discriminate].
  destruct (split_max "=" 1 (strip l)) as [|k [|v [|? ?]]];
    try (now intros [= <-]).
  destruct (coerce (strip v)) as [x|e2] eqn:Ec; [discriminate|].
  intros [= <-]. now apply coerce_raises in Ec as (_ & _ & ->).
Qed.

(** X5.  [get_config] raises [FileNotFoundError] exactly when
    application.config is missing: a missing secrets.config is never fatal,
    and a file that is there fails, if at all, with [ValueError]. *)
Theorem get_config_file_not_found (dir : config_dir) :
  get_config dir = Raise FileNotFoundError
  <-> dir !! lit "application.config" = None.
Proof.
  unfold get_config, read_config_file, read_config_lines. split.
  - destruct (dir !! lit "application.config") as [text|]; [|reflexivity].
    destruct (parse_lines [] (file_lines text)) as [app|e] eqn:Ea.
    + destruct (dir !! lit "secrets.config") as [text'|]; [|discriminate].
      destruct (parse_lines [] (file_lines text')) as [sec|e] eqn:Es;
        [discriminate|].
      apply parse_lines_raise in Es. subst e. discriminate.
    + apply parse_lines_raise in Ea. subst e. discriminate.
  - now intros ->.
Qed.

End ConfigReaderMore.

(** ** secrets.config: the round trip *)

Module SecretsRoundTrip.
Import PyStr PyDict ConfigReader Common UiHelpers ConfigText SecretsConfig.
Import PyStrFacts PyNumFacts PyDictFacts ConfigReaderFacts ConfigTextFacts
  ConfigRoundTrip.



Section Written.
Variable float_str : pystr -> pystr.




End Written.





End SecretsRoundTrip.

(** ** application.config: every setting is written once *)

Module ConfigKeysFacts.
Import PyStr PyDict Re ConfigReader Common UiHelpers ConfigText ConfigKeys.
Import PyStrFacts PyNumFacts PyDictFacts ConfigReaderFacts ConfigTextFacts
  ConfigLinesFacts ConfigRoundTrip.






(** *** Lists without repetition *)











(** *** Dictionaries of lists *)





(** *** The scraper categories *)

Section Categories.
Variable title : pystr -> pystr.









End Categories.

(** *** The keys of the file *)




Section Written.
Variable title : pystr -> pystr.
Variable float_str : pystr -> pystr.



End Written.



End ConfigKeysFacts.

(** ** application.config: a value that cannot be written *)

Module ConfigFailure.
Import PyStr PyDict Re ConfigReader Common UiHelpers ConfigText.
Import PyStrFacts PyNumFacts PyDictFacts ConfigReaderFacts ConfigTextFacts
  ConfigLinesFacts ConfigRoundTrip.

Lemma written_prefix_all (ls : list cline) :
  forallb line_formats ls = true -> written_prefix ls = ls.
Proof.
  induction ls as [|l ls IH]; [reflexivity|]. cbn [forallb written_prefix].
  intros H. apply andb_true_iff in H as [-> H]. now rewrite IH.
Qed.

Lemma written_prefix_app (a b : list cline) :
  written_prefix (a ++ b)
  = if forallb line_formats a then a ++ written_prefix b else written_prefix a.
Proof.
  induction a as [|l a IH]; [reflexivity|].
  cbn [app forallb written_prefix]. destruct (line_formats l); [|reflexivity].
  cbn [andb]. rewrite IH. now destruct (forallb line_formats a).
Qed.

(** The lines written are the first lines, and each of them can be
    written; what follows them starts with a line that cannot. *)
Lemma written_prefix_split (ls : list cline) :
  exists rest,
    ls = written_prefix ls ++ rest
    /\ forallb line_formats (written_prefix ls) = true
    /\ (forallb line_formats ls = false ->
        exists l more, rest = l :: more /\ line_formats l = false).
Proof.
  induction ls as [|l ls (rest & Hs & Hw & Hf)].
  - exists []. repeat split; discriminate.
  - cbn [written_prefix forallb]. destruct (line_formats l) eqn:E.
    + exists rest. cbn [app forallb andb]. rewrite E.
      repeat split; [now rewrite <- Hs|exact Hw|exact Hf].
    + exists (l :: ls). repeat split. intros _. now exists l, ls.
Qed.

Section Written.
Variable title : pystr -> pystr.
Variable float_str : pystr -> pystr.

Abbreviation render' := (render float_str).
Abbreviation write_lines' := (write_lines float_str).

Lemma write_lines_nil (text : pystr) (written : list pystr) :
  write_lines' [] text written = Writing (text, written).
Proof. unfold write_lines. simpl. now rewrite app_nil_r. Qed.

(** A line that can be written goes to the text. *)
Lemma write_lines_cons (l : cline) (ls : list cline) (text : pystr)
    (written : list pystr) :
  line_formats l = true ->
  write_lines' (l :: ls) text written
  = write_lines' ls (text ++ render_line float_str l ++ nl) written.
Proof.
  intros H. unfold write_lines. cbn [forallb written_prefix]. rewrite H.
  cbn [andb]. rewrite !render_cons.
  destruct (forallb line_formats ls); now rewrite <- !app_assoc.
Qed.

(** A line that cannot be written ends the writing. *)
Lemma write_lines_stop (l : cline) (ls : list cline) (text : pystr)
    (written : list pystr) :
  line_formats l = false ->
  write_lines' (l :: ls) text written = Stopped text.
Proof.
  intros H. unfold write_lines. cbn [forallb written_prefix]. rewrite H.
  simpl. now rewrite app_nil_r.
Qed.

Lemma write_lines_app (a b : list cline) (text : pystr) (written : list pystr) :
  write_lines' (a ++ b) text written
  = if forallb line_formats a then write_lines' b (text ++ render' a) written
    else Stopped (text ++ render' (written_prefix a)).
Proof.
  unfold write_lines. rewrite forallb_app, written_prefix_app.
  destruct (forallb line_formats a); [|reflexivity]. cbn [andb].
  rewrite !render_app. destruct (forallb line_formats b);
    now rewrite <- !app_assoc.
Qed.

Lemma write_keys_stopped (config_values : dict pyval) (keys : list pystr)
    (text : pystr) :
  write_keys float_str config_values keys (Stopped text) = Stopped text.
Proof. unfold write_keys. induction keys; [reflexivity|exact IHkeys]. Qed.

Lemma write_categories_stopped (config_values : dict pyval)
    (categories : dict (list pystr)) (text : pystr) :
  write_categories float_str config_values categories (Stopped text)
  = Stopped text.
Proof.
  unfold write_categories. induction categories as [|item categories IH];
    [reflexivity|].
  cbn [fold_left f_write]. rewrite write_keys_stopped. exact IH.
Qed.

Lemma write_other_stopped (config_values : dict pyval) (keys : list pystr)
    (text : pystr) :
  fold_left (write_other float_str config_values) keys (Stopped text)
  = Stopped text.
Proof. induction keys; [reflexivity|exact IHkeys]. Qed.

(** The keys of a category: the lines written, and the keys noted. *)
Lemma write_keys_written (config_values : dict pyval) (keys : list pystr) :
  forall st : wstate,
  exists written,
    write_keys float_str config_values keys (Writing st)
    = write_lines' (keys_lines config_values keys) (fst st) written
    /\ forall k, mem_str k written
                 = mem_str k (present_keys config_values keys) || mem_str k (snd st).
Proof.
  induction keys as [|key keys IH]; intros [text written0].
  - exists written0. split; [now rewrite write_lines_nil|reflexivity].
  - unfold write_keys in *.
    cbn [fold_left keys_lines present_keys flat_map List.filter fst snd write_key].
    unfold dict_mem.
    destruct (dict_get key config_values) as [value|] eqn:E.
    + change ([CAssign key value] ++ ?x) with (CAssign key value :: x).
      destruct (formats value) eqn:Ef.
      * rewrite (py_format_text float_str _ Ef).
        destruct (IH (text ++ key ++ lit "=" ++ value_text float_str value ++ nl,
                      key :: written0)) as (written & Hw & Hm).
        exists written. split.
        -- rewrite Hw, write_lines_cons by exact Ef. cbn [fst render_line].
           now rewrite <- !app_assoc.
        -- intros k. rewrite Hm. cbn [snd]. unfold present_keys, dict_mem.
           simpl. destruct (eqb_str k key), (mem_str k _), (mem_str k written0);
             reflexivity.
      * rewrite (py_format_raises float_str _ Ef).
        exists (key :: present_keys config_values keys ++ written0). split.
        -- rewrite write_lines_stop by exact Ef.
           apply (write_keys_stopped config_values keys).
        -- intros k. unfold present_keys, dict_mem. simpl.
           rewrite mem_str_app. destruct (eqb_str k key); reflexivity.
    + destruct (IH (text, written0)) as (written & Hw & Hm).
      exists written. split; [exact Hw|]. intros k. now rewrite Hm.
Qed.

Lemma categories_lines_cons (config_values : dict pyval) (category : pystr)
    (keys : list pystr) (categories : dict (list pystr)) (text : pystr)
    (written : list pystr) :
  write_lines' (categories_lines config_values ((category, keys) :: categories))
    text written
  = if forallb line_formats (keys_lines config_values keys)
    then write_lines' (categories_lines config_values categories)
           (((text ++ lit "# " ++ category ++ nl)
             ++ render' (keys_lines config_values keys)) ++ nl) written
    else Stopped ((text ++ lit "# " ++ category ++ nl)
                  ++ render' (written_prefix (keys_lines config_values keys))).
Proof.
  unfold categories_lines. cbn [flat_map fst snd].
  change ((CComment category :: ?x) ++ ?y) with (CComment category :: x ++ y).
  rewrite write_lines_cons by reflexivity. cbn [render_line].
  rewrite <- app_assoc, write_lines_app.
  replace (text ++ (lit "# " ++ category) ++ nl)
    with (text ++ lit "# " ++ category ++ nl) by now rewrite <- !app_assoc.
  destruct (forallb line_formats (keys_lines config_values keys)); [|reflexivity].
  change (CBlank :: ?x) with ([CBlank] ++ x).
  rewrite write_lines_app. cbn [forallb line_formats andb].
  change (render' [CBlank]) with nl. reflexivity.
Qed.

Lemma write_categories_written (config_values : dict pyval)
    (categories : dict (list pystr)) :
  forall st : wstate,
  exists written,
    write_categories float_str config_values categories (Writing st)
    = write_lines' (categories_lines config_values categories) (fst st) written
    /\ forall k, mem_str k written
                 = mem_str k (categories_written config_values categories)
                   || mem_str k (snd st).
Proof.
  induction categories as [|[category keys] categories IH]; intros [text written0].
  - exists written0. split; [now rewrite write_lines_nil|reflexivity].
  - destruct (write_keys_written config_values keys
                (text ++ lit "# " ++ category ++ nl, written0))
      as (w1 & Hw1 & Hm1).
    cbn [fst snd] in Hw1, Hm1.
    assert (Hstep : write_categories float_str config_values
                      ((category, keys) :: categories) (Writing (text, written0))
                    = write_categories float_str config_values categories
                        (f_write nl
                           (write_lines' (keys_lines config_values keys)
                              (text ++ lit "# " ++ category ++ nl) w1))).
    { unfold write_categories. cbn [fold_left fst snd f_write].
      now rewrite Hw1. }
    rewrite Hstep. cbn [fst snd]. unfold write_lines at 1.
    destruct (forallb line_formats (keys_lines config_values keys)) eqn:Ef.
    + cbn [f_write fst snd].
      destruct (IH (((text ++ lit "# " ++ category ++ nl)
                     ++ render' (keys_lines config_values keys)) ++ nl, w1))
        as (written & Hw & Hm).
      exists written. split.
      * rewrite Hw, categories_lines_cons, Ef. reflexivity.
      * intros k. rewrite Hm. cbn [snd]. rewrite Hm1.
        unfold categories_written. cbn [flat_map snd]. rewrite mem_str_app.
        repeat match goal with
               | |- context [mem_str k ?x] => destruct (mem_str k x)
               end; reflexivity.
    + cbn [f_write].
      exists (categories_written config_values ((category, keys) :: categories)
              ++ written0).
      split.
      * rewrite categories_lines_cons, Ef.
        apply (write_categories_stopped config_values categories).
      * intros k. now rewrite mem_str_app.
Qed.

Lemma write_rest_written (config_values : dict pyval) (keys : list pystr) :
  forall st : wstate,
    fold_left (write_other float_str config_values) keys (Writing st)
    = write_lines' (keys_lines config_values keys) (fst st) (snd st).
Proof.
  induction keys as [|key keys IH]; intros [text written0]; cbn [fold_left].
  - now rewrite write_lines_nil.
  - cbn [keys_lines flat_map write_other fst snd].
    destruct (dict_get key config_values) as [value|] eqn:E.
    + change ([CAssign key value] ++ ?x) with (CAssign key value :: x).
      destruct (formats value) eqn:Ef.
      * rewrite (py_format_text float_str _ Ef), IH.
        rewrite write_lines_cons by exact Ef. cbn [fst snd render_line].
        now rewrite <- !app_assoc.
      * rewrite (py_format_raises float_str _ Ef), write_other_stopped.
        now rewrite write_lines_stop by exact Ef.
    + now rewrite IH.
Qed.

Lemma write_uncategorized_written (config_values : dict pyval) (st : wstate)
    (written : list pystr) :
  (forall k, mem_str k (snd st) = mem_str k written) ->
  write_uncategorized float_str config_values (Writing st)
  = write_lines' (uncategorized_lines config_values written) (fst st) (snd st).
Proof.
  intros Hm. unfold write_uncategorized, uncategorized_lines.
  rewrite (filter_ext _ (fun k => negb (mem_str k written)))
    by (intros k; now rewrite Hm).
  destruct (List.filter _ (dict_keys config_values)) as [|u us].
  - rewrite write_lines_nil. now destruct st.
  - cbn [f_write]. rewrite write_rest_written. cbn [fst snd].
    rewrite write_lines_cons by reflexivity. cbn [render_line].
    rewrite write_lines_app.
    replace (fst st ++ (lit "# " ++ lit "Other Settings") ++ nl)
      with (fst st ++ lit "# Other Settings" ++ nl) by reflexivity.
    unfold write_lines at 1.
    destruct (forallb line_formats _); cbn [f_write fst snd]; [|reflexivity].
    unfold write_lines. cbn [forallb line_formats andb].
    change (render' [CBlank]) with nl. reflexivity.
Qed.

(** The writing of application.config is that of [config_lines]: all of
    them, or those before the first value that cannot be formatted. *)
Lemma config_text_written (config_values : dict pyval) :
  exists written,
    config_text title float_str config_values
    = write_lines' (config_lines title config_values) [] written.
Proof.
  unfold config_text, config_lines, get_all_config_categories.
  destruct (write_categories_written config_values CORE_CONFIG_CATEGORIES
              (config_header, [])) as (w1 & H1 & M1).
  rewrite H1. cbn [fst].
  set (core := categories_lines config_values CORE_CONFIG_CATEGORIES).
  set (scraper := categories_lines config_values
                    (get_scraper_categories title config_values)).
  set (other := uncategorized_lines config_values _).
  assert (Hhead : forall ls w,
             write_lines' (header_lines ++ ls) [] w
             = write_lines' ls config_header w).
  { intros ls w. rewrite write_lines_app. reflexivity. }
  unfold write_lines at 1.
  destruct (forallb line_formats core) eqn:Ec.
  - destruct (write_categories_written config_values
                (get_scraper_categories title config_values)
                (config_header ++ render' core, w1)) as (w2 & H2 & M2).
    rewrite H2. cbn [fst]. fold scraper.
    unfold write_lines at 1.
    destruct (forallb line_formats scraper) eqn:Es.
    + rewrite (write_uncategorized_written _ _
                 (categories_written config_values CORE_CONFIG_CATEGORIES
                  ++ categories_written config_values
                       (get_scraper_categories title config_values))).
      * exists w2. cbn [fst snd]. fold other.
        rewrite Hhead, !write_lines_app, Ec, Es. now rewrite <- !app_assoc.
      * intros k. cbn [snd]. rewrite M2. cbn [snd]. rewrite M1, mem_str_app.
        cbn [snd]. simpl (mem_str k []). rewrite orb_false_r. apply orb_comm.
    + exists []. cbn [write_uncategorized].
      rewrite Hhead, !write_lines_app, Ec, Es. now rewrite <- !app_assoc.
  - exists []. rewrite write_categories_stopped. cbn [write_uncategorized].
    now rewrite Hhead, !write_lines_app, Ec.
Qed.

End Written.

End ConfigFailure.

(** ** upload_to_epaper.py: the summary and the cleaning *)

Module UploaderMore.
Import PyStr Uploader PyStrFacts.

Section World.
Variable net : nat -> post_outcome.
Variable can_remove : pystr -> bool.
Variable files_for : list pystr -> list pystr.
Variable rel_path_of : pystr -> pystr.
Variable sleep_returns : bool.

(** [success_count] is the length of [uploaded_files]. *)
Lemma upload_loop_success (fs : filesystem) (file_info : list (pystr * pystr)) :
  forall (i : nat) (st : upload_state),
    success_count st = length (uploaded_files st) ->
    success_count (fst (upload_loop net sleep_returns fs i file_info st))
    = length (uploaded_files (fst (upload_loop net sleep_returns fs i file_info st))).
Proof.
  induction file_info as [|[file_path rel_path] rest IH]; intros i st H.
  - exact H.
  - cbn [upload_loop].
    assert (Hst : forall st',
               st' = (if upload_file fs (net i) file_path
                      then {| success_count := S (success_count st);
                              fail_count := fail_count st;
                              uploaded_files :=
                                uploaded_files st ++ [(file_path, rel_path)] |}
                      else {| success_count := success_count st;
                              fail_count := S (fail_count st);
                              uploaded_files := uploaded_files st |}) ->
               success_count st' = length (uploaded_files st')).
    { intros st' ->. destruct (upload_file fs (net i) file_path); cbn; [|exact H].
      rewrite length_app. simpl. lia. }
    destruct (nonempty_list rest && negb sleep_returns).
    + cbn [fst]. now apply Hst.
    + apply IH. now apply Hst.
Qed.

(** The loop comes to its end when the delay returns, and when there is one
    file at most. *)
Lemma upload_loop_ends (fs : filesystem) (file_info : list (pystr * pystr)) :
  forall (i : nat) (st : upload_state),
    sleep_returns = true \/ (length file_info <= 1)%nat ->
    snd (upload_loop net sleep_returns fs i file_info st) = true.
Proof.
  induction file_info as [|[file_path rel_path] rest IH]; intros i st H.
  - reflexivity.
  - cbn [upload_loop]. destruct H as [H|H].
    + assert (nonempty_list rest && negb sleep_returns = false) as ->
        by (rewrite H; apply andb_false_r).
      apply IH. now left.
    + destruct rest as [|x rest]; [reflexivity|]. simpl in H. lia.
Qed.

Lemma cleanup_loop_count (files : list (pystr * pystr)) :
  forall (fs : filesystem) (n : nat),
    (n <= snd (cleanup_loop can_remove fs files n) <= n + length files)%nat.
Proof.
  induction files as [|[file_path rel_path] rest IH]; intros fs n.
  - simpl. lia.
  - cbn [cleanup_loop]. destruct (os_remove can_remove fs file_path) as [fs'|].
    + specialize (IH fs' (S n)). simpl. lia.
    + specialize (IH fs n). simpl. lia.
Qed.

(** X9.  The summary of [main] adds up: when [main] returns, every file
    found is counted once, as uploaded or as failed; no more files are deleted
    than were uploaded; and with [--keep-files] nothing is deleted and the
    local files stay as they were.  [main] returns when the delay between
    two uploads does not raise. *)
Theorem main_summary_adds_up (fs : filesystem) (argv : list pystr) :
  let r := main net can_remove files_for rel_path_of sleep_returns fs true argv in
  (completed r = true ->
   (uploaded r + failed r = length (files_for (snd (parse_args argv))))%nat)
  /\ (deleted r <= uploaded r)%nat
  /\ (fst (parse_args argv) = true -> deleted r = 0%nat /\ files_after r = fs)
  /\ (sleep_returns = true -> completed r = true).
Proof.
  unfold main. cbn [negb].
  destruct (parse_args argv) as [keep args]. cbn [fst snd].
  destruct (files_for args) as [|f fs0] eqn:Ef.
  { cbn. repeat split; lia. }
  set (file_info := map (fun p => (p, rel_path_of p)) (f :: fs0)).
  pose proof (UploaderClaim.upload_loop_counts net sleep_returns fs file_info 0
                {| success_count := 0; fail_count := 0; uploaded_files := [] |})
    as Ht.
  pose proof (upload_loop_success fs file_info 0
                {| success_count := 0; fail_count := 0; uploaded_files := [] |}
                eq_refl) as Hs.
  pose proof (upload_loop_ends fs file_info 0
                {| success_count := 0; fail_count := 0; uploaded_files := [] |})
    as He.
  destruct (upload_loop net sleep_returns fs 0 file_info _) as [st ended].
  cbn [fst snd] in *.
  assert (Hlen : length file_info = length (f :: fs0))
    by (subst file_info; apply length_map).
  cbn [success_count fail_count] in Ht. rewrite Hlen in Ht.
  destruct ended; cbn [negb].
  2:{ cbn [uploaded failed deleted files_after completed].
      split; [discriminate|]. split; [lia|]. split; [auto|].
      intros Hsl. apply He. now left. }
  specialize (Ht eq_refl).
  destruct keep; cbn [negb andb].
  - cbn [uploaded failed deleted files_after completed]. repeat split; lia.
  - destruct (nonempty_list (uploaded_files st)).
    + pose proof (cleanup_loop_count (uploaded_files st) fs 0) as Hc.
      destruct (cleanup_loop can_remove fs (uploaded_files st) 0) as [fs' n].
      cbn [uploaded failed deleted files_after completed snd] in *.
      repeat split; try lia; try discriminate.
    + cbn [uploaded failed deleted files_after completed].
      repeat split; try lia; try discriminate.
Qed.

(** When the delay returns, every successful upload enters
    [uploaded_files]. *)
Lemma upload_loop_complete (fs : filesystem) (file_info : list (pystr * pystr)) :
  sleep_returns = true ->
  forall (i j : nat) (st : upload_state) (item : pystr * pystr),
    nth_error file_info j = Some item ->
    upload_file fs (net (i + j)) (fst item) = true ->
    In item (uploaded_files (fst (upload_loop net sleep_returns fs i file_info st))).
Proof.
  intros Hsl.
  assert (Hkeep : forall file_info i st item,
             In item (uploaded_files st) ->
             In item (uploaded_files
                        (fst (upload_loop net sleep_returns fs i file_info st)))).
  { intros file_info0.
    induction file_info0 as [|[file_path rel_path] rest IH]; intros i st item H.
    - exact H.
    - cbn [upload_loop].
      assert (nonempty_list rest && negb sleep_returns = false) as ->
        by (rewrite Hsl; apply andb_false_r).
      apply IH.
      destruct (upload_file fs (net i) file_path); cbn; [|exact H].
      apply in_or_app. now left. }
  induction file_info as [|[file_path rel_path] rest IH]; intros i j st item Hj Hu.
  - destruct j; discriminate.
  - cbn [upload_loop].
    assert (nonempty_list rest && negb sleep_returns = false) as ->
      by (rewrite Hsl; apply andb_false_r).
    destruct j as [|j].
    + injection Hj as <-. rewrite Nat.add_0_r in Hu. cbn [fst] in Hu.
      rewrite Hu. apply Hkeep. cbn. apply in_or_app. right. now left.
    + apply (IH (S i) j); [exact Hj|].
      now replace (S i + j)%nat with (i + S j)%nat by lia.
Qed.

(** A file of the list that the system lets be removed is gone after the
    cleaning. *)
Lemma cleanup_loop_removes (files : list (pystr * pystr)) :
  forall (fs : filesystem) (n : nat) (q : pystr),
    In q (map fst files) -> can_remove q = true ->
    fst (cleanup_loop can_remove fs files n) !! q = None.
Proof.
  assert (Hgone : forall files fs n q,
             fs !! q = None ->
             fst (cleanup_loop can_remove fs files n) !! q = None).
  { clear. intros files.
    induction files as [|[file_path rel_path] rest IH]; intros fs n q H.
    - exact H.
    - cbn [cleanup_loop]. unfold os_remove.
      destruct (fs !! file_path) as [content|] eqn:E; [|now apply IH].
      destruct (can_remove file_path); [|now apply IH].
      apply IH. destruct (decide (file_path = q)) as [->|Hne].
      + apply lookup_delete_eq.
      + now rewrite lookup_delete_ne. }
  induction files as [|[file_path rel_path] rest IH]; intros fs n q Hin Hq.
  - destruct Hin.
  - cbn [cleanup_loop]. unfold os_remove. destruct Hin as [Hin|Hin].
    + cbn [fst] in Hin. subst file_path. rewrite Hq.
      destruct (fs !! q) as [content|] eqn:E.
      * apply Hgone. apply lookup_delete_eq.
      * now apply Hgone.
    + destruct (fs !! file_path); [|now apply IH].
      destruct (can_remove file_path); now apply IH.
Qed.

(** X10.  Without [--keep-files], a file whose upload was answered with
    status 200 is no longer on disk after [main], provided the delay between
    two uploads does not raise and the system lets the file be removed. *)
Theorem main_deletes_every_uploaded (fs : filesystem) (argv : list pystr)
    (path : pystr) (i : nat) :
  sleep_returns = true ->
  fst (parse_args argv) = false ->
  nth_error (files_for (snd (parse_args argv))) i = Some path ->
  fs !! path <> None -> net i = Response 200 -> can_remove path = true ->
  files_after (main net can_remove files_for rel_path_of sleep_returns fs true argv)
  !! path = None.
Proof.
  intros Hsl Hkeep Hi Hex Hnet Hrm. unfold main. cbn [negb].
  destruct (parse_args argv) as [keep args]. cbn [fst snd] in *. subst keep.
  destruct (files_for args) as [|f fs0] eqn:Ef; [destruct i; discriminate|].
  set (file_info := map (fun p => (p, rel_path_of p)) (f :: fs0)).
  set (st0 := {| success_count := 0; fail_count := 0; uploaded_files := [] |}).
  assert (Hin : In (path, rel_path_of path)
                   (uploaded_files
                      (fst (upload_loop net sleep_returns fs 0 file_info st0)))).
  { apply (upload_loop_complete fs file_info Hsl 0 i).
    - subst file_info. rewrite nth_error_map, Hi. reflexivity.
    - cbn [fst]. simpl. rewrite Hnet. unfold upload_file.
      destruct (fs !! path); [reflexivity|congruence]. }
  pose proof (upload_loop_ends fs file_info 0 st0 (or_introl Hsl)) as He.
  destruct (upload_loop net sleep_returns fs 0 file_info st0) as [st ended].
  cbn [fst snd] in *. subst ended.
  cbn [negb andb].
  destruct (uploaded_files st) as [|u us] eqn:Eu; [destruct Hin|].
  cbn [nonempty_list].
  pose proof (cleanup_loop_removes (u :: us) fs 0 path) as Hc.
  destruct (cleanup_loop can_remove fs (u :: us) 0) as [fs' n].
  cbn [fst files_after] in *. apply Hc; [|exact Hrm].
  apply in_map_iff. now exists (path, rel_path_of path).
Qed.

End World.

Lemma main_deletes_every_uploaded_witness :
  files_after
    (main (fun _ => Response 200) (fun _ => true)
       (fun args => args) (fun p => p) true
       (<[lit "/texts/a.epub" := lit "book"]> ∅) true [lit "/texts/a.epub"])
  !! lit "/texts/a.epub" = None.
Proof.
  apply (main_deletes_every_uploaded (fun _ => Response 200) (fun _ => true)
           (fun args => args) (fun p => p) true _ _ _ 0%nat);
    try reflexivity.
  rewrite lookup_insert_eq. discriminate.
Defined.

End UploaderMore.

(** ** convert_epub_to_xtc.py: the counters of [main] *)

Module ConverterMainFacts.
Import PyStr PyPath ConverterMain.

Lemma record_result_ok (total_files : nat) (st : counters)
    (done : pystr * conversion) :
  counters_ok total_files st ->
  counters_ok total_files (record_result total_files st done)
  /\ completed (record_result total_files st done) = S (completed st).
Proof.
  intros [Hsum Hsent]. destruct done as [file_path [success filename msg|]].
  - unfold record_result.
    destruct success; [destruct (already_converted msg)|];
      (split; [|reflexivity]); (split; cbn; [lia|]);
      (apply Forall_app; split;
       [ eapply List.Forall_impl; [|exact Hsent]; cbn; intros p Hp; lia
       | constructor; [cbn; lia|constructor] ]).
  - unfold record_result. split; [|reflexivity]. split; cbn; [lia|].
    apply Forall_app. split.
    + eapply List.Forall_impl; [|exact Hsent]. cbn. intros p Hp. lia.
    + constructor; [cbn; lia|constructor].
Qed.

Lemma record_results_ok (total_files : nat) (futures : list (pystr * conversion)) :
  forall st,
    counters_ok total_files st ->
    counters_ok total_files (fold_left (record_result total_files) futures st)
    /\ completed (fold_left (record_result total_files) futures st)
       = (completed st + length futures)%nat.
Proof.
  induction futures as [|done futures IH]; intros st Hok; simpl.
  - split; [assumption|lia].
  - destruct (record_result_ok total_files st done Hok) as [Hok' Hc].
    destruct (IH _ Hok') as [H1 H2]. split; [assumption|]. rewrite H2, Hc. lia.
Qed.

(** X11.  The counters of the converter add up: when all the futures are
    done, converted + skipped + failed is the number of files; every progress
    line sent reports [successful + failures <= processed <= total] with the
    number of files as total; and the last line reports all of them
    processed. *)
Theorem convert_all_counts (completed_futures : list (pystr * conversion)) :
  let r := convert_all completed_futures in
  let n := length completed_futures in
  (success_count r + skipped_count r + fail_count r = n)%nat
  /\ completed r = n
  /\ Forall (fun p => (successful p + failures p <= processed p)%nat
                      /\ (processed p <= n)%nat /\ total p = n) (sent r)
  /\ exists p, last (sent r) = Some p
               /\ (successful p + failures p = n)%nat /\ processed p = n.
Proof.
  cbn zeta. unfold convert_all.
  set (n := length completed_futures).
  set (start := {| success_count := 0 |}).
  destruct (record_results_ok n completed_futures start) as [[Hsum Hsent] Hc].
  { split; [reflexivity|]. constructor; [cbn; lia|constructor]. }
  set (st := fold_left (record_result n) completed_futures start) in *.
  cbn [completed] in Hc. fold n in Hc. simpl in Hc.
  cbn [success_count skipped_count fail_count completed sent].
  split; [lia|]. split; [lia|]. split.
  - apply Forall_app. split.
    + eapply List.Forall_impl; [|exact Hsent]. cbn. intros p Hp. lia.
    + constructor; [cbn; lia|constructor].
  - eexists. rewrite last_snoc. split; [reflexivity|]. cbn. lia.
Qed.

End ConverterMainFacts.

(** ** convert_epub_to_xtc.py: a longer timeout *)

Module WaitMore.
Import PyStr Converter WaitClaim.

Lemma wait_run_add (fuel more : nat) (dirs : nat -> directory)
    (timeout : timeout_value) :
  forall st,
    wait_run (fuel + more) dirs timeout st
    = wait_run more dirs timeout (wait_run fuel dirs timeout st).
Proof.
  induction fuel as [|fuel IH]; intros st; simpl; [reflexivity|apply IH].
Qed.

(** What the loop returns does not depend on the fuel: it is what [rounds]
    computes for the rounds the timeout allows. *)
Lemma wait_for_download_rounds (fuel : nat) (dirs : nat -> directory)
    (timeout : timeout_value) (k : nat) (r : option pystr * nat) :
  rounds_allowed timeout = Some k ->
  wait_for_download_in fuel dirs timeout = Some r ->
  r = rounds dirs 0 k.
Proof.
  intros Hk H.
  pose proof (wait_for_download_allowed dirs timeout k (fuel + S k) Hk ltac:(lia))
    as Ha.
  unfold wait_for_download_in in *.
  rewrite wait_run_add in Ha.
  destruct (wait_run fuel dirs timeout (Waiting 0 0)) as [s p|result polls] eqn:E;
    [discriminate|].
  rewrite wait_run_returned in Ha. congruence.
Qed.

(** More rounds do not change a file already found. *)
Lemma rounds_more (dirs : nat -> directory) (k more : nat) :
  forall p f polls,
    rounds dirs p k = (Some f, polls) ->
    rounds dirs p (k + more) = (Some f, polls).
Proof.
  induction k as [|k IH]; intros p f polls; simpl; [discriminate|].
  destruct (poll (dirs p)); [auto|apply IH].
Qed.

(** X12.  A longer timeout does not change a download that was found: when
    [wait_for_download] returns a file within the timeout [t], it returns the
    same file after the same number of rounds for every timeout above [t]
    (the timeouts being integers). *)
Theorem wait_for_download_longer_timeout (dirs : nat -> directory)
    (t t' : Z) (fuel fuel' : nat) (f : pystr) (polls : nat) :
  wait_for_download_in fuel dirs (TInt t) = Some (Some f, polls) ->
  t <= t' -> (Z.to_nat t' < fuel')%nat ->
  wait_for_download_in fuel' dirs (TInt t') = Some (Some f, polls).
Proof.
  intros H Ht Hfuel.
  apply (wait_for_download_rounds fuel dirs (TInt t) (Z.to_nat t) _ eq_refl) in H.
  symmetry in H.
  apply (rounds_more dirs _ (Z.to_nat t' - Z.to_nat t)) in H.
  replace (Z.to_nat t + (Z.to_nat t' - Z.to_nat t))%nat with (Z.to_nat t')
    in H by lia.
  rewrite (wait_for_download_allowed dirs (TInt t') (Z.to_nat t')) by
    (trivial; lia).
  now rewrite H.
Qed.

Lemma wait_for_download_longer_timeout_witness :
  wait_for_download_in 400 (fun i => if (i <? 2)%nat then [lit "a.xtc.crdownload"]
                                     else [lit "a.xtc"]) (TInt 300)
  = Some (Some (lit "a.xtc"), 3%nat).
Proof.
  apply (wait_for_download_longer_timeout _ 5 300 10 400);
    [vm_compute; reflexivity | lia | lia].
Defined.

End WaitMore.

(** ** scrape_hcr_to_epub.py: the posts [get_recent_posts] returns *)

Module HcrPostsFacts.
Import PyStr UiHelpers ScrapeHcr Dom FullLetter HcrPosts.
Import PyStrFacts ConfigLinesFacts.

Lemma candidates_loop_ok (max_candidates : Z) (all_links : list link)
    (post_links : list link) :
  (forall l, In l post_links -> In l all_links) ->
  forall seen_urls candidates,
    candidates_ok all_links seen_urls candidates ->
    exists seen_urls',
      candidates_ok all_links seen_urls'
        (candidates_loop max_candidates post_links seen_urls candidates).
Proof.
  induction post_links as [|link rest IH]; intros Hsub seen cands Hok.
  - now exists seen.
  - assert (Hrest : forall l, In l rest -> In l all_links)
      by (intros l Hl; apply Hsub; now right).
    assert (Hmore : forall u, candidates_ok all_links (u :: seen) cands).
    { intros u. destruct Hok as [Hn Hc]. split; [assumption|].
      intros c Hin. destruct (Hc c Hin) as (H1 & H2 & H3).
      split; [now right|]. auto. }
    cbn [candidates_loop].
    destruct (href link) as [[|x url0]|] eqn:Eh; [now apply IH|..|now apply IH].
    set (u := if startswith (lit "/") (x :: url0) then substack ++ x :: url0
              else x :: url0).
    destruct (mem_str u seen) eqn:Em; [now apply IH|].
    destruct (nonempty (link_text link)) eqn:Et; cbn [negb]; [|now apply IH].
    destruct (is_date_title (link_text link)) eqn:Ed; cbn [negb];
      [|now apply IH].
    assert (Hnew : candidates_ok all_links (u :: seen)
                     (cands ++ [{| url := u; title := link_text link |}])).
    { destruct Hok as [Hn Hc]. split.
      - rewrite map_app. cbn [map url].
        apply List.NoDup_app; [assumption|repeat constructor; intros []|].
        intros a Ha [<-|[]]. apply in_map_iff in Ha as (c & <- & Hin).
        destruct (Hc c Hin) as (H1 & _). apply mem_str_true in H1. congruence.
      - intros c Hin. apply in_app_or in Hin as [Hin|[<-|[]]].
        + destruct (Hc c Hin) as (H1 & H2 & H3). split; [now right|]. auto.
        + cbn [url title]. split; [now left|]. split; [assumption|].
          exists link. split; [|reflexivity]. apply Hsub. now left. }
    destruct (_ >=? max_candidates); [now exists (u :: seen)|now apply IH].
Qed.


Section Web.
Variable fetch : pystr -> fetched.

Lemma posts_loop_ok (num_posts min_word_count : Z) (all_candidates : list post)
    (candidates : list post) :
  (forall c, In c candidates -> In c all_candidates) ->
  forall seen_dates posts,
    List.NoDup (map url (posts ++ candidates)) ->
    List.NoDup (map title posts) ->
    (forall p, In p posts ->
       In (title p) seen_dates
       /\ is_full_letter (fetch (url p)) min_word_count = true
       /\ In p all_candidates) ->
    let posts' := posts_loop fetch num_posts min_word_count candidates
                    seen_dates posts in
    List.NoDup (map url posts') /\ List.NoDup (map title posts')
    /\ forall p, In p posts' ->
         is_full_letter (fetch (url p)) min_word_count = true
         /\ In p all_candidates.
Proof.
  induction candidates as [|c rest IH]; intros Hsub seen posts Hu Ht Hp.
  - cbn. rewrite app_nil_r in Hu. split; [assumption|]. split; [assumption|].
    intros p Hin. destruct (Hp p Hin) as (_ & H1 & H2). auto.
  - assert (Hrest : forall c', In c' rest -> In c' all_candidates)
      by (intros c' Hc'; apply Hsub; now right).
    assert (Hdrop : List.NoDup (map url (posts ++ rest))).
    { rewrite map_app in *. cbn [map] in Hu. now apply NoDup_remove_1 in Hu. }
    cbn [posts_loop].
    destruct (mem_str (title c) seen) eqn:Em; [now apply IH|].
    destruct (is_full_letter (fetch (url c)) min_word_count) eqn:Ef;
      [|now apply IH].
    assert (Hu' : List.NoDup (map url ((posts ++ [c]) ++ rest)))
      by (now rewrite <- app_assoc).
    assert (Ht' : List.NoDup (map title (posts ++ [c]))).
    { rewrite map_app. cbn [map].
      apply List.NoDup_app; [assumption|repeat constructor; intros []|].
      intros a Ha [<-|[]]. apply in_map_iff in Ha as (p & Hpt & Hin).
      destruct (Hp p Hin) as (H1 & _). rewrite Hpt in H1.
      apply mem_str_true in H1. congruence. }
    assert (Hp' : forall p, In p (posts ++ [c]) ->
              In (title p) (title c :: seen)
              /\ is_full_letter (fetch (url p)) min_word_count = true
              /\ In p all_candidates).
    { intros p Hin. apply in_app_or in Hin as [Hin|[<-|[]]].
      - destruct (Hp p Hin) as (H1 & H2 & H3). split; [now right|]. auto.
      - split; [now left|]. split; [assumption|]. apply Hsub. now left. }
    destruct (_ >=? num_posts).
    + cbn zeta. split.
      * rewrite map_app in Hu'. now apply NoDup_app_remove_r in Hu'.
      * split; [assumption|]. intros p Hin.
        destruct (Hp' p Hin) as (_ & H1 & H2). auto.
    + now apply IH.
Qed.


(** X13.  The posts [get_recent_posts] returns are full letters with date
    titles, at most one for a date and at most one for a URL: no two have the
    same title or the same URL, each title is a date title and the text of a
    link of the archive, and each page passed [is_full_letter]. *)
Theorem get_recent_posts_distinct_letters (num_posts : Z)
    (post_links : list link) (min_word_count max_candidates : Z)
    (posts : list post) :
  get_recent_posts fetch num_posts (Some post_links) min_word_count max_candidates
  = Some posts ->
  List.NoDup (map title posts) /\ List.NoDup (map url posts)
  /\ forall p, In p posts ->
       is_date_title (title p) = true
       /\ is_full_letter (fetch (url p)) min_word_count = true
       /\ exists l, In l post_links /\ link_text l = title p.
Proof.
  unfold get_recent_posts. intros [= <-].
  destruct (candidates_loop_ok max_candidates post_links post_links
              (fun l H => H) [] [])
    as (seen & Hn & Hc).
  { split; [constructor|intros c []]. }
  set (candidates := candidates_loop max_candidates post_links [] []) in *.
  destruct (posts_loop_ok num_posts min_word_count candidates candidates
              (fun c H => H) [] [] Hn ltac:(constructor) ltac:(intros p []))
    as (Hu & Ht & Hp).
  split; [assumption|]. split; [assumption|].
  intros p Hin. destruct (Hp p Hin) as [Hf Hcand].
  destruct (Hc p Hcand) as (_ & Hd & Hl). auto.
Qed.


End Web.

Lemma get_recent_posts_distinct_letters_witness :
  List.NoDup (map title [{| url := substack ++ lit "/p/december-2-2025";
                            title := lit "December 2, 2025" |};
                         {| url := lit "https://example.org/p/december-1-2025";
                            title := lit "December 1, 2025" |}])
  /\ List.NoDup (map url [{| url := substack ++ lit "/p/december-2-2025";
                             title := lit "December 2, 2025" |};
                          {| url := lit "https://example.org/p/december-1-2025";
                             title := lit "December 1, 2025" |}])
  /\ forall p, In p [{| url := substack ++ lit "/p/december-2-2025";
                        title := lit "December 2, 2025" |};
                     {| url := lit "https://example.org/p/december-1-2025";
                        title := lit "December 1, 2025" |}] ->
       is_date_title (title p) = true
       /\ is_full_letter (MoreSamples.sample_web (url p)) 1 = true
       /\ exists l, In l MoreSamples.archive_links /\ link_text l = title p.
Proof.
  apply (get_recent_posts_distinct_letters MoreSamples.sample_web 5
           MoreSamples.archive_links 1 10).
  vm_compute. reflexivity.
Defined.


End HcrPostsFacts.

(** ** scrape_hcr_to_epub.py: the counters of [main] *)

Module HcrMainFacts.
Import PyStr HcrPosts HcrMain.

Section Run.
Variable get_post_content : pystr -> option pystr.
Variable write_epub : post -> pystr -> bool.

Lemma fetch_contents_counts (total : nat) (posts : list post) :
  forall i st,
    let r := fetch_contents get_post_content total posts i st in
    successful (snd r) = successful st
    /\ failures (snd r)
       = (failures st + length (fetch_failed get_post_content posts))%nat
    /\ length (fst r) = length posts.
Proof.
  induction posts as [|post rest IH]; intros i st.
  - cbn. repeat split; lia.
  - cbn [fetch_contents fetch_failed List.filter].
    destruct (get_post_content (url post)) as [content|] eqn:E;
      match goal with |- context [fetch_contents _ _ rest ?j ?s] =>
        specialize (IH j s); destruct (fetch_contents get_post_content total rest j s)
          as [fetched st'] end;
      unfold fetch_failed in *; cbn in *; destruct IH as (H1 & H2 & H3);
      repeat split; lia.
Qed.

Lemma create_epubs_counts (total : nat) (fetched : list (post * option pystr)) :
  forall st,
    let r := create_epubs write_epub total fetched st in
    (successful r + failures r = successful st + failures st + length fetched)%nat
    /\ (successful r
        = successful st
          + length (List.filter (create_epub_for_post write_epub) fetched))%nat.
Proof.
  induction fetched as [|item rest IH]; intros st.
  - cbn. lia.
  - cbn [create_epubs List.filter].
    destruct (create_epub_for_post write_epub item).
    + match goal with |- context [create_epubs _ _ rest ?s] =>
        specialize (IH s) end.
      cbn in *. lia.
    + match goal with |- context [create_epubs _ _ rest ?s] =>
        specialize (IH s) end.
      cbn in *. lia.
Qed.

(** X16.  In the [main] of the HCR scraper a post whose content cannot be
    fetched is counted as a failure twice, once by each loop: at the end
    [successful + failures] is the number of posts plus the number of failed
    fetches, and that sum is what the last progress line reports as
    processed, against the number of posts as total. *)
Theorem run_counts_failed_fetch_twice (num_posts : nat) (posts : list post) :
  let r := run get_post_content write_epub num_posts posts in
  let failed := length (fetch_failed get_post_content posts) in
  (successful r + failures r = length posts + failed)%nat
  /\ (posts <> [] ->
      last (sent r)
      = Some (successful r, failures r, (length posts + failed)%nat, length posts)).
Proof.
  cbn zeta. unfold run. destruct posts as [|p ps]; [split; [reflexivity|congruence]|].
  set (posts := p :: ps).
  pose proof (fetch_contents_counts (length posts) posts 0
                {| successful := 0; failures := 0;
                   sent := [(0, 0, 0, num_posts)%nat] |}) as Hf.
  destruct (fetch_contents get_post_content (length posts) posts 0 _)
    as [fetched st].
  cbn [fst snd successful failures] in Hf. destruct Hf as (H1 & H2 & H3).
  pose proof (create_epubs_counts (length posts) fetched st) as [Hc _].
  set (st' := create_epubs write_epub (length posts) fetched st) in *.
  cbn [successful failures sent]. split; [lia|].
  intros _. rewrite last_snoc.
  replace (successful st' + failures st')%nat
    with (length posts + length (fetch_failed get_post_content posts))%nat by lia.
  reflexivity.
Qed.

End Run.

End HcrMainFacts.

(** ** scrape_hn_to_epub.py: the stories [get_top_stories] returns *)

Module HnStoriesFacts.
Import PyStr HnStories.

Section Api.
Variable item : Z -> option story_data.

(** While the ids left cannot fill the list beyond [num_stories], the loop
    returns the stories of all of them: the [break] of line 56 only fires
    after the last id. *)
Lemma stories_loop_all (num_stories : Z) (story_ids : list Z) :
  forall stories result,
    Z.of_nat (length stories + length story_ids) <= num_stories ->
    stories_loop item num_stories story_ids stories = Some result ->
    result = stories ++ flat_map (story_of item) story_ids.
Proof.
  induction story_ids as [|story_id rest IH]; intros stories result Hlen.
  - simpl. intros [= <-]. now rewrite app_nil_r.
  - cbn [stories_loop flat_map]. unfold story_of at 1.
    destruct (item story_id) as [data|]; [|discriminate].
    destruct (data_url data) as [u|].
    + destruct (_ >=? num_stories) eqn:E.
      * intros [= <-]. rewrite Z.geb_leb in E. apply Z.leb_le in E.
        rewrite length_app in E. simpl in E, Hlen.
        destruct rest; [|simpl in Hlen; lia].
        reflexivity.
      * intros H. apply IH in H.
        -- rewrite H. now rewrite <- app_assoc.
        -- rewrite length_app. simpl in *. lia.
    + intros H. apply IH in H; [exact H|]. simpl in Hlen. lia.
Qed.

Lemma flat_map_story_length (ids : list Z) :
  (length (flat_map (story_of item) ids) <= length ids)%nat.
Proof.
  induction ids as [|i ids IH]; simpl; [lia|].
  rewrite length_app. unfold story_of at 1.
  destruct (item i) as [data|]; [destruct (data_url data)|]; simpl; lia.
Qed.

(** X17.  For a count [num_stories >= 0], what [get_top_stories] returns
    (when no request fails) are the stories with a URL among the first
    [num_stories] ids of the top list, in their order: an item without URL
    is skipped and not replaced by a later one, so fewer than [num_stories]
    stories may come back. *)
Theorem get_top_stories_first_ids (ids : list Z) (num_stories : Z)
    (stories : list story) :
  0 <= num_stories ->
  get_top_stories item (Some ids) num_stories = Some stories ->
  stories = flat_map (story_of item) (firstn (Z.to_nat num_stories) ids)
  /\ Z.of_nat (length stories) <= num_stories.
Proof.
  intros Hn. unfold get_top_stories, list_slice_to.
  assert ((num_stories <? 0) = false) as -> by (apply Z.ltb_ge; lia).
  intros H. apply stories_loop_all in H.
  - subst stories. split; [reflexivity|].
    pose proof (flat_map_story_length (firstn (Z.to_nat num_stories) ids)) as Hl.
    rewrite length_firstn in Hl. simpl. lia.
  - rewrite length_firstn. simpl. lia.
Qed.

End Api.

Lemma get_top_stories_first_ids_witness :
  [ {| title := lit "No title"; url := lit "http://a"; by_ := lit "unknown";
       score := 0; id := 7 |} ]
  = flat_map
      (story_of (fun i => Some {| data_title := None;
                                  data_url := if i =? 8 then None
                                              else Some (lit "http://a");
                                  data_by := None; data_score := None |}))
      (firstn (Z.to_nat 2) [7; 8; 9])
  /\ Z.of_nat 1 <= 2.
Proof.
  apply (get_top_stories_first_ids
           (fun i => Some {| data_title := None;
                             data_url := if i =? 8 then None
                                         else Some (lit "http://a");
                             data_by := None; data_score := None |})
           [7; 8; 9] 2); [lia|vm_compute; reflexivity].
Defined.

End HnStoriesFacts.

(** ** config_reader.py: numbers with zeros in front *)

Module LeadingZeros.
Import PyStr PyDict ConfigReader.
Import PyStrFacts PyNumFacts ConfigReaderFacts.

Lemma int_digits_after_digit (s : pystr) :
  s <> [] -> forallb isdecimal_char s = true ->
  forall acc b, int_digits acc b s = int_digits acc true s.
Proof.
  destruct s as [|c s]; [congruence|]. intros _ H acc b. simpl in *.
  apply andb_true_iff in H as [-> _]. reflexivity.
Qed.

(** X18.  A value of decimal digits, no more than the 4300 that [int]
    reads, is read as the number it writes, so zeros in front are lost:
    [K=007] and [K=7] are read as the same integer. *)
Theorem coerce_drops_leading_zeros (zeros s : pystr) :
  forallb (eqb_char "0") zeros = true ->
  s <> [] -> forallb isdecimal_char s = true ->
  Z.of_nat (length (zeros ++ s)) <= 4300 ->
  exists n, coerce (zeros ++ s) = Ok (VInt n) /\ coerce s = Ok (VInt n).
Proof.
  intros Hz Hne Hd Hlen.
  assert (Hs : Z.of_nat (length s) <= int_max_str_digits).
  { rewrite length_app in Hlen. unfold int_max_str_digits. lia. }
  destruct (coerce_decimal s Hne Hd Hs) as (n & Hn & Hc). exists n.
  split; [|exact Hc].
  induction zeros as [|z zeros IH]; [exact Hc|].
  cbn [forallb] in Hz. apply andb_true_iff in Hz as [Hz0 Hz].
  apply eqb_char_true in Hz0. subst z.
  assert (Hlen' : Z.of_nat (length (zeros ++ s)) <= 4300).
  { cbn [app length] in Hlen. lia. }
  specialize (IH Hz Hlen').
  assert (Hd' : forallb isdecimal_char (zeros ++ s) = true).
  { rewrite forallb_app, Hd, andb_true_r.
    rewrite forallb_forall in *. intros x Hx.
    specialize (Hz x Hx). apply eqb_char_true in Hz. now subst x. }
  assert (Hne' : zeros ++ s <> []) by (destruct zeros; [assumption|discriminate]).
  destruct (coerce_decimal (zeros ++ s) Hne' Hd' Hlen') as (m & Hm & Hcm).
  rewrite Hcm in IH. injection IH as ->.
  destruct (coerce_decimal ("0"%char :: zeros ++ s)) as (k & Hk & Hck);
    [discriminate|simpl; now rewrite Hd'|exact Hlen|].
  change (("0"%char :: zeros) ++ s) with ("0"%char :: zeros ++ s).
  rewrite Hck. do 2 f_equal.
  cbn [int_digits] in Hk. change (isdecimal_char "0") with true in Hk.
  cbn iota in Hk. change (10 * 0 + digit_val "0") with 0 in Hk.
  rewrite <- (int_digits_after_digit _ Hne' Hd' 0 false) in Hk. congruence.
Qed.

Lemma coerce_drops_leading_zeros_witness :
  exists n, coerce (lit "00" ++ lit "7") = Ok (VInt n) /\ coerce (lit "7") = Ok (VInt n).
Proof.
  apply coerce_drops_leading_zeros;
    [reflexivity|discriminate|reflexivity|cbn; lia].
Defined.

End LeadingZeros.

(** ** scrape_hn_to_epub.py: a sanitized name stays as it is *)

Module SanitizeMore.
Import PyStr ScrapeHn PyStrFacts.

Lemma sanitize_filename_is_safe (title : pystr) (max_length : Z) :
  is_safe (sanitize_filename title max_length).
Proof.
  unfold sanitize_filename.
  pose proof (SanitizeClaim.replacements_safe title) as Hs. cbv zeta in Hs.
  destruct (_ >? max_length); [|exact Hs].
  intros c Hc Hin.
  apply SanitizeClaim.rstrip_in, SanitizeClaim.slice_to_in in Hin.
  now apply (Hs c).
Qed.

Lemma sanitize_filename_short (title : pystr) (max_length : Z) :
  0 <= max_length ->
  Z.of_nat (length (sanitize_filename title max_length)) <= max_length.
Proof.
  intros Hm. unfold sanitize_filename.
  destruct (_ >? max_length) eqn:E.
  - etransitivity; [|apply (SanitizeClaim.slice_to_length max_length); exact Hm].
    apply inj_le. apply SanitizeClaim.rstrip_length.
  - rewrite Z.gtb_ltb in E. apply Z.ltb_ge in E. exact E.
Qed.

(** X19.  [sanitize_filename] is idempotent for a length that is not
    negative: a name it returned is returned unchanged when it is sanitized
    again with the same [max_length]. *)
Theorem sanitize_filename_idempotent (title : pystr) (max_length : Z) :
  0 <= max_length ->
  sanitize_filename (sanitize_filename title max_length) max_length
  = sanitize_filename title max_length.
Proof.
  intros Hm.
  pose proof (sanitize_filename_is_safe title max_length) as Hs.
  pose proof (sanitize_filename_short title max_length Hm) as Hl.
  set (name := sanitize_filename title max_length) in *.
  unfold sanitize_filename.
  repeat match goal with
         | |- context [replace_char ?c ?r name] =>
             rewrite (SanitizeClaim.replace_char_absent c r name)
               by (apply Hs; unfold unsafe_chars; simpl; tauto)
         end.
  assert ((Z.of_nat (length name) >? max_length) = false) as ->; [|reflexivity].
  rewrite Z.gtb_ltb. apply Z.ltb_ge. exact Hl.
Qed.

Lemma sanitize_filename_idempotent_witness :
  sanitize_filename (sanitize_filename (lit "What: is  this?") 7) 7
  = sanitize_filename (lit "What: is  this?") 7.
Proof. apply sanitize_filename_idempotent. lia. Defined.

End SanitizeMore.

(** ** scrape_hackaday_to_epub.py: the articles [get_blog_articles] returns *)

Module HackadayFacts.
Import PyStr PyDict Re UiHelpers Dom PyPath Hackaday PyStrFacts.

Lemma break_at_first (c : ascii) (s : pystr) :
  contains_char c (fst (break_at c s)) = false.
Proof.
  induction s as [|x s IH]; simpl; [reflexivity|].
  destruct (eqb_char x c) eqn:E; [reflexivity|].
  destruct (break_at c s) as [a r]. simpl in *. rewrite IH, orb_false_r.
  apply eqb_char_false. apply eqb_char_false in E. congruence.
Qed.




Section Web.
Variable fetch : pystr -> option node.



End Web.

End HackadayFacts.

(** ** The order of strings *)

Module StrOrder.
Import PyStr UiHelpers Folders PyStrFacts ConfigLinesFacts.

Lemma ord_inj (x y : ascii) : ord x = ord y -> x = y.
Proof.
  unfold ord. intros H. rewrite <- (ascii_N_embedding x), <- (ascii_N_embedding y).
  now rewrite H.
Qed.

Lemma str_leb_refl (a : pystr) : str_leb a a = true.
Proof.
  induction a as [|x a IH]; simpl; [reflexivity|].
  now rewrite N.ltb_irrefl.
Qed.

Lemma str_leb_total (a : pystr) : forall b, str_leb a b = true \/ str_leb b a = true.
Proof.
  induction a as [|x a IH]; intros [|y b]; simpl; auto.
  destruct (N.ltb_spec (ord x) (ord y)); [now left|].
  destruct (N.ltb_spec (ord y) (ord x)); [now right|]. apply IH.
Qed.

Lemma str_leb_antisym (a : pystr) :
  forall b, str_leb a b = true -> str_leb b a = true -> a = b.
Proof.
  induction a as [|x a IH]; intros [|y b]; simpl; try discriminate; [reflexivity|].
  destruct (N.ltb_spec (ord x) (ord y)).
  - destruct (N.ltb_spec (ord y) (ord x)); [lia|]. discriminate.
  - destruct (N.ltb_spec (ord y) (ord x)); [discriminate|].
    intros H1 H2. f_equal; [apply ord_inj; lia|now apply IH].
Qed.

Lemma str_leb_trans (a : pystr) :
  forall b c, str_leb a b = true -> str_leb b c = true -> str_leb a c = true.
Proof.
  induction a as [|x a IH]; intros [|y b] [|z c]; simpl; try discriminate;
    try reflexivity.
  destruct (N.ltb_spec (ord x) (ord y)), (N.ltb_spec (ord y) (ord z)),
    (N.ltb_spec (ord x) (ord z)); try reflexivity; try lia; try discriminate.
  - destruct (N.ltb_spec (ord z) (ord y)); [discriminate|lia].
  - destruct (N.ltb_spec (ord y) (ord x)); [discriminate|lia].
  - destruct (N.ltb_spec (ord y) (ord x)); [discriminate|].
    destruct (N.ltb_spec (ord z) (ord y)); [discriminate|].
    destruct (N.ltb_spec (ord z) (ord x)); [lia|]. apply IH.
Qed.

(** A text comes before every text it starts. *)
Lemma str_leb_prefix (a b : pystr) : str_leb a (a ++ b) = true.
Proof.
  induction a as [|x a IH]; simpl; [reflexivity|].
  now rewrite N.ltb_irrefl.
Qed.

Lemma in_order_cons (x : pystr) (l : list pystr) :
  in_order (x :: l) = true <->
  in_order l = true /\ forall y, In y l -> str_leb x y = true.
Proof.
  revert x. induction l as [|y l IH]; intros x.
  - simpl. split; [intros _; split; [reflexivity|intros y []]|reflexivity].
  - change (in_order (x :: y :: l)) with (str_leb x y && in_order (y :: l)).
    rewrite andb_true_iff. split.
    + intros [Hxy Hl]. split; [assumption|].
      intros z [<-|Hz]; [assumption|].
      apply (str_leb_trans x y z Hxy). apply IH in Hl as [_ Hl]. now apply Hl.
    + intros [Hl Hall]. split; [apply Hall; now left|assumption].
Qed.

Lemma insert_sorted_in_order (x : pystr) (l : list pystr) :
  in_order l = true -> in_order (insert_sorted x l) = true.
Proof.
  induction l as [|y l IH]; intros Hl; [reflexivity|].
  cbn [insert_sorted]. destruct (str_leb x y) eqn:E.
  - change (in_order (x :: y :: l)) with (str_leb x y && in_order (y :: l)).
    now rewrite E, Hl.
  - apply in_order_cons in Hl as [Hl Hall]. apply in_order_cons. split; [auto|].
    intros z Hz. apply in_insert_sorted in Hz as [->|Hz]; [|auto].
    destruct (str_leb_total x y) as [H|H]; congruence.
Qed.

(** [sorted] gives a list in order. *)
Lemma sorted_in_order (l : list pystr) : in_order (sorted l) = true.
Proof.
  unfold sorted. induction l as [|x l IH]; [reflexivity|].
  simpl. now apply insert_sorted_in_order.
Qed.

Lemma in_order_app (a b : list pystr) :
  in_order (a ++ b) = true ->
  forall x y, In x a -> In y b -> str_leb x y = true.
Proof.
  induction a as [|z a IH]; intros H x y Hx Hy; [destruct Hx|].
  change ((z :: a) ++ b) with (z :: a ++ b) in H.
  apply in_order_cons in H as [H Hall]. destruct Hx as [<-|Hx].
  - apply Hall. apply in_or_app. now right.
  - now apply IH.
Qed.

(** In a list in order, a text that is below another one and differs from
    it stands before it. *)
Lemma in_order_before (l : list pystr) (g f : pystr) :
  in_order l = true -> In g l -> In f l ->
  str_leb g f = true -> g <> f ->
  exists l1 l2 l3, l = l1 ++ g :: l2 ++ f :: l3.
Proof.
  intros Ho Hg Hf Hle Hne.
  apply in_split in Hf as (a & b & ->).
  apply in_app_or in Hg as [Hg|[Hg|Hg]].
  - apply in_split in Hg as (a1 & a2 & ->).
    exists a1, a2, b. now rewrite <- app_assoc.
  - congruence.
  - exfalso. apply Hne. apply str_leb_antisym; [assumption|].
    apply (in_order_app (a ++ [f]) b).
    + now rewrite <- app_assoc.
    + apply in_or_app. right. now left.
    + assumption.
Qed.

End StrOrder.

(** ** upload_to_epaper.py: a folder is created after its parent *)

Module FoldersFacts.
Import PyStr UiHelpers PyPath Folders PyStrFacts ConfigLinesFacts StrOrder.

Lemma break_at_shorter (c : ascii) (s : pystr) :
  forall a rest, break_at c s = (a, Some rest) -> (length rest < length s)%nat.
Proof.
  induction s as [|x s IH]; intros a rest; simpl; [discriminate|].
  destruct (eqb_char x c); [intros [= _ <-]; lia|].
  destruct (break_at c s) as [a' [r|]]; [|discriminate].
  intros [= _ <-]. specialize (IH a' r eq_refl). lia.
Qed.

(** The parts of a split hold no separator. *)
Lemma split_max_parts (c : ascii) (n : nat) :
  forall s, (length s <= n)%nat ->
    Forall (fun part => contains_char c part = false) (split_max c n s).
Proof.
  induction n as [|n IH]; intros s Hlen.
  - destruct s; [|simpl in Hlen; lia]. now repeat constructor.
  - cbn [split_max].
    pose proof (HackadayFacts.break_at_first c s) as Hf.
    pose proof (break_at_shorter c s) as Hs.
    destruct (break_at c s) as [a [rest|]]; cbn [fst] in Hf.
    + constructor; [assumption|]. apply IH.
      specialize (Hs a rest eq_refl). lia.
    + now repeat constructor.
Qed.

(** A text is cut at its last separator in one way only. *)
Lemma last_separator_unique (c : ascii) (g : pystr) :
  forall g' p p',
    contains_char c p = false -> contains_char c p' = false ->
    g ++ c :: p = g' ++ c :: p' -> g = g' /\ p = p'.
Proof.
  induction g as [|x g IH]; intros [|y g'] p p' Hp Hp' H.
  - injection H as ->. auto.
  - injection H as <- ->. rewrite contains_char_app in Hp. simpl in Hp.
    rewrite eqb_char_refl, orb_true_r in Hp. discriminate.
  - injection H as -> <-. rewrite contains_char_app in Hp'. simpl in Hp'.
    rewrite eqb_char_refl, orb_true_r in Hp'. discriminate.
  - injection H as -> H. destruct (IH g' p p' Hp Hp' H) as [-> ->]. auto.
Qed.

Lemma in_set_add (x y : pystr) (folders : list pystr) :
  In y (set_add x folders) <-> y = x \/ In y folders.
Proof.
  unfold set_add. destruct (mem_str x folders) eqn:E.
  - apply mem_str_true in E. split; [auto|]. intros [->|H]; assumption.
  - rewrite in_app_iff. simpl. intuition congruence.
Qed.

Lemma add_parts_parents (parts : list pystr) :
  forall current_path folders,
    Forall (fun part => contains_char "/" part = false) parts ->
    parents_in folders ->
    (current_path = [] \/ In current_path folders) ->
    parents_in (add_parts parts current_path folders).
Proof.
  induction parts as [|part rest IH]; intros current folders Hparts Hin Hcur;
    [assumption|].
  apply Forall_cons_iff in Hparts as [Hpart Hrest]. cbn [add_parts].
  apply IH; [assumption| |].
  - intros g p Hg Hp Hx. apply in_set_add. apply in_set_add in Hx as [Hx|Hx].
    + destruct current as [|c current]; cbn [nonempty] in *.
      * exfalso. rewrite <- Hx in Hpart. rewrite contains_char_app in Hpart.
        simpl in Hpart. rewrite orb_true_r in Hpart. discriminate.
      * apply (last_separator_unique "/" g (c :: current) p part Hp Hpart)
          in Hx as [-> _].
        right. destruct Hcur as [Hcur|Hcur]; [discriminate|assumption].
    + right. now apply (Hin g p).
  - right. apply in_set_add. now left.
Qed.

Lemma folders_parents (file_info : list (pystr * pystr)) :
  parents_in (folders_to_create file_info).
Proof.
  unfold folders_to_create.
  apply (CategoryFacts.fold_left_invariant parents_in).
  - intros g p _ _ [].
  - intros folders item _ Hin.
    destruct (nonempty (dirname (snd item))); [|assumption].
    apply add_parts_parents; [|assumption|now left].
    apply split_max_parts. unfold split_all. lia.
Qed.

(** X21.  The folders are created parents first: when the uploader is to
    create the folder [g/part] on the device, it also creates [g], and
    creates it earlier. *)
Theorem creation_order_parent_first (file_info : list (pystr * pystr))
    (g part : pystr) :
  g <> [] -> contains_char "/" part = false ->
  In (g ++ lit "/" ++ part) (creation_order file_info) ->
  exists l1 l2 l3,
    creation_order file_info = l1 ++ g :: l2 ++ (g ++ lit "/" ++ part) :: l3.
Proof.
  intros Hg Hp Hin. unfold creation_order in *.
  apply in_order_before.
  - apply sorted_in_order.
  - apply (proj2 (in_sorted _ _)). apply (proj1 (in_sorted _ _)) in Hin.
    now apply (folders_parents file_info g part).
  - assumption.
  - apply str_leb_prefix.
  - intros H. apply (f_equal (@length ascii)) in H.
    rewrite length_app in H. simpl in H. lia.
Qed.

Lemma creation_order_parent_first_witness :
  exists l1 l2 l3,
    creation_order [(lit "/t/hn/2025/a.epub", lit "hn/2025/a.epub");
                    (lit "/t/hcr/b.epub", lit "hcr/b.epub")]
    = l1 ++ lit "hn" :: l2 ++ (lit "hn" ++ lit "/" ++ lit "2025") :: l3.
Proof.
  apply creation_order_parent_first; [discriminate|reflexivity|].
  vm_compute. tauto.
Defined.

End FoldersFacts.

(** ** What the interfaces save is what the scripts read *)

Module SavedConfig.
Import PyStr PyDict Re ConfigReader Common UiHelpers ConfigText SecretsConfig.
Import PyStrFacts PyNumFacts PyDictFacts ConfigReaderFacts ConfigTextFacts
  ConfigLinesFacts ConfigRoundTrip SecretsRoundTrip.


Section Saved.
Variable title : pystr -> pystr.
Variable float_str : pystr -> pystr.
Hypothesis title_one_line :
  forall s, no_linebreak s = true -> no_linebreak (title s) = true.


End Saved.


End SavedConfig.

(** ** ui_helpers.py: the names of the discovered scrapers *)

Module ScrapersFacts.
Import PyStr UiHelpers Scrapers PyStrFacts.

Lemma in_insert_scraper (x y : scraper) (l : list scraper) :
  In y (insert_scraper x l) <-> y = x \/ In y l.
Proof.
  induction l as [|z l IH]; simpl.
  - intuition congruence.
  - destruct (str_leb (display_name x) (display_name z)); simpl;
      [intuition congruence|].
    rewrite IH. intuition congruence.
Qed.

Lemma in_sort_scrapers (y : scraper) (l : list scraper) :
  In y (sort_scrapers l) <-> In y l.
Proof.
  unfold sort_scrapers. induction l as [|x l IH]; simpl; [tauto|].
  rewrite in_insert_scraper, IH. intuition congruence.
Qed.

(** The name between [scrape_] and [_to_epub.py] is read back. *)
Lemma source_name_of_script (name : pystr) :
  source_name_of (lit "scrape_" ++ name ++ lit "_to_epub.py") = name.
Proof.
  unfold source_name_of, slice_from, slice_to.
  change (-11 <? 0) with true. cbv iota.
  rewrite !length_app.
  change (length (lit "scrape_")) with 7%nat.
  change (length (lit "_to_epub.py")) with 11%nat.
  replace (Z.to_nat (Z.of_nat (7 + (length name + 11)) + -11))
    with (length (lit "scrape_" ++ name)) by (rewrite length_app; simpl; lia).
  rewrite app_assoc, firstn_app, firstn_all, Nat.sub_diag. simpl firstn.
  rewrite app_nil_r. reflexivity.
Qed.

Section Builtins.
Variable title : pystr -> pystr.
Variable upper : pystr -> pystr.

(** X23.  [discover_scrapers] recovers the source name from the file name:
    a file [scrape_<name>_to_epub.py] of the directory is listed with source
    name [<name>], under the display name [upper(name)] when the name has at
    most three characters and the title-cased name otherwise; and every entry
    of the result comes from a file whose name starts with [scrape_] and ends
    with [_to_epub.py]. *)
Theorem discover_scrapers_names (scrapers_dir : pystr) (files : list pystr) :
  (forall name,
      In (lit "scrape_" ++ name ++ lit "_to_epub.py") files ->
      In (if (length name <=? 3)%nat then upper name
          else title (replace_char "_" (lit " ") name),
          path_join scrapers_dir (lit "scrape_" ++ name ++ lit "_to_epub.py"),
          name)
         (discover_scrapers title upper scrapers_dir (Some files)))
  /\ (forall s,
         In s (discover_scrapers title upper scrapers_dir (Some files)) ->
         exists file,
           In file files
           /\ startswith (lit "scrape_") file = true
           /\ endswith (lit "_to_epub.py") file = true
           /\ script_path s = path_join scrapers_dir file
           /\ source_name s = source_name_of file).
Proof.
  unfold discover_scrapers. split.
  - intros name Hin. apply in_sort_scrapers, in_flat_map.
    exists (lit "scrape_" ++ name ++ lit "_to_epub.py"). split; [assumption|].
    unfold scraper_of.
    assert (startswith (lit "scrape_") (lit "scrape_" ++ name ++ lit "_to_epub.py")
            = true) as -> by apply ProgressClaim.startswith_app.
    assert (endswith (lit "_to_epub.py") (lit "scrape_" ++ name ++ lit "_to_epub.py")
            = true) as ->.
    { unfold endswith. rewrite !rev_app_distr.
      rewrite <- app_assoc. apply ProgressClaim.startswith_app. }
    cbn [andb]. rewrite source_name_of_script. now left.
  - intros s Hs. apply in_sort_scrapers, in_flat_map in Hs as (file & Hf & Hs).
    unfold scraper_of in Hs.
    destruct (startswith (lit "scrape_") file) eqn:E1; [|destruct Hs].
    destruct (endswith (lit "_to_epub.py") file) eqn:E2; [|destruct Hs].
    destruct Hs as [<-|[]]. exists file. auto.
Qed.

End Builtins.

End ScrapersFacts.

(** ** The converter's downloads and the uploader's extensions *)

Module ExtensionsFacts.
Import PyStr Converter Extensions PyStrFacts WaitClaim WaitMore.

Lemma endswith_split (ext s : pystr) :
  endswith ext s = true -> exists a, s = a ++ ext.
Proof.
  unfold endswith. intros H.
  apply ReSpec.startswith_split in H as [rest H].
  exists (rev rest). apply (f_equal (@rev ascii)) in H.
  now rewrite rev_involutive, rev_app_distr, rev_involutive in H.
Qed.

(** A name with a lower-case ending keeps it when it is lowered. *)
Lemma endswith_lower (ext s : pystr) :
  lower ext = ext -> endswith ext s = true -> endswith ext (lower s) = true.
Proof.
  intros Hl H. apply endswith_split in H as [a ->].
  unfold lower in *. rewrite map_app, Hl.
  unfold endswith. rewrite rev_app_distr. apply ProgressClaim.startswith_app.
Qed.

Lemma output_files_supported (d : directory) (f : pystr) :
  In f (output_files d) -> is_supported f = true.
Proof.
  unfold output_files, glob_suffix, is_supported. intros H.
  repeat (apply in_app_or in H as [H|H]);
    apply filter_In in H as [_ H];
    apply endswith_lower in H; try reflexivity;
    cbn [existsb SUPPORTED_EXTENSIONS]; rewrite H;
    repeat rewrite orb_true_r; reflexivity.
Qed.

(** X24.  What the converter downloads, the uploader accepts: a file
    [wait_for_download] returns is a name of the download directory that
    passes the test [file.lower().endswith(SUPPORTED_EXTENSIONS)] of the
    uploader. *)
Theorem wait_for_download_supported (fuel : nat) (dirs : nat -> directory)
    (timeout : timeout_value) (f : pystr) (polls : nat) :
  wait_for_download_in fuel dirs timeout = Some (Some f, polls) ->
  is_supported f = true /\ exists i, (S i = polls)%nat /\ In f (dirs i).
Proof.
  intros H. unfold wait_for_download_in in H.
  destruct (wait_run fuel dirs timeout (Waiting 0 0)) as [s p|result n] eqn:E;
    [discriminate|].
  injection H as -> ->.
  change 0 with (Z.of_nat 0) in E.
  apply wait_run_some_rounds in E as [k Hk].
  pose proof (rounds_spec dirs k 0) as Hs.
  rewrite Hk in Hs.
  destruct Hs as [_ [(Hn & _)|(i & g & _ & -> & [= ->] & Hp & _)]];
    [discriminate|].
  apply poll_some in Hp as [_ Hp].
  assert (Hin : In g (output_files (dirs i))).
  { unfold output_files, glob_suffix.
    destruct (_ ++ _); [discriminate|].
    injection Hp as ->. now left. }
  split; [now apply (output_files_supported (dirs i))|].
  exists i. split; [reflexivity|].
  unfold output_files, glob_suffix in Hin.
  repeat (apply in_app_or in Hin as [Hin|Hin]);
    now apply filter_In in Hin as [Hin _].
Qed.

Lemma wait_for_download_supported_witness :
  is_supported (lit "a.xtch") = true
  /\ exists i, (S i = 1)%nat /\ In (lit "a.xtch") [lit "a.epub"; lit "a.xtch"].
Proof.
  apply (wait_for_download_supported 5 (fun _ => [lit "a.epub"; lit "a.xtch"])
           (TInt 3)).
  vm_compute. reflexivity.
Defined.

End ExtensionsFacts.
